(** * BurgerCraft order widget: a shallow embedding of [script.js]

    The development follows the source file top to bottom: JavaScript strings
    (sequences of UTF-16 code units), the regular expression used by the phone
    validator together with the backtracking matcher of ECMA-262, and then the
    methods of [BurgerCraftApp] that the verified properties are about. *)

From Stdlib Require Import ZArith NArith List Bool Lia String Ascii Floats Sorted.
From stdpp Require Import base option list gmap.
Import ListNotations.

Set Warnings "-inexact-float,-register-all".

Local Open Scope Z_scope.

(** ** JavaScript strings *)

Module JsString.

(** A string value is a finite sequence of 16-bit code units. *)
Definition codeunit := N.
Definition jsstring := list codeunit.

(** Source literals are ASCII; [js] reads one as a string value. *)
Definition js (s : string) : jsstring :=
  List.map N_of_ascii (list_ascii_of_string s).

(** WhiteSpace and LineTerminator code points: what the class [\s] matches
    and what [String.prototype.trim] removes. *)
Definition isWhiteSpace (c : codeunit) : bool :=
  ((9 <=? c) && (c <=? 13) || (c =? 32) || (c =? 160) || (c =? 5760)
   || (8192 <=? c) && (c <=? 8202) || (c =? 8232) || (c =? 8233)
   || (c =? 8239) || (c =? 8287) || (c =? 12288) || (c =? 65279))%N.

(** [\d] is the ASCII digits only. *)
Definition isDigit (c : codeunit) : bool := ((48 <=? c) && (c <=? 57))%N.

Fixpoint trimStart (s : jsstring) : jsstring :=
  match s with
  | c :: tl => if isWhiteSpace c then trimStart tl else s
  | [] => []
  end.

Definition trimEnd (s : jsstring) : jsstring := rev (trimStart (rev s)).

(** [s.trim()] *)
Definition trim (s : jsstring) : jsstring := trimEnd (trimStart s).

(** ToBoolean on a string: only the empty string is falsy. *)
Definition truthy (s : jsstring) : bool :=
  match s with [] => false | _ => true end.

Definition eqb (a b : jsstring) : bool := bool_decide (a = b).

End JsString.
Export JsString.

(** ** Regular expressions (ECMA-262, Pattern Semantics) *)

Module RegExp.

(** The members of a bracketed class. *)
Inductive class_atom :=
| One (c : codeunit)            (* a literal or an identity escape such as [\+] *)
| Range (lo hi : codeunit)      (* [lo-hi] *)
| ClassDigit                    (* [\d] *)
| ClassSpace.                   (* [\s] *)

Definition atom_matches (a : class_atom) (c : codeunit) : bool :=
  match a with
  | One x => (c =? x)%N
  | Range lo hi => ((lo <=? c) && (c <=? hi))%N
  | ClassDigit => isDigit c
  | ClassSpace => isWhiteSpace c
  end.

Definition class_matches (cls : list class_atom) (c : codeunit) : bool :=
  existsb (fun a => atom_matches a c) cls.

Inductive pattern :=
| Empty
| CharClass (cls : list class_atom)
| AssertStart                    (* [^], no multiline flag *)
| AssertEnd                      (* [$], no multiline flag *)
| Seq (a b : pattern)
| Disj (a b : pattern)
| Quant (a : pattern) (min : nat) (max : option nat).   (* greedy a{min,max} *)

(** A match state: the index reached and the input that remains there. *)
Record mstate := { endIndex : nat; rest : jsstring }.

Definition continuation := mstate -> bool.
Definition matcher := mstate -> continuation -> bool.

(** RepeatMatcher.  The fuel bounds the number of iterations: an iteration
    either uses up one of the [min] compulsory rounds or, by the empty
    check, consumes input. *)
Fixpoint repeatMatcher (m : matcher) (fuel : nat) (min : nat) (max : option nat)
    (x : mstate) (c : continuation) : bool :=
  match max with
  | Some O => c x
  | _ =>
    match fuel with
    | O => false
    | S fuel' =>
      let d := fun y : mstate =>
        if Nat.eqb min 0 && Nat.eqb (endIndex y) (endIndex x) then false
        else repeatMatcher m fuel' (Nat.pred min) (option_map Nat.pred max) y c in
      if Nat.eqb min 0 then m x d || c x else m x d
    end
  end.

Fixpoint compile (r : pattern) : matcher :=
  match r with
  | Empty => fun x c => c x
  | CharClass cls => fun x c =>
      match rest x with
      | ch :: tl =>
          if class_matches cls ch
          then c {| endIndex := S (endIndex x); rest := tl |}
          else false
      | [] => false
      end
  | AssertStart => fun x c => if Nat.eqb (endIndex x) 0 then c x else false
  | AssertEnd => fun x c => match rest x with [] => c x | _ => false end
  | Seq a b => fun x c => compile a x (fun y => compile b y c)
  | Disj a b => fun x c => compile a x c || compile b x c
  | Quant a min max => fun x c =>
      repeatMatcher (compile a) (S (min + length (rest x))) min max x c
  end.

(** RegExpBuiltinExec without the global or sticky flag: the match is tried
    at index 0, then 1, and so on up to the end of the input. *)
Fixpoint exec_from (r : pattern) (i : nat) (s : jsstring) : bool :=
  compile r {| endIndex := i; rest := s |} (fun _ => true)
  || match s with
     | [] => false
     | _ :: tl => exec_from r (S i) tl
     end.

(** [regex.test(s)] *)
Definition test (r : pattern) (s : jsstring) : bool := exec_from r 0 s.

(** [s.replace(/\s/g, '')]: every match of [\s] is a single code unit, and
    each is replaced by the empty string. *)
Definition replace_whitespace_global (s : jsstring) : jsstring :=
  List.filter (fun c => negb (isWhiteSpace c)) s.

End RegExp.
Export RegExp.

(** ** Phone validation *)

Definition ch (s : string) : codeunit :=
  match s with String a _ => N_of_ascii a | EmptyString => 0%N end.

(** [/^[\+]?[1-9][\d]{0,15}$|^[\(]?[\d\s\-\(\)]{10,}$/] *)
Definition phoneRegex : pattern :=
  Disj
    (Seq AssertStart
      (Seq (Quant (CharClass [One (ch "+")]) 0 (Some 1%nat))
        (Seq (CharClass [Range (ch "1") (ch "9")])
          (Seq (Quant (CharClass [ClassDigit]) 0 (Some 15%nat))
            AssertEnd))))
    (Seq AssertStart
      (Seq (Quant (CharClass [One (ch "(")]) 0 (Some 1%nat))
        (Seq (Quant (CharClass [ClassDigit; ClassSpace; One (ch "-"); One (ch "("); One (ch ")")])
                    10 None)
          AssertEnd))).

(** [isValidPhoneNumber(phone)] *)
Definition isValidPhoneNumber (phone : jsstring) : bool :=
  test phoneRegex (replace_whitespace_global phone).

(** ** Numbers

    A Number is an IEEE 754 binary64 value.  Every finite binary64 value is an
    integer multiple of 2^-1074 (the least subnormal) with at most 53
    significant bits and magnitude below 2^1024; [Fin k] is the value
    k * 2^-1074.  The two zeros are one value here: the program never divides,
    and every operation it applies ([+], [*], [||], ToString, JSON.stringify,
    [toFixed]) treats them alike. *)

Module Number.

Inductive number :=
| NaN
| Inf (negative : bool)
| Fin (k : Z).

Definition unit_exp : Z := 1074.
Definition U : Z := 2 ^ unit_exp.
Definition overflow_threshold : Z := 2 ^ (1024 + unit_exp).

(** The integer nearest to n/d, ties to even (n >= 0, d > 0). *)
Definition rne (n d : Z) : Z :=
  let q := n / d in
  match 2 * (n mod d) ?= d with
  | Lt => q
  | Gt => q + 1
  | Eq => if Z.even q then q else q + 1
  end.

(** roundTiesToEven of the value (n/d) * 2^-1074, n >= 0 and d > 0: results
    with more than 53 bits are rounded at the 53rd. *)
Definition round_pos (n d : Z) : number :=
  let sh := Z.max 0 (Z.log2 (n / d) - 52) in
  let k := rne n (d * 2 ^ sh) * 2 ^ sh in
  if k <? overflow_threshold then Fin k else Inf false.

Definition neg (x : number) : number :=
  match x with
  | NaN => NaN
  | Inf s => Inf (negb s)
  | Fin k => Fin (- k)
  end.

Definition round_units (n d : Z) : number :=
  if n <? 0 then neg (round_pos (- n) d) else round_pos n d.

(** The Number value for the rational n/d (d > 0). *)
Definition round_q (n d : Z) : number := round_units (n * U) d.

(** The Number value for the integer z. *)
Definition of_Z (z : Z) : number := round_q z 1.

(** The Number value for s * 10^e: the value of a decimal literal. *)
Definition round_dec (s e : Z) : number :=
  if 0 <=? e then round_q (s * 10 ^ e) 1 else round_q s (10 ^ (- e)).

(** [x + y] *)
Definition add (x y : number) : number :=
  match x, y with
  | NaN, _ | _, NaN => NaN
  | Inf a, Inf b => if Bool.eqb a b then Inf a else NaN
  | Inf a, Fin _ | Fin _, Inf a => Inf a
  | Fin a, Fin b => round_units (a + b) 1
  end.

(** [x * y] *)
Definition mul (x y : number) : number :=
  match x, y with
  | NaN, _ | _, NaN => NaN
  | Inf a, Inf b => Inf (xorb a b)
  | Inf a, Fin k | Fin k, Inf a =>
      if k =? 0 then NaN else Inf (xorb a (k <? 0))
  | Fin a, Fin b => round_units (a * b) U
  end.

(** ToBoolean: zero and NaN are falsy. *)
Definition truthy (x : number) : bool :=
  match x with
  | NaN => false
  | Inf _ => true
  | Fin k => negb (k =? 0)
  end.

Definition is_finite (x : number) : bool :=
  match x with Fin _ => true | _ => false end.

(** [x < y] *)
Definition ltb (x y : number) : bool :=
  match x, y with
  | NaN, _ | _, NaN => false
  | Inf a, Inf b => a && negb b
  | Inf a, Fin _ => a
  | Fin _, Inf b => negb b
  | Fin a, Fin b => a <? b
  end.

(** [x === y] *)
Definition strict_eqb (x y : number) : bool :=
  match x, y with
  | NaN, _ | _, NaN => false
  | Inf a, Inf b => Bool.eqb a b
  | Fin a, Fin b => a =? b
  | _, _ => false
  end.

(** [k * 2^-1074] is a binary64 value: at most 53 significant bits, and
    magnitude below 2^1024. *)
Definition representable (k : Z) : bool :=
  let a := Z.abs k in
  (a mod 2 ^ Z.max 0 (Z.log2 a - 52) =? 0) && (a <? overflow_threshold).

Definition is_binary64 (x : number) : bool :=
  match x with
  | Fin k => representable k
  | NaN | Inf _ => true
  end.

(** A value of the kernel's binary64 type, read as a [number]. *)
Definition of_prim (f : PrimFloat.float) : number :=
  match FloatOps.Prim2SF f with
  | SpecFloat.S754_zero _ => Fin 0
  | SpecFloat.S754_infinity s => Inf s
  | SpecFloat.S754_nan => NaN
  | SpecFloat.S754_finite s m e =>
      Fin ((if s then - Z.pos m else Z.pos m) * 2 ^ (e + unit_exp))
  end.

End Number.
Export Number.

(** ** Numbers and text: ToString, [parseInt], [padStart] *)

Module NumberText.

Definition digit_char (d : Z) : codeunit := Z.to_N (48 + d).

(** The decimal digits of z >= 0, least significant first. *)
Fixpoint digits_le (fuel : nat) (z : Z) : list Z :=
  match fuel with
  | O => []
  | S f => if z <? 10 then [z] else (z mod 10) :: digits_le f (z / 10)
  end.

(** The decimal representation of the integer z >= 0. *)
Definition digits (z : Z) : jsstring :=
  rev (List.map digit_char (digits_le (S (Z.to_nat (Z.log2 z))) z)).

Definition ndigits (z : Z) : Z := Z.of_nat (length (digits z)).

Definition zeros (n : Z) : jsstring := repeat (ch "0") (Z.to_nat n).

(** The integer n with 10^(n-1) <= K * 2^-1074 < 10^n, for K > 0: the
    number of digits of the integer part or, below 1, the number of zeros
    that follow the decimal point, negated. *)
Definition dec_exponent (K : Z) : Z :=
  if U <=? K then ndigits (K / U) else 1 - ndigits (U / K).

(** The decimal s * 10^e read back as a Number is [Fin K]. *)
Definition reads_back (K s e : Z) : bool :=
  match round_dec s e with
  | Fin k => k =? K
  | _ => false
  end.

(** The p-digit decimals next to K * 2^-1074 (n is its decimal exponent):
    the one below and the one above.  A candidate is kept when it reads
    back as the same Number; of two, the closer one, the even one at a tie. *)
Definition candidate (K n p : Z) : option (Z * Z) :=
  let j := n - p in
  let num := if 0 <=? j then K else K * 10 ^ (- j) in
  let den := if 0 <=? j then U * 10 ^ j else U in
  let lo := num / den in
  let hi := lo + 1 in
  let lo_ok := reads_back K lo j in
  let hi_ok := reads_back K hi j in
  let prefer_lo :=
    match 2 * (num mod den) ?= den with
    | Lt => true
    | Gt => false
    | Eq => Z.even lo
    end in
  let up := if hi =? 10 ^ p then (1, j + p) else (hi, j) in
  if lo_ok && (prefer_lo || negb hi_ok) then Some (lo, j)
  else if hi_ok then Some up
  else None.

(** The exact decimal expansion of K * 2^-1074. *)
Definition exact_decimal (K : Z) : Z * Z := (K * 5 ^ unit_exp, - unit_exp).

(** The shortest decimal that reads back as [Fin K]: p = 1, 2, ...; seventeen
    digits are enough for every binary64 value, so the exact expansion that
    closes the search is never reached. *)
Fixpoint shortest_from (fuel : nat) (p : Z) (K n : Z) : Z * Z :=
  match fuel with
  | O => exact_decimal K
  | S f =>
      match candidate K n p with
      | Some r => r
      | None => shortest_from f (p + 1) K n
      end
  end.

Definition shortest (K : Z) : Z * Z := shortest_from 17 1 K (dec_exponent K).

(** Number::toString, steps 6 to 10: the digits s (k of them) and the
    position n of the decimal point. *)
Definition format_decimal (s e : Z) : jsstring :=
  let ds := digits s in
  let k := ndigits s in
  let n := e + k in
  if (k <=? n) && (n <=? 21) then ds ++ zeros (n - k)
  else if (0 <? n) && (n <=? 21) then
    take (Z.to_nat n) ds ++ js "." ++ drop (Z.to_nat n) ds
  else if (-6 <? n) && (n <=? 0) then js "0." ++ zeros (- n) ++ ds
  else
    let x := n - 1 in
    let sign := if x <? 0 then js "-" else js "+" in
    if k =? 1 then ds ++ js "e" ++ sign ++ digits (Z.abs x)
    else take 1 ds ++ js "." ++ drop 1 ds ++ js "e" ++ sign ++ digits (Z.abs x).

(** Number::toString(x, 10): [String(x)], [x.toString()]. *)
Definition toString (x : number) : jsstring :=
  match x with
  | NaN => js "NaN"
  | Inf false => js "Infinity"
  | Inf true => js "-Infinity"
  | Fin k =>
      if k =? 0 then js "0"
      else
        let (s, e) := shortest (Z.abs k) in
        (if k <? 0 then js "-" else []) ++ format_decimal s e
  end.

(** The value of c as a digit of the given radix. *)
Definition digit_of (radix : Z) (c : codeunit) : option Z :=
  let v :=
    if isDigit c then Z.of_N c - 48
    else if ((97 <=? c) && (c <=? 122))%N then Z.of_N c - 87
    else if ((65 <=? c) && (c <=? 90))%N then Z.of_N c - 55
    else radix in
  if v <? radix then Some v else None.

(** The longest prefix of radix digits, as digit values. *)
Fixpoint leading_digits (radix : Z) (s : jsstring) : list Z :=
  match s with
  | c :: tl =>
      match digit_of radix c with
      | Some d => d :: leading_digits radix tl
      | None => []
      end
  | [] => []
  end.

Definition digits_value (radix : Z) (ds : list Z) : Z :=
  fold_left (fun acc d => acc * radix + d) ds 0.

(** [parseInt(string)] with no radix argument: leading white space is
    skipped, a sign is read, a [0x] prefix selects radix 16, and the longest
    prefix of digits gives the value; NaN when there is none. *)
Definition parseInt (input : jsstring) : number :=
  let s := trimStart input in
  let negative := match s with c :: _ => (c =? ch "-")%N | [] => false end in
  let s1 :=
    match s with
    | c :: tl => if (c =? ch "-")%N || (c =? ch "+")%N then tl else s
    | [] => []
    end in
  let hex :=
    match s1 with
    | z :: x :: _ => (z =? ch "0")%N && ((x =? ch "x")%N || (x =? ch "X")%N)
    | _ => false
    end in
  let radix := if hex then 16 else 10 in
  let s2 := if hex then drop 2 s1 else s1 in
  match leading_digits radix s2 with
  | [] => NaN
  | ds =>
      let mathInt := digits_value radix ds in
      of_Z (if negative then - mathInt else mathInt)
  end.

(** [s.padStart(targetLength, fill)] with a one-unit fill string. *)
Definition padStart (s : jsstring) (targetLength : nat) (fill : codeunit) : jsstring :=
  repeat fill (targetLength - length s) ++ s.

End NumberText.
Export NumberText.

(** ** Exceptions *)

Inductive exn :=
| QuotaExceededError     (* thrown by [localStorage.setItem] *)
| SecurityError          (* thrown when the page may not use [localStorage] *)
| SyntaxError            (* thrown by [JSON.parse] *)
| TypeError.

Inductive completion (A : Type) :=
| Normal (a : A)
| Throw (e : exn).
Arguments Normal {A} a.
Arguments Throw {A} e.

(** ** Web Storage *)

Module Storage.

(** [localStorage]: string keys and string values that outlive the page.
    The user agent may refuse every access ([blocked]) and may refuse a
    write that would take the stored keys and values over its [quota],
    counted in code units. *)
Record localStorage := {
  items : gmap jsstring jsstring;
  quota : option nat;
  blocked : bool
}.

Definition used (m : gmap jsstring jsstring) : nat :=
  map_fold (fun k v acc => (length k + length v + acc)%nat) 0%nat m.

Definition fits (q : option nat) (m : gmap jsstring jsstring) : bool :=
  match q with
  | Some limit => Nat.leb (used m) limit
  | None => true
  end.

(** [localStorage.getItem(key)]: the value, or null. *)
Definition getItem (st : localStorage) (key : jsstring) : completion (option jsstring) :=
  if blocked st then Throw SecurityError else Normal (items st !! key).

(** [localStorage.setItem(key, value)] *)
Definition setItem (st : localStorage) (key value : jsstring) : completion localStorage :=
  if blocked st then Throw SecurityError
  else
    let m := <[key := value]> (items st) in
    if fits (quota st) m
    then Normal {| items := m; quota := quota st; blocked := blocked st |}
    else Throw QuotaExceededError.

Definition empty_storage : localStorage :=
  {| items := ∅; quota := None; blocked := false |}.

End Storage.
Export Storage.

(** ** JSON *)

Module Json.

(** The values the program handles.  [VObj] lists an object's own
    enumerable string-keyed properties in property order; [VFunction] is a
    built-in function object. *)
Inductive value :=
| VNull
| VBool (b : bool)
| VNum (x : number)
| VStr (s : jsstring)
| VArr (elements : list value)
| VObj (props : list (jsstring * value))
| VFunction (name : jsstring).

Definition quotation_mark : codeunit := 34%N.
Definition reverse_solidus : codeunit := 92%N.

Definition hex_char (d : N) : codeunit :=
  (if d <? 10 then 48 + d else 87 + d)%N.

(** [\uXXXX] with lower-case hexadecimal digits. *)
Definition unicode_escape (c : codeunit) : jsstring :=
  [reverse_solidus; ch "u";
   hex_char (c / 4096 mod 16); hex_char (c / 256 mod 16);
   hex_char (c / 16 mod 16); hex_char (c mod 16)]%N.

Definition is_leading_surrogate (c : codeunit) : bool :=
  ((55296 <=? c) && (c <=? 56319))%N.
Definition is_trailing_surrogate (c : codeunit) : bool :=
  ((56320 <=? c) && (c <=? 57343))%N.

Definition escape_unit (c : codeunit) : jsstring :=
  (if c =? 8 then [reverse_solidus; ch "b"]
   else if c =? 9 then [reverse_solidus; ch "t"]
   else if c =? 10 then [reverse_solidus; ch "n"]
   else if c =? 12 then [reverse_solidus; ch "f"]
   else if c =? 13 then [reverse_solidus; ch "r"]
   else if c =? quotation_mark then [reverse_solidus; quotation_mark]
   else if c =? reverse_solidus then [reverse_solidus; reverse_solidus]
   else if c <? 32 then unicode_escape c
   else [c])%N.

(** The body of QuoteJSONString: code points are escaped one by one; a
    surrogate pair is kept, a lone surrogate is written as an escape. *)
Fixpoint quote_units (s : jsstring) : jsstring :=
  match s with
  | [] => []
  | c :: tl =>
      if is_leading_surrogate c then
        match tl with
        | c2 :: tl2 =>
            if is_trailing_surrogate c2 then c :: c2 :: quote_units tl2
            else unicode_escape c ++ quote_units tl
        | [] => unicode_escape c
        end
      else if is_trailing_surrogate c then unicode_escape c ++ quote_units tl
      else escape_unit c ++ quote_units tl
  end.

Definition quoteJSONString (s : jsstring) : jsstring :=
  quotation_mark :: quote_units s ++ [quotation_mark].

Fixpoint join_comma (texts : list jsstring) : jsstring :=
  match texts with
  | [] => []
  | t :: tl =>
      match tl with
      | [] => t
      | _ :: _ => t ++ ch "," :: join_comma tl
      end
  end.

(** SerializeJSONProperty: [None] is the result undefined.  In an array an
    undefined element is written null; in an object the property is left
    out. *)
Fixpoint serialize (v : value) : option jsstring :=
  match v with
  | VNull => Some (js "null")
  | VBool b => Some (if b then js "true" else js "false")
  | VNum x => Some (if is_finite x then toString x else js "null")
  | VStr s => Some (quoteJSONString s)
  | VFunction _ => None
  | VArr elements =>
      Some (ch "[" ::
            join_comma
              (List.map (fun e => match serialize e with
                                  | Some t => t
                                  | None => js "null"
                                  end) elements)
            ++ [ch "]"])
  | VObj props =>
      Some (ch "{" ::
            join_comma
              (List.flat_map
                 (fun p => match serialize (snd p) with
                           | Some t => [quoteJSONString (fst p) ++ ch ":" :: t]
                           | None => []
                           end) props)
            ++ [ch "}"])
  end.

(** [JSON.stringify(value)] with no replacer and no indentation. *)
Definition stringify (v : value) : option jsstring := serialize v.

(** *** JSON.parse *)

Definition is_json_space (c : codeunit) : bool :=
  ((c =? 9) || (c =? 10) || (c =? 13) || (c =? 32))%N.

Fixpoint skip_ws (s : jsstring) : jsstring :=
  match s with
  | c :: tl => if is_json_space c then skip_ws tl else s
  | [] => []
  end.

Definition hex_value (c : codeunit) : option N :=
  (if isDigit c then Some (c - 48)
   else if (97 <=? c) && (c <=? 102) then Some (c - 87)
   else if (65 <=? c) && (c <=? 70) then Some (c - 55)
   else None)%N.

Definition simple_escape (c : codeunit) : option codeunit :=
  (if c =? quotation_mark then Some quotation_mark
   else if c =? reverse_solidus then Some reverse_solidus
   else if c =? ch "/" then Some (ch "/")
   else if c =? ch "b" then Some 8
   else if c =? ch "f" then Some 12
   else if c =? ch "n" then Some 10
   else if c =? ch "r" then Some 13
   else if c =? ch "t" then Some 9
   else None)%N.

(** The characters of a string literal after its opening quotation mark,
    up to the closing one. *)
Fixpoint parse_string_body (s : jsstring) : option (jsstring * jsstring) :=
  match s with
  | [] => None
  | c :: tl =>
      if (c =? quotation_mark)%N then Some ([], tl)
      else if (c =? reverse_solidus)%N then
        match tl with
        | e :: tl2 =>
            if (e =? ch "u")%N then
              match tl2 with
              | h1 :: h2 :: h3 :: h4 :: tl3 =>
                  match hex_value h1, hex_value h2, hex_value h3, hex_value h4 with
                  | Some a, Some b, Some c3, Some d =>
                      match parse_string_body tl3 with
                      | Some (str, rest) =>
                          Some ((a * 4096 + b * 256 + c3 * 16 + d)%N :: str, rest)
                      | None => None
                      end
                  | _, _, _, _ => None
                  end
              | _ => None
              end
            else
              match simple_escape e with
              | Some u =>
                  match parse_string_body tl2 with
                  | Some (str, rest) => Some (u :: str, rest)
                  | None => None
                  end
              | None => None
              end
        | [] => None
        end
      else if (c <? 32)%N then None
      else
        match parse_string_body tl with
        | Some (str, rest) => Some (c :: str, rest)
        | None => None
        end
  end.

(** A JSON number: [-? int frac? exp?], where int is 0 or starts with a
    non-zero digit.  Its value is the Number for the decimal it denotes. *)
Definition parse_number (s : jsstring) : option (number * jsstring) :=
  let negative := match s with c :: _ => (c =? ch "-")%N | [] => false end in
  let s0 := if negative then drop 1 s else s in
  let int_all := leading_digits 10 s0 in
  let int_part :=
    match int_all with
    | d :: _ => if d =? 0 then [0] else int_all
    | [] => []
    end in
  match int_part with
  | [] => None
  | _ :: _ =>
      let s1 := drop (length int_part) s0 in
      let has_frac := match s1 with c :: _ => (c =? ch ".")%N | [] => false end in
      let frac := if has_frac then leading_digits 10 (drop 1 s1) else [] in
      if has_frac && Nat.eqb (length frac) 0 then None
      else
        let s2 := if has_frac then drop (S (length frac)) s1 else s1 in
        let has_exp :=
          match s2 with c :: _ => (c =? ch "e")%N || (c =? ch "E")%N | [] => false end in
        let s3 := if has_exp then drop 1 s2 else s2 in
        let exp_negative :=
          has_exp && match s3 with c :: _ => (c =? ch "-")%N | [] => false end in
        let exp_signed :=
          has_exp && match s3 with
                     | c :: _ => (c =? ch "-")%N || (c =? ch "+")%N
                     | [] => false
                     end in
        let s4 := if exp_signed then drop 1 s3 else s3 in
        let exp_digits := if has_exp then leading_digits 10 s4 else [] in
        if has_exp && Nat.eqb (length exp_digits) 0 then None
        else
          let rest := drop (length exp_digits) s4 in
          let mantissa := digits_value 10 (int_part ++ frac) in
          let exponent := digits_value 10 exp_digits in
          let e := (if exp_negative then - exponent else exponent)
                   - Z.of_nat (length frac) in
          Some (round_dec (if negative then - mantissa else mantissa) e, rest)
  end.

(** Does [s] start with the given keyword?  Then what follows it. *)
Fixpoint strip_prefix (kw s : jsstring) : option jsstring :=
  match kw, s with
  | [], _ => Some s
  | k :: kw', c :: tl => if (k =? c)%N then strip_prefix kw' tl else None
  | _ :: _, [] => None
  end.

(** *** Property order of an ordinary object *)

(** An array index: the canonical decimal of an integer below 2^32 - 1. *)
Definition array_index (k : jsstring) : option Z :=
  let ds := leading_digits 10 k in
  let v := digits_value 10 ds in
  if Nat.eqb (length ds) (length k) && negb (Nat.eqb (length k) 0)
     && bool_decide (digits v = k) && (v <? 4294967295)
  then Some v else None.

Fixpoint has_key (props : list (jsstring * value)) (k : jsstring) : bool :=
  match props with
  | [] => false
  | (k', _) :: tl => bool_decide (k' = k) || has_key tl k
  end.

Fixpoint set_existing (props : list (jsstring * value)) (k : jsstring) (v : value) :=
  match props with
  | [] => []
  | (k', v') :: tl =>
      if bool_decide (k' = k) then (k', v) :: tl
      else (k', v') :: set_existing tl k v
  end.

Fixpoint insert_index (props : list (jsstring * value)) (i : Z) (k : jsstring) (v : value) :=
  match props with
  | [] => [(k, v)]
  | (k', v') :: tl =>
      match array_index k' with
      | Some i' =>
          if i' <? i then (k', v') :: insert_index tl i k v
          else (k, v) :: props
      | None => (k, v) :: props
      end
  end.

(** CreateDataProperty on an ordinary object: an existing key keeps its
    place; array indices come first, in ascending order; other keys follow
    in order of creation. *)
Definition define_property (props : list (jsstring * value)) (k : jsstring) (v : value) :=
  if has_key props k then set_existing props k v
  else match array_index k with
       | Some i => insert_index props i k v
       | None => props ++ [(k, v)]
       end.

Definition make_object (members : list (jsstring * value)) : value :=
  VObj (fold_left (fun props m => define_property props (fst m) (snd m)) members []).

(** The parser proper.  Each call on a nested value uses up fuel; the text's
    length bounds the nesting. *)
Fixpoint parse_value (fuel : nat) (s : jsstring) : option (value * jsstring) :=
  match fuel with
  | O => None
  | S f =>
      match skip_ws s with
      | [] => None
      | c :: tl =>
          if (c =? ch "[")%N then
            match skip_ws tl with
            | c2 :: tl2 =>
                if (c2 =? ch "]")%N then Some (VArr [], tl2)
                else
                  match parse_elements f tl with
                  | Some (vs, rest) => Some (VArr vs, rest)
                  | None => None
                  end
            | [] => None
            end
          else if (c =? ch "{")%N then
            match skip_ws tl with
            | c2 :: tl2 =>
                if (c2 =? ch "}")%N then Some (VObj [], tl2)
                else
                  match parse_members f tl with
                  | Some (ms, rest) => Some (make_object ms, rest)
                  | None => None
                  end
            | [] => None
            end
          else if (c =? quotation_mark)%N then
            match parse_string_body tl with
            | Some (str, rest) => Some (VStr str, rest)
            | None => None
            end
          else if (c =? ch "n")%N then
            option_map (fun rest => (VNull, rest)) (strip_prefix (js "ull") tl)
          else if (c =? ch "t")%N then
            option_map (fun rest => (VBool true, rest)) (strip_prefix (js "rue") tl)
          else if (c =? ch "f")%N then
            option_map (fun rest => (VBool false, rest)) (strip_prefix (js "alse") tl)
          else
            match parse_number (c :: tl) with
            | Some (x, rest) => Some (VNum x, rest)
            | None => None
            end
      end
  end
with parse_elements (fuel : nat) (s : jsstring) : option (list value * jsstring) :=
  match fuel with
  | O => None
  | S f =>
      match parse_value f s with
      | Some (v, rest) =>
          match skip_ws rest with
          | c :: tl =>
              if (c =? ch ",")%N then
                match parse_elements f tl with
                | Some (vs, rest') => Some (v :: vs, rest')
                | None => None
                end
              else if (c =? ch "]")%N then Some ([v], tl)
              else None
          | [] => None
          end
      | None => None
      end
  end
with parse_members (fuel : nat) (s : jsstring) : option (list (jsstring * value) * jsstring) :=
  match fuel with
  | O => None
  | S f =>
      match skip_ws s with
      | q :: tl =>
          if (q =? quotation_mark)%N then
            match parse_string_body tl with
            | Some (k, rest) =>
                match skip_ws rest with
                | c :: tl2 =>
                    if (c =? ch ":")%N then
                      match parse_value f tl2 with
                      | Some (v, rest2) =>
                          match skip_ws rest2 with
                          | c3 :: tl3 =>
                              if (c3 =? ch ",")%N then
                                match parse_members f tl3 with
                                | Some (ms, rest') => Some ((k, v) :: ms, rest')
                                | None => None
                                end
                              else if (c3 =? ch "}")%N then Some ([(k, v)], tl3)
                              else None
                          | [] => None
                          end
                      | None => None
                      end
                    else None
                | [] => None
                end
            | None => None
            end
          else None
      | [] => None
      end
  end.

(** [JSON.parse(text)] with no reviver: one value, white space around it,
    nothing else; a SyntaxError otherwise. *)
Definition parse (text : jsstring) : completion value :=
  match parse_value (S (length text)) text with
  | Some (v, rest) =>
      match skip_ws rest with
      | [] => Normal v
      | _ :: _ => Throw SyntaxError
      end
  | None => Throw SyntaxError
  end.

End Json.
Export Json.

(** ** The application: [class BurgerCraftApp] *)

Module App.

Definition ORDERS_KEY : jsstring := js "burgercraft_orders".
Definition COUNTER_KEY : jsstring := js "burgercraft_order_counter".

(** The object literal that [collectFormData] returns. *)
Record order := {
  customerName : jsstring;
  phoneNumber : jsstring;
  hamburgerType : jsstring;
  quantity : number;
  specialInstructions : jsstring;
  unitPrice : value;
  totalPrice : number;
  status : jsstring;
  orderDate : jsstring;
  orderId : jsstring
}.

(** The same object as a value, properties in the order of the literal. *)
Definition order_value (o : order) : value :=
  VObj [ (js "customerName", VStr (customerName o));
         (js "phoneNumber", VStr (phoneNumber o));
         (js "hamburgerType", VStr (hamburgerType o));
         (js "quantity", VNum (quantity o));
         (js "specialInstructions", VStr (specialInstructions o));
         (js "unitPrice", unitPrice o);
         (js "totalPrice", VNum (totalPrice o));
         (js "status", VStr (status o));
         (js "orderDate", VStr (orderDate o));
         (js "orderId", VStr (orderId o)) ].

(** What the page supplies when the form is submitted: the values of the
    inputs, the value of the checked radio button if there is one, and the
    clock reading of [new Date().toISOString()]. *)
Record form := {
  customerNameInput : jsstring;
  phoneNumberInput : jsstring;
  selectedBurger : option jsstring;
  quantitySelect : jsstring;
  specialInstructionsTextarea : jsstring;
  now : jsstring
}.

(** The fields of the instance, the two modal flags kept in the page
    ([classList] of the modals) and [localStorage]. *)
Record world := {
  orders : value;
  orderCounter : number;
  currentOrder : option order;
  confirmationActive : bool;
  successActive : bool;
  storage : localStorage
}.

(** Methods run on the world and complete normally or abruptly; what they
    changed before a [throw] stays changed. *)
Definition M (A : Type) : Type := world -> completion A * world.

#[global] Instance M_ret : MRet M := fun A a w => (Normal a, w).
#[global] Instance M_bind : MBind M := fun A B f m w =>
  match m w with
  | (Normal a, w') => f a w'
  | (Throw e, w') => (Throw e, w')
  end.

Definition throw {A} (e : exn) : M A := fun w => (Throw e, w).

(** [try { body } catch (error) { handler }] *)
Definition try_catch {A} (body : M A) (handler : exn -> M A) : M A := fun w =>
  match body w with
  | (Normal a, w') => (Normal a, w')
  | (Throw e, w') => handler e w'
  end.

Definition read {A} (field : world -> A) : M A := fun w => (Normal (field w), w).

Definition set_orders (v : value) : M unit := fun w =>
  (Normal tt, {| orders := v; orderCounter := orderCounter w;
                 currentOrder := currentOrder w;
                 confirmationActive := confirmationActive w;
                 successActive := successActive w; storage := storage w |}).

Definition set_orderCounter (x : number) : M unit := fun w =>
  (Normal tt, {| orders := orders w; orderCounter := x;
                 currentOrder := currentOrder w;
                 confirmationActive := confirmationActive w;
                 successActive := successActive w; storage := storage w |}).

Definition set_currentOrder (o : option order) : M unit := fun w =>
  (Normal tt, {| orders := orders w; orderCounter := orderCounter w;
                 currentOrder := o;
                 confirmationActive := confirmationActive w;
                 successActive := successActive w; storage := storage w |}).

Definition set_confirmationActive (b : bool) : M unit := fun w =>
  (Normal tt, {| orders := orders w; orderCounter := orderCounter w;
                 currentOrder := currentOrder w;
                 confirmationActive := b;
                 successActive := successActive w; storage := storage w |}).

Definition set_successActive (b : bool) : M unit := fun w =>
  (Normal tt, {| orders := orders w; orderCounter := orderCounter w;
                 currentOrder := currentOrder w;
                 confirmationActive := confirmationActive w;
                 successActive := b; storage := storage w |}).

Definition localStorage_getItem (key : jsstring) : M (option jsstring) := fun w =>
  (getItem (storage w) key, w).

Definition localStorage_setItem (key v : jsstring) : M unit := fun w =>
  match setItem (storage w) key v with
  | Normal st =>
      (Normal tt, {| orders := orders w; orderCounter := orderCounter w;
                     currentOrder := currentOrder w;
                     confirmationActive := confirmationActive w;
                     successActive := successActive w; storage := st |})
  | Throw e => (Throw e, w)
  end.

Definition JSON_parse (text : jsstring) : M value := fun w => (parse text, w).

Definition skip : M unit := mret tt.

(** [if (b) { body }] *)
Definition when (b : bool) (body : M unit) : M unit := if b then body else skip.

(** [console.warn(...)] *)
Definition console_warn : M unit := skip.

(** *** Storage *)

(** [saveOrdersToStorage()] *)
Definition saveOrdersToStorage : M unit :=
  try_catch
    (o ← read orders;
     localStorage_setItem ORDERS_KEY
       (match stringify o with Some text => text | None => js "undefined" end))
    (fun error => console_warn).

(** [loadOrdersFromStorage()] *)
Definition loadOrdersFromStorage : M value :=
  try_catch
    (stored ← localStorage_getItem ORDERS_KEY;
     match stored with
     | Some text => if JsString.truthy text then JSON_parse text else mret (VArr [])
     | None => mret (VArr [])
     end)
    (fun error => console_warn;; mret (VArr [])).

(** [saveOrderCounterToStorage()] *)
Definition saveOrderCounterToStorage : M unit :=
  try_catch
    (c ← read orderCounter;
     localStorage_setItem COUNTER_KEY (toString c))
    (fun error => console_warn).

(** [loadOrderCounterFromStorage()] *)
Definition loadOrderCounterFromStorage : M number :=
  try_catch
    (stored ← localStorage_getItem COUNTER_KEY;
     match stored with
     | Some text => if JsString.truthy text then mret (parseInt text) else mret (of_Z 1000)
     | None => mret (of_Z 1000)
     end)
    (fun error => console_warn;; mret (of_Z 1000)).

(** *** Prices *)

(** The object literal [prices]. *)
Definition prices : list (jsstring * value) :=
  [ (js "Classic Beef Burger", VNum (round_dec 1299 (-2)));
    (js "Grilled Chicken Burger", VNum (round_dec 1199 (-2)));
    (js "Plant-Based Veggie Burger", VNum (round_dec 1099 (-2)));
    (js "Deluxe BBQ Burger", VNum (round_dec 1599 (-2))) ].

(** The function-valued properties every object literal inherits from
    [Object.prototype]. *)
Definition object_prototype_functions : list jsstring :=
  [ js "constructor"; js "hasOwnProperty"; js "isPrototypeOf";
    js "propertyIsEnumerable"; js "toLocaleString"; js "toString";
    js "valueOf"; js "__defineGetter__"; js "__defineSetter__";
    js "__lookupGetter__"; js "__lookupSetter__" ].

Fixpoint own_property (props : list (jsstring * value)) (k : jsstring) : option value :=
  match props with
  | [] => None
  | (k', v) :: tl => if bool_decide (k' = k) then Some v else own_property tl k
  end.

(** [obj[key]] on an object literal: an own property, or else one found on
    [Object.prototype]; [None] is undefined.  The accessor [__proto__]
    yields [Object.prototype] itself, which has no enumerable property. *)
Definition get_property (props : list (jsstring * value)) (k : jsstring) : option value :=
  match own_property props k with
  | Some v => Some v
  | None =>
      if bool_decide (k ∈ object_prototype_functions) then Some (VFunction k)
      else if bool_decide (k = js "__proto__") then Some (VObj [])
      else None
  end.

(** ToBoolean *)
Definition truthy_value (v : value) : bool :=
  match v with
  | VNull => false
  | VBool b => b
  | VNum x => Number.truthy x
  | VStr s => JsString.truthy s
  | VArr _ | VObj _ | VFunction _ => true
  end.

(** [getBurgerPrice(burgerType)]: [prices[burgerType] || 12.99] *)
Definition getBurgerPrice (burgerType : jsstring) : value :=
  match get_property prices burgerType with
  | Some v => if truthy_value v then v else VNum (round_dec 1299 (-2))
  | None => VNum (round_dec 1299 (-2))
  end.

(** [burgerPrice * quantity]: the left operand goes through ToNumber.
    What [getBurgerPrice] returns is a Number, a built-in function or
    [Object.prototype]; the last two convert to NaN. *)
Definition times_quantity (burgerPrice : value) (quantity : number) : number :=
  match burgerPrice with
  | VNum p => mul p quantity
  | _ => mul NaN quantity
  end.

(** *** Building an order *)

(** [generateOrderId()] *)
Definition generateOrderId : M jsstring :=
  c ← read orderCounter;
  set_orderCounter (add c (of_Z 1));;
  saveOrderCounterToStorage;;
  c' ← read orderCounter;
  mret (js "BC" ++ padStart (toString c') 4 (ch "0")).

(** [collectFormData()] *)
Definition collectFormData (f : form) : M order :=
  match selectedBurger f with
  | None => throw TypeError
  | Some burger =>
      let quantity := parseInt (quantitySelect f) in
      let burgerPrice := getBurgerPrice burger in
      let totalPrice := times_quantity burgerPrice quantity in
      let instructions := trim (specialInstructionsTextarea f) in
      id ← generateOrderId;
      mret {| customerName := trim (customerNameInput f);
              phoneNumber := trim (phoneNumberInput f);
              hamburgerType := burger;
              quantity := quantity;
              specialInstructions :=
                if JsString.truthy instructions then instructions else js "None";
              unitPrice := burgerPrice;
              totalPrice := totalPrice;
              status := js "Pending";
              orderDate := now f;
              orderId := id |}
  end.

(** *** Validation *)

Inductive field_error :=
| NameRequired          (* 'Customer name is required' *)
| PhoneRequired         (* 'Phone number is required' *)
| PhoneInvalid          (* 'Please enter a valid phone number' *)
| BurgerRequired.       (* 'Please select a burger type' *)

(** The errors [validateForm()] shows, in the order it shows them. *)
Definition form_errors (f : form) : list field_error :=
  (if JsString.truthy (trim (customerNameInput f)) then [] else [NameRequired])
  ++ (if negb (JsString.truthy (trim (phoneNumberInput f))) then [PhoneRequired]
      else if negb (isValidPhoneNumber (phoneNumberInput f)) then [PhoneInvalid]
      else [])
  ++ (match selectedBurger f with Some _ => [] | None => [BurgerRequired] end).

(** [validateForm()]: [isValid] stays true when no error was shown. *)
Definition validateForm (f : form) : bool :=
  match form_errors f with [] => true | _ :: _ => false end.

(** *** The confirmation workflow

    Statements that only update the page from the state (filling the modal,
    drawing the table, notifications, resetting the form) assign no field
    and do not touch [localStorage]; each method below keeps the statements
    that do, in their order. *)

(** [closeConfirmationModal()] *)
Definition closeConfirmationModal : M unit :=
  set_confirmationActive false;;
  set_currentOrder None.

(** [showConfirmationModal()] *)
Definition showConfirmationModal : M unit := set_confirmationActive true.

(** [showSuccessModal()] *)
Definition showSuccessModal : M unit := set_successActive true.

(** [closeSuccessModal()] *)
Definition closeSuccessModal : M unit := set_successActive false.

(** [handleFormSubmit(e)] *)
Definition handleFormSubmit (f : form) : M unit :=
  if negb (validateForm f) then skip
  else
    formData ← collectFormData f;
    set_currentOrder (Some formData);;
    showConfirmationModal.

(** [this.orders.unshift(item)]: a TypeError unless [orders] is an array. *)
Definition orders_unshift (item : value) : M unit :=
  o ← read orders;
  match o with
  | VArr elements => set_orders (VArr (item :: elements))
  | _ => throw TypeError
  end.

(** [confirmOrder()] *)
Definition confirmOrder : M unit :=
  cur ← read currentOrder;
  match cur with
  | None => skip
  | Some draft =>
      orders_unshift (order_value draft);;
      saveOrdersToStorage;;
      closeConfirmationModal;;
      showSuccessModal
  end.

(** [constructor()]: the fields are loaded from storage; no draft. *)
Definition construct : M unit :=
  o ← loadOrdersFromStorage;
  set_orders o;;
  c ← loadOrderCounterFromStorage;
  set_orderCounter c;;
  set_currentOrder None.

(** The page as it is loaded over a given [localStorage]: no field of the
    instance is assigned yet and no modal is shown. *)
Definition page_load (st : localStorage) : world :=
  {| orders := VNull; orderCounter := NaN; currentOrder := None;
     confirmationActive := false; successActive := false; storage := st |}.

(** [new BurgerCraftApp()] on page load. *)
Definition start (st : localStorage) : world := snd (construct (page_load st)).

(** *** Events bound by [bindEvents()] *)

Inductive event :=
| Submit (f : form)            (* 'submit' on the order form *)
| ClickCloseModal              (* closeModalBtn *)
| ClickEditOrder               (* editOrderBtn *)
| ClickConfirmOrder            (* confirmOrderBtn *)
| ClickCloseSuccessModal       (* closeSuccessModalBtn *)
| ClickOutsideConfirmation     (* click on the confirmation modal's backdrop *)
| ClickOutsideSuccess          (* click on the success modal's backdrop *)
| KeyEscape                    (* keydown, key 'Escape' *)
| Reload.                      (* the page is loaded again *)

Definition handle (ev : event) : M unit :=
  match ev with
  | Submit f => handleFormSubmit f
  | ClickCloseModal | ClickEditOrder | ClickOutsideConfirmation => closeConfirmationModal
  | ClickConfirmOrder => confirmOrder
  | ClickCloseSuccessModal | ClickOutsideSuccess => closeSuccessModal
  | KeyEscape =>
      ca ← read confirmationActive;
      when ca closeConfirmationModal;;
      sa ← read successActive;
      when sa closeSuccessModal
  | Reload => fun w : world => (Normal tt, start (storage w))
  end.

(** The world after an event: an exception that leaves a handler ends that
    handler only. *)
Definition step (w : world) (ev : event) : world := snd (handle ev w).

Definition run (w : world) (evs : list event) : world := fold_left step evs w.

End App.
Export App.

(** ** The rules in the specification's words

    Definitions that follow the specification's text rather than the source;
    the properties below compare them with the code. *)

Module Spec.

(** Phone rule (a): an optional leading [+], a first digit 1-9, then up to
    15 further digits, and no other character. *)
Definition phone_rule_a (t : jsstring) : bool :=
  let t' := match t with
            | c :: tl => if (c =? ch "+")%N then tl else t
            | [] => []
            end in
  match t' with
  | d :: ds =>
      ((ch "1" <=? d)%N && (d <=? ch "9")%N)
      && forallb isDigit ds && Nat.leb (length ds) 15
  | [] => false
  end.

(** Phone rule (b), for a string from which white space was stripped: at
    least 10 characters, each a digit or one of the punctuation marks
    [(], [)] and [-]. *)
Definition phone_rule_b (t : jsstring) : bool :=
  Nat.leb 10 (length t)
  && forallb (fun c => isDigit c || (c =? ch "(")%N || (c =? ch ")")%N
                       || (c =? ch "-")%N) t.

Definition strip_whitespace (s : jsstring) : jsstring :=
  List.filter (fun c => negb (isWhiteSpace c)) s.

(** The phone rule as the specification states it: rule (a) is read on the
    input itself, rule (b) after stripping white space. *)
Definition phone_rule_as_stated (s : jsstring) : bool :=
  JsString.truthy s
  && (phone_rule_a s || phone_rule_b (strip_whitespace s)).

(** The phone rule with both shapes read after stripping white space. *)
Definition phone_rule_stripped (s : jsstring) : bool :=
  JsString.truthy s
  && (phone_rule_a (strip_whitespace s) || phone_rule_b (strip_whitespace s)).

End Spec.

(** * Properties *)

(** ** The phone regular expression *)

Section RepeatOverClass.

Variable cls : list class_atom.

(** A quantified class {min,max} run from [x] with continuation [c]
    succeeds exactly when some admissible number of leading code units are
    all in the class and [c] accepts what is left. *)
Lemma repeat_class (fuel : nat) :
  forall (min : nat) (max : option nat) (x : mstate) (c : continuation),
    (min + length (rest x) < fuel)%nat ->
    (forall m, max = Some m -> (min <= m)%nat) ->
    repeatMatcher (compile (CharClass cls)) fuel min max x c = true <->
    exists n : nat,
      (min <= n)%nat /\ (forall m, max = Some m -> (n <= m)%nat) /\
      (n <= length (rest x))%nat /\
      forallb (class_matches cls) (take n (rest x)) = true /\
      c {| endIndex := endIndex x + n; rest := drop n (rest x) |} = true.
Proof.
  induction fuel as [|fuel IH]; intros min max x c Hfuel Hmax; [lia|].
  destruct x as [i s].
  assert (Hzero : c {| endIndex := i; rest := s |} = true <->
            c {| endIndex := i + 0; rest := drop 0 s |} = true)
    by (rewrite Nat.add_0_r, drop_0; tauto).
  destruct (decide (max = Some 0%nat)) as [->|Hne].
  - (* max = 0: the continuation is called at once *)
    pose proof (Hmax _ eq_refl) as Hm.
    assert (min = 0%nat) as -> by lia.
    simpl. split.
    + intros Hc. exists 0%nat. simpl.
      repeat split; try lia; try (now apply Hzero).
    + intros (n & _ & Hn & _ & _ & Hc).
      specialize (Hn _ eq_refl). assert (n = 0%nat) as -> by lia.
      now apply Hzero.
  - assert (Hstep :
      repeatMatcher (compile (CharClass cls)) (S fuel) min max
        {| endIndex := i; rest := s |} c =
      let d := fun y : mstate =>
        if Nat.eqb min 0 && Nat.eqb (endIndex y) i then false
        else repeatMatcher (compile (CharClass cls)) fuel (Nat.pred min)
               (option_map Nat.pred max) y c in
      if Nat.eqb min 0
      then compile (CharClass cls) {| endIndex := i; rest := s |} d
           || c {| endIndex := i; rest := s |}
      else compile (CharClass cls) {| endIndex := i; rest := s |} d).
    { destruct max as [[|m]|]; [congruence|reflexivity|reflexivity]. }
    rewrite Hstep; clear Hstep. cbv zeta.
    assert (Hmax' : forall m, option_map Nat.pred max = Some m ->
                      (Nat.pred min <= m)%nat).
    { intros m Hm. destruct max as [k|]; simpl in Hm; [|discriminate].
      injection Hm as <-. specialize (Hmax _ eq_refl). lia. }
    (* one more iteration: the head is in the class, the tail goes on *)
    assert (Hiter : forall ch tl, s = ch :: tl ->
      (compile (CharClass cls) {| endIndex := i; rest := s |}
         (fun y : mstate =>
            if Nat.eqb min 0 && Nat.eqb (endIndex y) i then false
            else repeatMatcher (compile (CharClass cls)) fuel (Nat.pred min)
                   (option_map Nat.pred max) y c) = true <->
       class_matches cls ch = true /\
       exists n : nat,
         (Nat.pred min <= n)%nat /\
         (forall m, option_map Nat.pred max = Some m -> (n <= m)%nat) /\
         (n <= length tl)%nat /\
         forallb (class_matches cls) (take n tl) = true /\
         c {| endIndex := S i + n; rest := drop n tl |} = true)).
    { intros ch tl ->. cbn [compile rest endIndex].
      destruct (class_matches cls ch) eqn:Hch.
      - replace (Nat.eqb (S i) i) with false
          by (symmetry; apply Nat.eqb_neq; lia).
        rewrite andb_false_r.
        rewrite (IH (Nat.pred min) (option_map Nat.pred max)
                   {| endIndex := S i; rest := tl |} c);
          [cbn [rest endIndex]; tauto | simpl in *; lia | exact Hmax'].
      - split; [discriminate | intros [? _]; discriminate]. }
    assert (Hcons : forall ch tl, s = ch :: tl ->
      (class_matches cls ch = true /\
       exists n : nat,
         (Nat.pred min <= n)%nat /\
         (forall m, option_map Nat.pred max = Some m -> (n <= m)%nat) /\
         (n <= length tl)%nat /\
         forallb (class_matches cls) (take n tl) = true /\
         c {| endIndex := S i + n; rest := drop n tl |} = true) <->
      exists n : nat,
        (1 <= n)%nat /\ (min <= n)%nat /\
        (forall m, max = Some m -> (n <= m)%nat) /\
        (n <= length s)%nat /\
        forallb (class_matches cls) (take n s) = true /\
        c {| endIndex := i + n; rest := drop n s |} = true).
    { intros ch tl ->. split.
      - intros (Hch & n & Hmin & Hmx & Hlen & Hall & Hc).
        exists (S n). simpl. rewrite Hch, Hall.
        replace (i + S n)%nat with (S i + n)%nat by lia.
        repeat split; try lia; try exact Hc.
        intros m ->. specialize (Hmx _ eq_refl). destruct m; [congruence|]. simpl in Hmx. lia.
      - intros (n & H1 & Hmin & Hmx & Hlen & Hall & Hc).
        destruct n as [|n]; [lia|]. simpl in Hall, Hc, Hlen.
        apply andb_true_iff in Hall as [Hch Hall].
        split; [exact Hch|]. exists n.
        replace (S i + n)%nat with (i + S n)%nat by lia.
        repeat split; try lia; try exact Hall; try exact Hc.
        intros m Hm. destruct max as [k|]; simpl in Hm; [|discriminate].
        injection Hm as <-. specialize (Hmx _ eq_refl). lia. }
    destruct (Nat.eqb min 0) eqn:Hmin0.
    + apply Nat.eqb_eq in Hmin0. subst min.
      rewrite orb_true_iff. destruct s as [|ch tl].
      * simpl. split.
        -- intros [H|H]; [discriminate|]. exists 0%nat. simpl.
           repeat split; try lia; try (now apply Hzero).
        -- intros (n & _ & _ & Hlen & _ & Hc). simpl in Hlen.
           assert (n = 0%nat) as -> by lia. right. now apply Hzero.
      * rewrite (Hiter ch tl eq_refl), (Hcons ch tl eq_refl). split.
        -- intros [(n & ? & ? & ? & ? & ? & ?)|Hc].
           ++ exists n. repeat split; auto.
           ++ exists 0%nat. simpl.
              repeat split; try lia; try (now apply Hzero).
        -- intros (n & ? & Hmx & ? & Hall & Hc).
           destruct n as [|n].
           ++ right. now apply Hzero.
           ++ left. exists (S n). repeat split; auto; lia.
    + apply Nat.eqb_neq in Hmin0. destruct s as [|ch tl].
      * simpl. split; [discriminate|].
        intros (n & ? & _ & Hlen & _). simpl in Hlen. lia.
      * rewrite (Hiter ch tl eq_refl), (Hcons ch tl eq_refl). split.
        -- intros (n & ? & ? & ? & ? & ? & ?). exists n. repeat split; auto.
        -- intros (n & ? & ? & ? & ? & ?). exists n. repeat split; auto; lia.
Qed.

End RepeatOverClass.


(** Both alternatives of the phone expression start with [^]: no match
    starts after index 0. *)
Lemma phone_anchored (s : jsstring) (i : nat) (c : continuation) :
  i <> 0%nat -> compile phoneRegex {| endIndex := i; rest := s |} c = false.
Proof.
  intros Hi. unfold phoneRegex. cbn [compile endIndex].
  replace (Nat.eqb i 0) with false by (symmetry; apply Nat.eqb_neq; exact Hi).
  reflexivity.
Qed.

Lemma phone_exec_later (s : jsstring) (i : nat) :
  i <> 0%nat -> exec_from phoneRegex i s = false.
Proof.
  revert i. induction s as [|ch0 tl IH]; intros i Hi; cbn [exec_from].
  - rewrite phone_anchored by exact Hi. reflexivity.
  - rewrite phone_anchored by exact Hi. rewrite IH by lia. reflexivity.
Qed.

Lemma phone_test_at_start (s : jsstring) :
  test phoneRegex s = compile phoneRegex {| endIndex := 0; rest := s |} (fun _ => true).
Proof.
  unfold test. destruct s as [|ch0 tl]; cbn [exec_from].
  - apply orb_false_r.
  - rewrite phone_exec_later by lia. apply orb_false_r.
Qed.

(** A quantified class that must reach the end of the input. *)
Lemma quant_class_to_end (cls : list class_atom) (min : nat) (max : option nat)
    (i : nat) (s : jsstring) :
  (forall m, max = Some m -> (min <= m)%nat) ->
  compile (Seq (Quant (CharClass cls) min max) AssertEnd)
    {| endIndex := i; rest := s |} (fun _ => true) = true <->
  (min <= length s)%nat /\ (forall m, max = Some m -> (length s <= m)%nat) /\
  forallb (class_matches cls) s = true.
Proof.
  intros Hmax.
  change (compile (Seq (Quant (CharClass cls) min max) AssertEnd)
            {| endIndex := i; rest := s |} (fun _ => true))
    with (repeatMatcher (compile (CharClass cls)) (S (min + length s)) min max
            {| endIndex := i; rest := s |}
            (fun y => compile AssertEnd y (fun _ => true))).
  rewrite repeat_class by (cbn [rest]; first [lia | exact Hmax]).
  cbn [compile rest endIndex]. split.
  - intros (n & Hmin & Hmx & Hlen & Hall & Hend).
    destruct (drop n s) as [|x xs] eqn:Hdrop; [|discriminate].
    assert (n = length s) as ->.
    { apply (f_equal length) in Hdrop. rewrite length_drop in Hdrop.
      simpl in Hdrop. lia. }
    rewrite firstn_all in Hall. auto.
  - intros (Hmin & Hmx & Hall). exists (length s).
    rewrite firstn_all, drop_all. auto.
Qed.

Lemma quant_class_to_end_bool (cls : list class_atom) (min : nat) (max : option nat)
    (i : nat) (s : jsstring) :
  (forall m, max = Some m -> (min <= m)%nat) ->
  compile (Seq (Quant (CharClass cls) min max) AssertEnd)
    {| endIndex := i; rest := s |} (fun _ => true) =
  Nat.leb min (length s)
  && match max with Some m => Nat.leb (length s) m | None => true end
  && forallb (class_matches cls) s.
Proof.
  intros Hmax. apply eq_true_iff_eq.
  rewrite quant_class_to_end by exact Hmax.
  rewrite !andb_true_iff, Nat.leb_le. split.
  - intros (H1 & H2 & H3). repeat split; auto.
    destruct max as [m|]; [apply Nat.leb_le; auto | reflexivity].
  - intros ((H1 & H2) & H3). repeat split; auto.
    intros m ->. now apply Nat.leb_le.
Qed.

Definition first_alternative_tail : pattern :=
  Seq (CharClass [Range (ch "1") (ch "9")])
    (Seq (Quant (CharClass [ClassDigit]) 0 (Some 15%nat)) AssertEnd).

Lemma first_alternative_tail_bool (i : nat) (s : jsstring) :
  compile first_alternative_tail {| endIndex := i; rest := s |} (fun _ => true) =
  match s with
  | d :: ds =>
      ((ch "1" <=? d)%N && (d <=? ch "9")%N)
      && forallb isDigit ds && Nat.leb (length ds) 15
  | [] => false
  end.
Proof.
  destruct s as [|d ds]; [reflexivity|].
  unfold first_alternative_tail.
  change (compile (Seq (CharClass [Range (ch "1") (ch "9")])
                     (Seq (Quant (CharClass [ClassDigit]) 0 (Some 15%nat)) AssertEnd))
            {| endIndex := i; rest := d :: ds |} (fun _ => true))
    with (if class_matches [Range (ch "1") (ch "9")] d
          then compile (Seq (Quant (CharClass [ClassDigit]) 0 (Some 15%nat)) AssertEnd)
                 {| endIndex := S i; rest := ds |} (fun _ => true)
          else false).
  rewrite quant_class_to_end_bool by (intros m [= <-]; lia).
  unfold class_matches at 1. cbn [existsb atom_matches]. rewrite orb_false_r.
  destruct ((ch "1" <=? d)%N && (d <=? ch "9")%N); [|reflexivity].
  cbn [Nat.leb andb].
  replace (forallb (class_matches [ClassDigit]) ds) with (forallb isDigit ds).
  - apply andb_comm.
  - clear. induction ds as [|c ds IH]; [reflexivity|].
    cbn [forallb]. rewrite IH. unfold class_matches. cbn [existsb atom_matches].
    now rewrite orb_false_r.
Qed.

(** The first alternative, [^[\+]?[1-9][\d]{0,15}$], is rule (a). *)
Lemma first_alternative_is_rule_a (t : jsstring) :
  compile (Seq AssertStart (Seq (Quant (CharClass [One (ch "+")]) 0 (Some 1%nat))
                              first_alternative_tail))
    {| endIndex := 0; rest := t |} (fun _ => true) = Spec.phone_rule_a t.
Proof.
  change (compile (Seq AssertStart (Seq (Quant (CharClass [One (ch "+")]) 0 (Some 1%nat))
                              first_alternative_tail))
            {| endIndex := 0; rest := t |} (fun _ => true))
    with (repeatMatcher (compile (CharClass [One (ch "+")])) (S (0 + length t)) 0
            (Some 1%nat) {| endIndex := 0; rest := t |}
            (fun y => compile first_alternative_tail y (fun _ => true))).
  apply eq_true_iff_eq.
  rewrite repeat_class by (cbn [rest]; first [lia | intros m [= <-]; lia]).
  cbn [rest endIndex]. unfold Spec.phone_rule_a. split.
  - intros (n & _ & Hmax & Hlen & Hall & Htail).
    specialize (Hmax _ eq_refl).
    rewrite first_alternative_tail_bool in Htail.
    destruct n as [|[|n]]; [| |lia].
    + rewrite drop_0 in Htail. destruct t as [|c tl]; [discriminate|].
      destruct (c =? ch "+")%N eqn:Hc; [|exact Htail].
      apply N.eqb_eq in Hc. subst c. discriminate.
    + destruct t as [|c tl]; [simpl in Hlen; lia|].
      unfold class_matches in Hall.
      cbn [take firstn forallb existsb atom_matches] in Hall.
      rewrite orb_false_r, andb_true_r in Hall.
      rewrite Hall. exact Htail.
  - intros Ha. destruct t as [|c tl]; [discriminate|].
    destruct (c =? ch "+")%N eqn:Hc.
    + exists 1%nat. rewrite first_alternative_tail_bool.
      cbn [take drop forallb length]. unfold class_matches. cbn [existsb atom_matches].
      rewrite Hc. repeat split; try lia; auto; try (intros m [= <-]; lia).
    + exists 0%nat. rewrite first_alternative_tail_bool, drop_0.
      cbn [take forallb length]. repeat split; try lia; auto; try (intros m [= <-]; lia).
Qed.

(** The second alternative, [^[\(]?[\d\s\-\(\)]{10,}$], on a string without
    white space is rule (b). *)
Lemma second_alternative_is_rule_b (t : jsstring) :
  forallb (fun c => negb (isWhiteSpace c)) t = true ->
  compile (Seq AssertStart
            (Seq (Quant (CharClass [One (ch "(")]) 0 (Some 1%nat))
              (Seq (Quant (CharClass [ClassDigit; ClassSpace; One (ch "-");
                                      One (ch "("); One (ch ")")]) 10 None)
                AssertEnd)))
    {| endIndex := 0; rest := t |} (fun _ => true) = Spec.phone_rule_b t.
Proof.
  intros Hws.
  set (cls := [ClassDigit; ClassSpace; One (ch "-"); One (ch "("); One (ch ")")]).
  assert (Hcls : forall u, forallb (fun c => negb (isWhiteSpace c)) u = true ->
            forallb (class_matches cls) u =
            forallb (fun c => isDigit c || (c =? ch "(")%N || (c =? ch ")")%N
                              || (c =? ch "-")%N) u).
  { induction u as [|c u IH]; [reflexivity|]. cbn [forallb].
    intros [Hc Hu]%andb_true_iff. rewrite IH by exact Hu. f_equal.
    unfold class_matches, cls. cbn [existsb atom_matches].
    apply negb_true_iff in Hc. rewrite Hc.
    destruct (isDigit c), (c =? ch "-")%N, (c =? ch "(")%N, (c =? ch ")")%N;
      reflexivity. }
  change (compile (Seq AssertStart
            (Seq (Quant (CharClass [One (ch "(")]) 0 (Some 1%nat))
              (Seq (Quant (CharClass cls) 10 None) AssertEnd)))
            {| endIndex := 0; rest := t |} (fun _ => true))
    with (repeatMatcher (compile (CharClass [One (ch "(")])) (S (0 + length t)) 0
            (Some 1%nat) {| endIndex := 0; rest := t |}
            (fun y => compile (Seq (Quant (CharClass cls) 10 None) AssertEnd) y
                        (fun _ => true))).
  apply eq_true_iff_eq.
  rewrite repeat_class by (cbn [rest]; first [lia | intros m [= <-]; lia]).
  cbn [rest endIndex]. unfold Spec.phone_rule_b. rewrite <- (Hcls t Hws). split.
  - intros (n & _ & Hmax & Hlen & Hall & Htail).
    specialize (Hmax _ eq_refl).
    rewrite quant_class_to_end_bool in Htail by discriminate.
    rewrite andb_true_r in Htail.
    destruct n as [|[|n]]; [| |lia].
    + rewrite drop_0 in Htail. exact Htail.
    + destruct t as [|c tl]; [simpl in Hlen; lia|].
      cbn [drop] in Htail. rewrite drop_0 in Htail. cbn [take forallb] in Hall.
      rewrite andb_true_r in Hall.
      apply andb_true_iff in Htail as [Hl Hf].
      apply Nat.leb_le in Hl.
      apply andb_true_iff. split; [apply Nat.leb_le; simpl; lia|].
      cbn [forallb]. rewrite Hf, andb_true_r.
      unfold class_matches, cls in Hall |- *. cbn [existsb atom_matches] in Hall |- *.
      rewrite orb_false_r in Hall. rewrite Hall.
      destruct (isDigit c), (isWhiteSpace c), (c =? ch "-")%N; reflexivity.
  - intros Hb. exists 0%nat. rewrite drop_0.
    rewrite quant_class_to_end_bool by discriminate. rewrite andb_true_r.
    cbn [take forallb]. repeat split; try lia; auto; try (intros m [= <-]; lia).
Qed.

Lemma stripped_has_no_whitespace (s : jsstring) :
  forallb (fun c => negb (isWhiteSpace c)) (replace_whitespace_global s) = true.
Proof.
  unfold replace_whitespace_global. induction s as [|c s IH]; [reflexivity|].
  cbn [List.filter]. destruct (negb (isWhiteSpace c)) eqn:Hc; [|exact IH].
  cbn [forallb]. now rewrite Hc, IH.
Qed.

(** What the validator computes, in the specification's terms. *)
Lemma isValidPhoneNumber_rules (phone : jsstring) :
  isValidPhoneNumber phone =
  Spec.phone_rule_a (replace_whitespace_global phone)
  || Spec.phone_rule_b (replace_whitespace_global phone).
Proof.
  unfold isValidPhoneNumber. rewrite phone_test_at_start.
  rewrite <- first_alternative_is_rule_a.
  rewrite <- second_alternative_is_rule_b by apply stripped_has_no_whitespace.
  reflexivity.
Qed.

(** ** Claims about the phone validator *)

(** C6, as stated, fails: the input [1 2 3] is accepted by
    [isValidPhoneNumber], although it does not have shape (a) read on the
    input itself (it contains spaces) and, stripped of white space, is too
    short for shape (b). *)
Lemma C6_counterexample_spaced_digits :
  isValidPhoneNumber (js "1 2 3") = true /\
  Spec.phone_rule_as_stated (js "1 2 3") = false.
Proof. split; vm_compute; reflexivity. Qed.

(** C6, amended: for every input string, [isValidPhoneNumber] accepts it if
    and only if it is non-empty and, after white space is stripped, either
    (a) is an optional [+], a first digit 1-9 and up to 15 further digits
    with no other character, or (b) has at least 10 characters, all digits
    or one of [(], [)] and [-]. *)
Theorem C6_phone_accepts_iff_stripped_shape (phone : jsstring) :
  isValidPhoneNumber phone = true <-> Spec.phone_rule_stripped phone = true.
Proof.
  rewrite isValidPhoneNumber_rules. unfold Spec.phone_rule_stripped.
  change (Spec.strip_whitespace phone) with (replace_whitespace_global phone).
  destruct phone as [|c tl]; [|reflexivity].
  split; discriminate.
Qed.

(** C1, as stated, fails on ["123"]: the validator accepts it, and
    [validateForm] shows no error on the phone field for it. *)
Lemma C1_counterexample_123_accepted :
  isValidPhoneNumber (js "123") = true /\
  form_errors {| customerNameInput := js "Ann"; phoneNumberInput := js "123";
                 selectedBurger := Some (js "Classic Beef Burger");
                 quantitySelect := js "1"; specialInstructionsTextarea := js "";
                 now := js "2024-01-01T00:00:00.000Z" |} = [].
Proof. split; vm_compute; reflexivity. Qed.

(** C1, amended: [isValidPhoneNumber] returns true for ["+15551234567"],
    for ["(555) 123-4567"] and for ["123"], and false for [""]; whatever the
    other fields hold, [validateForm] fails with the phone field marked as
    required when the phone input is [""], and marks no error on the phone
    field when it is ["123"]. *)
Theorem C1_phone_examples :
  isValidPhoneNumber (js "+15551234567") = true /\
  isValidPhoneNumber (js "(555) 123-4567") = true /\
  isValidPhoneNumber (js "123") = true /\
  isValidPhoneNumber (js "") = false /\
  (forall name burger quantity instructions date,
     let f := {| customerNameInput := name; phoneNumberInput := js "";
                 selectedBurger := burger; quantitySelect := quantity;
                 specialInstructionsTextarea := instructions; now := date |} in
     In PhoneRequired (form_errors f) /\ validateForm f = false) /\
  (forall name burger quantity instructions date,
     let f := {| customerNameInput := name; phoneNumberInput := js "123";
                 selectedBurger := burger; quantitySelect := quantity;
                 specialInstructionsTextarea := instructions; now := date |} in
     ~ In PhoneRequired (form_errors f) /\ ~ In PhoneInvalid (form_errors f)).
Proof.
  repeat split; try (vm_compute; reflexivity).
  - unfold form_errors. cbn [phoneNumberInput].
    apply in_or_app. right. apply in_or_app. left. left. reflexivity.
  - unfold validateForm, form_errors. cbn [phoneNumberInput customerNameInput].
    destruct (JsString.truthy (trim name)); reflexivity.
  - unfold form_errors. cbn [phoneNumberInput customerNameInput selectedBurger].
    intros [H|H]%in_app_or.
    + destruct (JsString.truthy (trim name)); simpl in H; [tauto|]. destruct H; [discriminate|tauto].
    + apply in_app_or in H as [H|H].
      * vm_compute in H. tauto.
      * destruct burger; simpl in H; [tauto|]. destruct H; [discriminate|tauto].
  - unfold form_errors. cbn [phoneNumberInput customerNameInput selectedBurger].
    intros [H|H]%in_app_or.
    + destruct (JsString.truthy (trim name)); simpl in H; [tauto|]. destruct H; [discriminate|tauto].
    + apply in_app_or in H as [H|H].
      * vm_compute in H. tauto.
      * destruct burger; simpl in H; [tauto|]. destruct H; [discriminate|tauto].
Qed.

(** ** What each method does to the world *)

(** A write that is given up when [setItem] throws. *)
Definition try_set (st : localStorage) (key v : jsstring) : localStorage :=
  match setItem st key v with
  | Normal st' => st'
  | Throw _ => st
  end.

Lemma saveOrderCounterToStorage_eq (w : world) :
  saveOrderCounterToStorage w =
  (Normal tt,
   {| orders := orders w; orderCounter := orderCounter w;
      currentOrder := currentOrder w;
      confirmationActive := confirmationActive w;
      successActive := successActive w;
      storage := try_set (storage w) COUNTER_KEY (toString (orderCounter w)) |}).
Proof.
  unfold saveOrderCounterToStorage, try_catch, mbind, M_bind, read,
    localStorage_setItem, try_set, console_warn, skip, mret, M_ret.
  destruct w as [o c cur ca sa st]; cbn [storage orderCounter orders currentOrder
    confirmationActive successActive].
  destruct (setItem st COUNTER_KEY (toString c)); reflexivity.
Qed.

Lemma saveOrdersToStorage_eq (w : world) :
  saveOrdersToStorage w =
  (Normal tt,
   {| orders := orders w; orderCounter := orderCounter w;
      currentOrder := currentOrder w;
      confirmationActive := confirmationActive w;
      successActive := successActive w;
      storage := try_set (storage w) ORDERS_KEY
                   (match stringify (orders w) with
                    | Some text => text
                    | None => js "undefined"
                    end) |}).
Proof.
  unfold saveOrdersToStorage, try_catch, mbind, M_bind, read,
    localStorage_setItem, try_set, console_warn, skip, mret, M_ret.
  destruct w as [o c cur ca sa st]; cbn [storage orderCounter orders currentOrder
    confirmationActive successActive].
  destruct (setItem st ORDERS_KEY _); reflexivity.
Qed.

Lemma generateOrderId_eq (w : world) :
  generateOrderId w =
  (Normal (js "BC" ++ padStart (toString (add (orderCounter w) (of_Z 1))) 4 (ch "0")),
   {| orders := orders w; orderCounter := add (orderCounter w) (of_Z 1);
      currentOrder := currentOrder w;
      confirmationActive := confirmationActive w;
      successActive := successActive w;
      storage := try_set (storage w) COUNTER_KEY
                   (toString (add (orderCounter w) (of_Z 1))) |}).
Proof.
  unfold generateOrderId, mbind, M_bind, read, set_orderCounter.
  rewrite saveOrderCounterToStorage_eq. reflexivity.
Qed.

(** The order [collectFormData] builds for a form with a selected burger. *)
Definition built_order (f : form) (burger : jsstring) (id : jsstring) : order :=
  {| customerName := trim (customerNameInput f);
     phoneNumber := trim (phoneNumberInput f);
     hamburgerType := burger;
     quantity := parseInt (quantitySelect f);
     specialInstructions :=
       if JsString.truthy (trim (specialInstructionsTextarea f))
       then trim (specialInstructionsTextarea f) else js "None";
     unitPrice := getBurgerPrice burger;
     totalPrice := times_quantity (getBurgerPrice burger) (parseInt (quantitySelect f));
     status := js "Pending";
     orderDate := now f;
     orderId := id |}.

Lemma collectFormData_eq (f : form) (burger : jsstring) (w : world) :
  selectedBurger f = Some burger ->
  collectFormData f w =
  (Normal (built_order f burger
             (js "BC" ++ padStart (toString (add (orderCounter w) (of_Z 1))) 4 (ch "0"))),
   snd (generateOrderId w)).
Proof.
  intros Hb. unfold collectFormData. rewrite Hb.
  unfold mbind, M_bind. rewrite generateOrderId_eq. reflexivity.
Qed.

Lemma validateForm_selected (f : form) :
  validateForm f = true -> exists burger, selectedBurger f = Some burger.
Proof.
  unfold validateForm, form_errors. destruct (selectedBurger f) as [b|]; [eauto|].
  destruct (_ ++ _ ++ _) eqn:H; [|discriminate].
  apply app_eq_nil in H as [_ H]. apply app_eq_nil in H as [_ H]. discriminate.
Qed.

(** ** Prices *)

Lemma literal_12_99 : round_dec 1299 (-2) = of_prim 12.99%float.
Proof. vm_compute. reflexivity. Qed.

Lemma literal_38_97 : round_dec 3897 (-2) = of_prim 38.97%float.
Proof. vm_compute. reflexivity. Qed.

Lemma catalog_prices :
  getBurgerPrice (js "Classic Beef Burger") = VNum (of_prim 12.99%float) /\
  getBurgerPrice (js "Grilled Chicken Burger") = VNum (of_prim 11.99%float) /\
  getBurgerPrice (js "Plant-Based Veggie Burger") = VNum (of_prim 10.99%float) /\
  getBurgerPrice (js "Deluxe BBQ Burger") = VNum (of_prim 15.99%float).
Proof. repeat split; vm_compute; reflexivity. Qed.

(** A key that is neither in the catalog nor the name of a property that
    object literals inherit gets the default price. *)
Lemma getBurgerPrice_default (burgerType : jsstring) :
  own_property prices burgerType = None ->
  burgerType ∉ object_prototype_functions ->
  burgerType <> js "__proto__" ->
  getBurgerPrice burgerType = VNum (of_prim 12.99%float).
Proof.
  intros Hown Hfun Hproto. unfold getBurgerPrice, get_property.
  rewrite Hown, bool_decide_eq_false_2 by exact Hfun.
  rewrite bool_decide_eq_false_2 by exact Hproto.
  now rewrite literal_12_99.
Qed.

(** [getBurgerPrice] returns a Number, a built-in function or the bare
    [Object.prototype]: nothing else reaches the multiplication. *)
Lemma getBurgerPrice_cases (burgerType : jsstring) :
  (exists p, getBurgerPrice burgerType = VNum p /\ is_finite p = true) \/
  getBurgerPrice burgerType = VFunction burgerType \/
  getBurgerPrice burgerType = VObj [].
Proof.
  unfold getBurgerPrice, get_property, prices, own_property.
  repeat (case_bool_decide; [left; eexists; split; vm_compute; reflexivity|]).
  case_bool_decide; [right; left; reflexivity|].
  case_bool_decide; [right; right; reflexivity|].
  left; eexists; split; vm_compute; reflexivity.
Qed.

(** C9: the code evaluated where the claim fails.  For the input
    ["constructor"] the lookup [prices[burgerType]] finds the property that
    every object literal inherits from [Object.prototype], a function, which
    is truthy: [getBurgerPrice] returns that function and not the default
    price 12.99. *)
Theorem C9_inherited_property_is_returned :
  getBurgerPrice (js "constructor") = VFunction (js "constructor") /\
  getBurgerPrice (js "constructor") <> VNum (of_prim 12.99%float).
Proof. split; [vm_compute; reflexivity | discriminate]. Qed.

(** ** The built order *)

Lemma round_pos_not_nan (n d : Z) : round_pos n d <> NaN.
Proof. unfold round_pos. destruct (_ <? _); discriminate. Qed.

Lemma round_units_not_nan (n d : Z) : round_units n d <> NaN.
Proof.
  unfold round_units. destruct (n <? 0); [|apply round_pos_not_nan].
  pose proof (round_pos_not_nan (- n) d). destruct (round_pos (- n) d); simpl; congruence.
Qed.

Lemma strict_eqb_refl (x : number) : x <> NaN -> strict_eqb x x = true.
Proof.
  destruct x as [|s|k]; [congruence| |]; intros _; simpl.
  - now destruct s.
  - apply Z.eqb_refl.
Qed.

(** A form that passes validation: three Classic Beef Burgers. *)
Definition three_classic_burgers : form :=
  {| customerNameInput := js "Ann Lee";
     phoneNumberInput := js "(555) 123-4567";
     selectedBurger := Some (js "Classic Beef Burger");
     quantitySelect := js "3";
     specialInstructionsTextarea := js "";
     now := js "2024-05-01T12:00:00.000Z" |}.

(** C8: for every form that passes validation, [collectFormData] completes
    with an order whose [totalPrice] is the product [unitPrice * quantity]
    computed in binary64 arithmetic (and equal to it under [===] when the
    unit price and the quantity are finite Numbers); for the item "Classic
    Beef Burger" with quantity 3 the unit price is 12.99 and the total price
    is 38.97. *)
Theorem C8_total_is_unit_price_times_quantity (f : form) (w : world) :
  validateForm f = true ->
  exists o w',
    collectFormData f w = (Normal o, w') /\
    totalPrice o = times_quantity (unitPrice o) (quantity o) /\
    (forall p, unitPrice o = VNum p -> is_finite (quantity o) = true ->
       strict_eqb (totalPrice o) (mul p (quantity o)) = true) /\
    (selectedBurger f = Some (js "Classic Beef Burger") ->
     quantitySelect f = js "3" ->
     unitPrice o = VNum (of_prim 12.99%float) /\
     totalPrice o = of_prim 38.97%float).
Proof.
  intros Hvalid. destruct (validateForm_selected f Hvalid) as [burger Hb].
  eexists _, _. split; [apply collectFormData_eq; exact Hb|].
  cbn [totalPrice unitPrice quantity built_order].
  split; [reflexivity|]. split.
  - intros p Hp Hq. rewrite Hp. cbn [times_quantity].
    apply strict_eqb_refl.
    destruct (getBurgerPrice_cases burger) as [(p' & Hp' & Hfin)|[H|H]];
      [|congruence|congruence].
    assert (p' = p) as -> by congruence.
    destruct p as [| |a]; try discriminate.
    destruct (parseInt (quantitySelect f)) as [| |b]; try discriminate.
    apply round_units_not_nan.
  - intros Hclassic Hthree. rewrite Hclassic in Hb. injection Hb as <-.
    rewrite Hthree. split; vm_compute; reflexivity.
Qed.

(** C8 at a concrete form: three Classic Beef Burgers, first order of a
    fresh installation. *)
Lemma C8_witness_three_classic_burgers :
  exists o w',
    collectFormData three_classic_burgers (start empty_storage) = (Normal o, w') /\
    totalPrice o = times_quantity (unitPrice o) (quantity o) /\
    (forall p, unitPrice o = VNum p -> is_finite (quantity o) = true ->
       strict_eqb (totalPrice o) (mul p (quantity o)) = true) /\
    (selectedBurger three_classic_burgers = Some (js "Classic Beef Burger") ->
     quantitySelect three_classic_burgers = js "3" ->
     unitPrice o = VNum (of_prim 12.99%float) /\
     totalPrice o = of_prim 38.97%float).
Proof.
  apply (C8_total_is_unit_price_times_quantity three_classic_burgers
           (start empty_storage)).
  vm_compute. reflexivity.
Defined.

(** ** The workflow, event by event *)

Lemma step_submit_invalid (w : world) (f : form) :
  validateForm f = false -> step w (Submit f) = w.
Proof.
  intros H. unfold step, handle, handleFormSubmit. rewrite H. reflexivity.
Qed.

Lemma step_submit_valid (w : world) (f : form) (burger : jsstring) :
  validateForm f = true -> selectedBurger f = Some burger ->
  step w (Submit f) =
  {| orders := orders w;
     orderCounter := add (orderCounter w) (of_Z 1);
     currentOrder :=
       Some (built_order f burger
               (js "BC" ++ padStart (toString (add (orderCounter w) (of_Z 1))) 4 (ch "0")));
     confirmationActive := true;
     successActive := successActive w;
     storage := try_set (storage w) COUNTER_KEY
                  (toString (add (orderCounter w) (of_Z 1))) |}.
Proof.
  intros Hv Hb. unfold step, handle, handleFormSubmit. rewrite Hv. cbn [negb].
  unfold mbind, M_bind. rewrite (collectFormData_eq f burger w Hb).
  rewrite generateOrderId_eq. reflexivity.
Qed.

Lemma closeConfirmationModal_eq (w : world) :
  closeConfirmationModal w =
  (Normal tt,
   {| orders := orders w; orderCounter := orderCounter w; currentOrder := None;
      confirmationActive := false; successActive := successActive w;
      storage := storage w |}).
Proof. reflexivity. Qed.

(** The events that dismiss the confirmation modal: its close button, the
    edit button, a click on the backdrop and, while the modal is shown, the
    Escape key. *)
Definition dismisses (w : world) (ev : event) : Prop :=
  ev = ClickCloseModal \/ ev = ClickEditOrder \/ ev = ClickOutsideConfirmation \/
  (ev = KeyEscape /\ confirmationActive w = true).

Lemma step_dismiss (w : world) (ev : event) :
  dismisses w ev ->
  orders (step w ev) = orders w /\
  orderCounter (step w ev) = orderCounter w /\
  currentOrder (step w ev) = None /\
  confirmationActive (step w ev) = false /\
  storage (step w ev) = storage w.
Proof.
  intros [->|[->|[->|[-> Hactive]]]]; try (repeat split; reflexivity).
  unfold step, handle, mbind, M_bind, read, when. rewrite Hactive.
  rewrite closeConfirmationModal_eq. cbn [successActive].
  destruct (successActive w); repeat split; reflexivity.
Qed.

Lemma step_confirm_none (w : world) :
  currentOrder w = None -> step w ClickConfirmOrder = w.
Proof.
  intros H. unfold step, handle, confirmOrder, mbind, M_bind, read. rewrite H.
  reflexivity.
Qed.

Lemma step_confirm_draft (w : world) (d : order) (l : list value) :
  currentOrder w = Some d -> orders w = VArr l ->
  step w ClickConfirmOrder =
  {| orders := VArr (order_value d :: l);
     orderCounter := orderCounter w;
     currentOrder := None;
     confirmationActive := false;
     successActive := true;
     storage := try_set (storage w) ORDERS_KEY
                  (match stringify (VArr (order_value d :: l)) with
                   | Some text => text
                   | None => js "undefined"
                   end) |}.
Proof.
  intros Hd Ho. unfold step, handle, confirmOrder, mbind, M_bind, read.
  rewrite Hd. unfold orders_unshift, mbind, M_bind, read. rewrite Ho.
  unfold set_orders. rewrite saveOrdersToStorage_eq. reflexivity.
Qed.

(** [unshift] on something that is not an array throws before anything is
    assigned. *)
Lemma step_confirm_not_array (w : world) (d : order) :
  currentOrder w = Some d -> (forall l, orders w <> VArr l) ->
  step w ClickConfirmOrder = w.
Proof.
  intros Hd Ho. unfold step, handle, confirmOrder, mbind, M_bind, read.
  rewrite Hd. unfold orders_unshift, mbind, M_bind, read.
  destruct (orders w) eqn:E; try reflexivity. now destruct (Ho elements).
Qed.

(** A write leaves the other keys alone. *)
Lemma try_set_other_key (st : localStorage) (key other v : jsstring) :
  key <> other -> items (try_set st key v) !! other = items st !! other.
Proof.
  intros Hne. unfold try_set, setItem.
  destruct (blocked st); [reflexivity|].
  destruct (fits _ _); [|reflexivity].
  cbn [items]. now rewrite lookup_insert_ne.
Qed.

Lemma try_set_accepted (st : localStorage) (key v : jsstring) :
  blocked st = false -> fits (quota st) (<[key := v]> (items st)) = true ->
  items (try_set st key v) !! key = Some v.
Proof.
  intros Hb Hf. unfold try_set, setItem. rewrite Hb, Hf. cbn [items].
  apply lookup_insert_eq.
Qed.

Lemma keys_differ : COUNTER_KEY <> ORDERS_KEY.
Proof. discriminate. Qed.

(** ** Claims about the confirmation workflow *)

(** The world of a fresh installation after three Classic Beef Burgers were
    submitted: the confirmation modal is shown for the draft BC1001. *)
Definition awaiting_confirmation : world :=
  step (start empty_storage) (Submit three_classic_burgers).

Definition draft_BC1001 : order :=
  built_order three_classic_burgers (js "Classic Beef Burger") (js "BC1001").

(** C3: after a valid submit has built a draft, dismissing the confirmation
    (close button, edit button, click outside, Escape) leaves the order
    sequence and the persisted orders as they were before the submit, and
    clears the draft; the counter keeps the increment made when the order was
    built, in memory and in storage: the dismissal writes nothing, so the
    persisted counter stays what the submit left, which is the incremented
    value whenever the user agent accepted that write. *)
Theorem C3_cancel_appends_nothing_and_keeps_counter (w : world) (f : form) (ev : event) :
  validateForm f = true ->
  dismisses (step w (Submit f)) ev ->
  let w1 := step w (Submit f) in
  let w2 := step w1 ev in
  (exists d, currentOrder w1 = Some d) /\
  orders w2 = orders w /\
  items (storage w2) !! ORDERS_KEY = items (storage w) !! ORDERS_KEY /\
  currentOrder w2 = None /\
  orderCounter w2 = add (orderCounter w) (of_Z 1) /\
  storage w2 = storage w1 /\
  (blocked (storage w) = false ->
   fits (quota (storage w))
     (<[COUNTER_KEY := toString (add (orderCounter w) (of_Z 1))]> (items (storage w))) = true ->
   items (storage w2) !! COUNTER_KEY = Some (toString (add (orderCounter w) (of_Z 1)))).
Proof.
  intros Hvalid Hev w1 w2.
  destruct (validateForm_selected f Hvalid) as [burger Hb].
  destruct (step_dismiss w1 ev Hev) as (Ho & Hc & Hcur & _ & Hst).
  subst w2. rewrite Ho, Hc, Hcur, Hst. subst w1.
  rewrite (step_submit_valid w f burger Hvalid Hb).
  cbn [orders orderCounter currentOrder storage].
  repeat split; eauto.
  - apply try_set_other_key, keys_differ.
  - apply try_set_accepted.
Qed.

(** C3 at a concrete state: the first submit of a fresh installation, then
    the close button. *)
Lemma C3_witness_close_button :
  let w := start empty_storage in
  let w1 := step w (Submit three_classic_burgers) in
  let w2 := step w1 ClickCloseModal in
  (exists d, currentOrder w1 = Some d) /\
  orders w2 = orders w /\
  items (storage w2) !! ORDERS_KEY = items (storage w) !! ORDERS_KEY /\
  currentOrder w2 = None /\
  orderCounter w2 = add (orderCounter w) (of_Z 1) /\
  storage w2 = storage w1 /\
  (blocked (storage w) = false ->
   fits (quota (storage w))
     (<[COUNTER_KEY := toString (add (orderCounter w) (of_Z 1))]> (items (storage w))) = true ->
   items (storage w2) !! COUNTER_KEY = Some (toString (add (orderCounter w) (of_Z 1)))).
Proof.
  apply (C3_cancel_appends_nothing_and_keeps_counter (start empty_storage)
           three_classic_burgers ClickCloseModal).
  - vm_compute. reflexivity.
  - left. reflexivity.
Defined.

(** C4: with a draft outstanding, two confirms in a row append the draft to
    the order sequence once: the first puts it at the front and clears the
    draft, the second finds no draft and changes nothing, neither the order
    sequence nor persisted storage. *)
Theorem C4_second_confirm_is_a_no_op (w : world) (d : order) (l : list value) :
  currentOrder w = Some d ->
  orders w = VArr l ->
  let w1 := step w ClickConfirmOrder in
  let w2 := step w1 ClickConfirmOrder in
  orders w1 = VArr (order_value d :: l) /\
  currentOrder w1 = None /\
  orders w2 = VArr (order_value d :: l) /\
  storage w2 = storage w1 /\
  w2 = w1.
Proof.
  intros Hd Ho w1 w2.
  assert (Hw1 : currentOrder w1 = None /\ orders w1 = VArr (order_value d :: l)).
  { subst w1. rewrite (step_confirm_draft w d l Hd Ho). split; reflexivity. }
  destruct Hw1 as [Hcur Hord].
  assert (Hw2 : w2 = w1) by (subst w2; apply step_confirm_none; exact Hcur).
  rewrite Hw2. auto.
Qed.

(** C4 at a concrete state: the draft BC1001 of a fresh installation. *)
Lemma C4_witness_first_order :
  let w1 := step awaiting_confirmation ClickConfirmOrder in
  let w2 := step w1 ClickConfirmOrder in
  orders w1 = VArr (order_value draft_BC1001 :: []) /\
  currentOrder w1 = None /\
  orders w2 = VArr (order_value draft_BC1001 :: []) /\
  storage w2 = storage w1 /\
  w2 = w1.
Proof.
  apply (C4_second_confirm_is_a_no_op awaiting_confirmation draft_BC1001 []).
  - vm_compute. reflexivity.
  - vm_compute. reflexivity.
Defined.

(** ** Loading *)

(** What [loadOrdersFromStorage] returns over a given storage. *)
Definition loaded_orders (st : localStorage) : value :=
  match getItem st ORDERS_KEY with
  | Normal (Some text) =>
      if JsString.truthy text
      then match parse text with Normal v => v | Throw _ => VArr [] end
      else VArr []
  | Normal None | Throw _ => VArr []
  end.

(** What [loadOrderCounterFromStorage] returns over a given storage. *)
Definition loaded_counter (st : localStorage) : number :=
  match getItem st COUNTER_KEY with
  | Normal (Some text) => if JsString.truthy text then parseInt text else of_Z 1000
  | Normal None | Throw _ => of_Z 1000
  end.

Lemma loadOrdersFromStorage_eq (w : world) :
  loadOrdersFromStorage w = (Normal (loaded_orders (storage w)), w).
Proof.
  unfold loadOrdersFromStorage, loaded_orders, try_catch, mbind, M_bind,
    localStorage_getItem, JSON_parse, console_warn, skip, mret, M_ret.
  destruct (getItem (storage w) ORDERS_KEY) as [[text|]|e]; try reflexivity.
  destruct (JsString.truthy text); [|reflexivity].
  destruct (parse text); reflexivity.
Qed.

Lemma loadOrderCounterFromStorage_eq (w : world) :
  loadOrderCounterFromStorage w = (Normal (loaded_counter (storage w)), w).
Proof.
  unfold loadOrderCounterFromStorage, loaded_counter, try_catch, mbind, M_bind,
    localStorage_getItem, console_warn, skip, mret, M_ret.
  destruct (getItem (storage w) COUNTER_KEY) as [[text|]|e]; try reflexivity.
  destruct (JsString.truthy text); reflexivity.
Qed.

Lemma start_eq (st : localStorage) :
  start st =
  {| orders := loaded_orders st; orderCounter := loaded_counter st;
     currentOrder := None; confirmationActive := false; successActive := false;
     storage := st |}.
Proof.
  unfold start, construct, mbind, M_bind.
  rewrite loadOrdersFromStorage_eq. unfold set_orders at 1.
  rewrite loadOrderCounterFromStorage_eq. reflexivity.
Qed.

(** Neither loader ever throws to its caller. *)
Lemma loaders_complete_normally (w : world) :
  (exists v, fst (loadOrdersFromStorage w) = Normal v) /\
  (exists c, fst (loadOrderCounterFromStorage w) = Normal c).
Proof.
  rewrite loadOrdersFromStorage_eq, loadOrderCounterFromStorage_eq. eauto.
Qed.

(** ** Status of the orders *)

Lemma built_order_pending (f : form) (burger id : jsstring) :
  status (built_order f burger id) = js "Pending".
Proof. reflexivity. Qed.

(** A draft found after an event was there before or was just built, with
    status Pending. *)
Lemma step_draft (w : world) (ev : event) (d : order) :
  currentOrder (step w ev) = Some d ->
  currentOrder w = Some d \/ status d = js "Pending".
Proof.
  destruct ev as [f| | | | | | | |].
  - destruct (validateForm f) eqn:Hv.
    + destruct (validateForm_selected f Hv) as [burger Hb].
      rewrite (step_submit_valid w f burger Hv Hb). cbn [currentOrder].
      intros [= <-]. right. reflexivity.
    + rewrite (step_submit_invalid w f Hv). auto.
  - discriminate.
  - discriminate.
  - destruct (currentOrder w) as [d'|] eqn:Hd.
    + destruct (orders w) as [| | | |l| |] eqn:Ho;
        try (rewrite (step_confirm_not_array w d' Hd) by (rewrite Ho; discriminate);
             rewrite Hd; auto).
      rewrite (step_confirm_draft w d' l Hd Ho). discriminate.
    + rewrite (step_confirm_none w Hd). rewrite Hd. discriminate.
  - cbn. auto.
  - discriminate.
  - cbn. auto.
  - unfold step, handle, mbind, M_bind, read, when.
    destruct (confirmationActive w) eqn:Hca.
    + rewrite closeConfirmationModal_eq. cbn [successActive].
      destruct (successActive w); discriminate.
    + cbn. destruct (successActive w); cbn; auto.
  - unfold step, handle. cbn [snd]. rewrite start_eq. discriminate.
Qed.

(** The drafts that the confirm button appends in the course of the events,
    in the order of the events. *)
Fixpoint drafts_confirmed (w : world) (evs : list event) : list order :=
  match evs with
  | [] => []
  | ev :: later =>
      match ev, currentOrder w, orders w with
      | ClickConfirmOrder, Some d, VArr _ => [d]
      | _, _, _ => []
      end ++ drafts_confirmed (step w ev) later
  end.

(** Within a session an event leaves the order sequence alone or, for a
    confirm with a draft outstanding, puts that draft in front of it. *)
Lemma step_orders (w : world) (ev : event) (l : list value) :
  ev <> Reload -> orders w = VArr l ->
  orders (step w ev) =
  VArr (List.map order_value
          match ev, currentOrder w with
          | ClickConfirmOrder, Some d => [d]
          | _, _ => []
          end ++ l).
Proof.
  intros Hev Ho. destruct ev as [f| | | | | | | |]; try (cbn; exact Ho).
  - destruct (validateForm f) eqn:Hv.
    + destruct (validateForm_selected f Hv) as [burger Hb].
      rewrite (step_submit_valid w f burger Hv Hb). exact Ho.
    + rewrite (step_submit_invalid w f Hv). exact Ho.
  - destruct (currentOrder w) as [d|] eqn:Hd.
    + rewrite (step_confirm_draft w d l Hd Ho). reflexivity.
    + rewrite (step_confirm_none w Hd). exact Ho.
  - unfold step, handle, mbind, M_bind, read, when.
    destruct (confirmationActive w); [rewrite closeConfirmationModal_eq|];
      cbn; destruct (successActive w); cbn; exact Ho.
  - congruence.
Qed.

(** C10: in every run of the application from a state whose draft, if any,
    is Pending (such as the state after loading), every draft built and
    every order appended to the store has status "Pending", never
    "Confirmed"; and within a session the order sequence only grows at the
    front, by the confirmed drafts: the orders already in it stay as they
    are. *)
Theorem C10_status_is_always_pending (w : world) (evs : list event) :
  (forall d, currentOrder w = Some d -> status d = js "Pending") ->
  (forall d, currentOrder (run w evs) = Some d ->
     status d = js "Pending" /\ status d <> js "Confirmed") /\
  Forall (fun d => status d = js "Pending" /\ status d <> js "Confirmed")
    (drafts_confirmed w evs) /\
  (forall l, orders w = VArr l -> ~ In Reload evs ->
     orders (run w evs) =
     VArr (List.map order_value (rev (drafts_confirmed w evs)) ++ l)).
Proof.
  revert w. induction evs as [|ev evs IH]; intros w Hinv.
  - cbn. repeat split.
    + now apply Hinv.
    + rewrite (Hinv d H). discriminate.
    + constructor.
    + intros l Ho _. exact Ho.
  - assert (Hinv' : forall d, currentOrder (step w ev) = Some d ->
                      status d = js "Pending").
    { intros d Hd. destruct (step_draft w ev d Hd); auto. }
    destruct (IH (step w ev) Hinv') as (Hdraft & Hall & Hgrow).
    change (run w (ev :: evs)) with (run (step w ev) evs).
    cbn [drafts_confirmed]. split; [exact Hdraft|]. split.
    + apply Forall_app. split; [|exact Hall].
      clear IH Hinv' Hdraft Hall Hgrow. destruct ev; try constructor.
      destruct (currentOrder w) as [d|] eqn:Hd; [|constructor].
      destruct (orders w); constructor; try constructor.
      * exact (Hinv d eq_refl).
      * rewrite (Hinv d eq_refl). discriminate.
    + intros l Ho Hre.
      assert (Hev : ev <> Reload) by (intros ->; apply Hre; left; reflexivity).
      assert (Hre' : ~ In Reload evs) by (intros Hin; apply Hre; right; exact Hin).
      rewrite (Hgrow _ (step_orders w ev l Hev Ho) Hre').
      rewrite Ho. f_equal. rewrite rev_app_distr, map_app, <- app_assoc. f_equal.
      destruct ev; try reflexivity.
      destruct (currentOrder w); reflexivity.
Qed.

(** C10 in a concrete run of a fresh installation: submit, cancel, submit,
    confirm, confirm again. *)
Lemma C10_witness_session :
  let w := start empty_storage in
  let evs := [Submit three_classic_burgers; ClickEditOrder;
              Submit three_classic_burgers; ClickConfirmOrder; ClickConfirmOrder] in
  (forall d, currentOrder (run w evs) = Some d ->
     status d = js "Pending" /\ status d <> js "Confirmed") /\
  Forall (fun d => status d = js "Pending" /\ status d <> js "Confirmed")
    (drafts_confirmed w evs) /\
  (forall l, orders w = VArr l -> ~ In Reload evs ->
     orders (run w evs) =
     VArr (List.map order_value (rev (drafts_confirmed w evs)) ++ l)).
Proof.
  apply (C10_status_is_always_pending (start empty_storage)).
  intros d H. vm_compute in H. discriminate.
Defined.

(** ** Decimal digits *)

Lemma digits_le_enough (f1 : nat) :
  forall (f2 : nat) (z : Z),
    0 <= z -> z < 2 ^ Z.of_nat f1 -> z < 2 ^ Z.of_nat f2 ->
    (0 < f1)%nat -> (0 < f2)%nat ->
    digits_le f1 z = digits_le f2 z.
Proof.
  induction f1 as [|f1 IH]; intros f2 z Hz H1 H2 Hf1 Hf2; [lia|].
  destruct f2 as [|f2]; [lia|]. cbn [digits_le].
  destruct (z <? 10) eqn:Hlt; [reflexivity|].
  apply Z.ltb_ge in Hlt. f_equal.
  rewrite Nat2Z.inj_succ, Z.pow_succ_r in H1, H2 by lia.
  assert (Hq : 0 <= z / 10) by (apply Z.div_pos; lia).
  apply IH; try assumption.
  - apply Z.div_lt_upper_bound; lia.
  - apply Z.div_lt_upper_bound; lia.
  - destruct f1; [simpl in H1; lia | lia].
  - destruct f2; [simpl in H2; lia | lia].
Qed.

(** The digit values of z >= 0, most significant first. *)
Definition dvals (z : Z) : list Z :=
  rev (digits_le (S (Z.to_nat (Z.log2 z))) z).

Lemma digits_dvals (z : Z) : digits z = List.map digit_char (dvals z).
Proof. unfold digits, dvals. now rewrite map_rev. Qed.

Lemma dvals_small (z : Z) : z < 10 -> dvals z = [z].
Proof.
  intros Hz. unfold dvals. cbn [digits_le].
  apply Z.ltb_lt in Hz. now rewrite Hz.
Qed.

Lemma digits_le_S (f : nat) (z : Z) :
  digits_le (S f) z = if z <? 10 then [z] else (z mod 10) :: digits_le f (z / 10).
Proof. reflexivity. Qed.

Lemma dvals_large (z : Z) :
  10 <= z -> dvals z = dvals (z / 10) ++ [z mod 10].
Proof.
  intros Hz. unfold dvals. rewrite (digits_le_S _ z).
  replace (z <? 10) with false by (symmetry; apply Z.ltb_ge; exact Hz).
  cbn [rev]. f_equal. f_equal.
  assert (Hq : 0 < z / 10) by (apply Z.div_str_pos; lia).
  assert (Hlog : 3 <= Z.log2 z) by (apply (Z.log2_le_pow2 z 3); lia).
  pose proof (Z.log2_spec z ltac:(lia)) as [_ Hup].
  pose proof (Z.log2_spec (z / 10) Hq) as [_ Hup'].
  pose proof (Z.log2_nonneg (z / 10)).
  apply digits_le_enough; try lia.
  - rewrite Z2Nat.id by lia.
    apply Z.div_lt_upper_bound; [lia|].
    replace (Z.succ (Z.log2 z)) with (Z.log2 z + 1) in Hup by lia.
    rewrite Z.pow_add_r in Hup by lia. lia.
  - rewrite Nat2Z.inj_succ, Z2Nat.id by lia. exact Hup'.
Qed.

(** Induction over the decimal digits of a non-negative integer. *)
Lemma decimal_induction (P : Z -> Prop) :
  (forall z, 0 <= z < 10 -> P z) ->
  (forall z, 10 <= z -> P (z / 10) -> P z) ->
  forall z, 0 <= z -> P z.
Proof.
  intros Hsmall Hlarge z Hz. pattern z. apply Zlt_0_ind; [|exact Hz].
  clear z Hz. intros z IH Hz.
  destruct (Z_lt_ge_dec z 10) as [Hlt|Hge]; [apply Hsmall; lia|].
  apply Hlarge; [lia|]. apply IH. split.
  - apply Z.div_pos; lia.
  - apply Z.div_lt; lia.
Qed.

Lemma digits_value_snoc (radix : Z) (ds : list Z) (d : Z) :
  digits_value radix (ds ++ [d]) = digits_value radix ds * radix + d.
Proof. unfold digits_value. now rewrite fold_left_app. Qed.

Lemma digits_value_dvals (z : Z) : 0 <= z -> digits_value 10 (dvals z) = z.
Proof.
  revert z. apply decimal_induction.
  - intros z Hz. rewrite dvals_small by lia. cbn. lia.
  - intros z Hz IH. rewrite dvals_large by exact Hz.
    rewrite digits_value_snoc, IH.
    pose proof (Z.div_mod z 10 ltac:(lia)). lia.
Qed.

Lemma dvals_range (z : Z) : 0 <= z -> Forall (fun d => 0 <= d <= 9) (dvals z).
Proof.
  revert z. apply decimal_induction.
  - intros z Hz. rewrite dvals_small by lia. repeat constructor; lia.
  - intros z Hz IH. rewrite dvals_large by exact Hz.
    apply Forall_app. split; [exact IH|].
    pose proof (Z.mod_pos_bound z 10 ltac:(lia)). repeat constructor; lia.
Qed.

(** The first digit of a positive integer is not zero. *)
Lemma dvals_head (z : Z) :
  0 < z -> exists d tl, dvals z = d :: tl /\ 1 <= d <= 9.
Proof.
  intros Hz. assert (H0 : 0 <= z) by lia. revert z H0 Hz.
  apply (decimal_induction (fun z => 0 < z -> exists d tl, dvals z = d :: tl /\ 1 <= d <= 9)).
  - intros z Hz Hpos. rewrite dvals_small by lia. exists z, []. split; [reflexivity|lia].
  - intros z Hz IH _. rewrite dvals_large by exact Hz.
    destruct IH as (d & tl & Heq & Hd); [apply Z.div_str_pos; lia|].
    rewrite Heq. exists d, (tl ++ [z mod 10]). split; [reflexivity|exact Hd].
Qed.

Lemma dvals_length_pos (z : Z) : (0 < length (dvals z))%nat.
Proof.
  unfold dvals. rewrite length_rev. cbn [digits_le].
  destruct (z <? 10); simpl; lia.
Qed.

Lemma ndigits_dvals (z : Z) : ndigits z = Z.of_nat (length (dvals z)).
Proof. unfold ndigits. now rewrite digits_dvals, length_map. Qed.

Lemma ndigits_bounds (z : Z) :
  0 < z -> 10 ^ (ndigits z - 1) <= z < 10 ^ ndigits z.
Proof.
  intros Hz. assert (H0 : 0 <= z) by lia. revert z H0 Hz.
  apply (decimal_induction
           (fun z => 0 < z -> 10 ^ (ndigits z - 1) <= z < 10 ^ ndigits z)).
  - intros z Hz Hpos. rewrite ndigits_dvals, dvals_small by lia. cbn. lia.
  - intros z Hz IH _.
    assert (Hq : 0 < z / 10) by (apply Z.div_str_pos; lia).
    specialize (IH Hq). rewrite ndigits_dvals in *.
    rewrite dvals_large by exact Hz. rewrite length_app. cbn [length].
    rewrite Nat2Z.inj_add. change (Z.of_nat 1) with 1.
    pose proof (dvals_length_pos (z / 10)).
    replace (Z.of_nat (length (dvals (z / 10))) + 1 - 1)
      with (Z.succ (Z.of_nat (length (dvals (z / 10))) - 1)) by lia.
    replace (Z.of_nat (length (dvals (z / 10))) + 1)
      with (Z.succ (Z.of_nat (length (dvals (z / 10))))) by lia.
    rewrite !Z.pow_succ_r by lia.
    pose proof (Z.div_mod z 10 ltac:(lia)).
    pose proof (Z.mod_pos_bound z 10 ltac:(lia)). lia.
Qed.

Lemma dvals_mul_pow10 (s : Z) (e : nat) :
  0 < s -> dvals (s * 10 ^ Z.of_nat e) = dvals s ++ repeat 0 e.
Proof.
  intros Hs. induction e as [|e IH].
  - cbn [repeat]. rewrite app_nil_r. f_equal. simpl. lia.
  - rewrite Nat2Z.inj_succ, Z.pow_succ_r by lia.
    assert (Hp : 0 < 10 ^ Z.of_nat e) by (apply Z.pow_pos_nonneg; lia).
    rewrite dvals_large by nia.
    replace (s * (10 * 10 ^ Z.of_nat e)) with (s * 10 ^ Z.of_nat e * 10) by lia.
    rewrite Z.div_mul, Z.mod_mul by lia. rewrite IH.
    rewrite <- app_assoc. f_equal.
    change [0] with (repeat 0 1). rewrite <- repeat_app.
    f_equal. lia.
Qed.


(** ** Rounding *)

Lemma U_pos : 0 < U.
Proof. unfold U. apply Z.pow_pos_nonneg; [lia | unfold unit_exp; lia]. Qed.

Lemma pow2_pos (n : Z) : 0 <= n -> 0 < 2 ^ n.
Proof. intros. apply Z.pow_pos_nonneg; lia. Qed.

Lemma pow10_pos (n : Z) : 0 <= n -> 0 < 10 ^ n.
Proof. intros. apply Z.pow_pos_nonneg; lia. Qed.

Lemma rne_exact (q D : Z) : 0 < D -> rne (q * D) D = q.
Proof.
  intros HD. unfold rne. rewrite Z.div_mul, Z.mod_mul by lia.
  replace (2 * 0 ?= D) with Lt by (symmetry; apply Z.compare_lt_iff; lia).
  reflexivity.
Qed.

Lemma rne_scale (n D c : Z) : 0 < D -> 0 < c -> rne (n * c) (D * c) = rne n D.
Proof.
  intros HD Hc. unfold rne.
  rewrite Z.div_mul_cancel_r by lia.
  rewrite Z.mul_mod_distr_r by lia.
  replace (2 * (n mod D * c)) with (2 * (n mod D) * c) by lia.
  rewrite <- (Zmult_compare_compat_r (2 * (n mod D)) D c) by lia. reflexivity.
Qed.

Lemma round_pos_scale (n d c : Z) :
  0 < d -> 0 < c -> round_pos (n * c) (d * c) = round_pos n d.
Proof.
  intros Hd Hc. unfold round_pos.
  rewrite Z.div_mul_cancel_r by lia.
  set (sh := Z.max 0 (Z.log2 (n / d) - 52)).
  replace (d * c * 2 ^ sh) with (d * 2 ^ sh * c) by lia.
  rewrite rne_scale; [reflexivity| |exact Hc].
  apply Z.mul_pos_pos; [exact Hd|]. apply pow2_pos. lia.
Qed.

Lemma round_units_scale (n d c : Z) :
  0 < d -> 0 < c -> round_units (n * c) (d * c) = round_units n d.
Proof.
  intros Hd Hc. unfold round_units.
  replace (n * c <? 0) with (n <? 0).
  - replace (- (n * c)) with (- n * c) by lia.
    now rewrite !round_pos_scale by assumption.
  - destruct (Z.ltb_spec n 0), (Z.ltb_spec (n * c) 0); try reflexivity; nia.
Qed.

Lemma representable_neg (k : Z) : representable (- k) = representable k.
Proof. unfold representable. now rewrite Z.abs_opp. Qed.

Lemma representable_0 : representable 0 = true.
Proof. reflexivity. Qed.

Lemma round_pos_exact (k d : Z) :
  0 <= k -> representable k = true -> 0 < d -> round_pos (k * d) d = Fin k.
Proof.
  intros Hk Hrep Hd. unfold representable in Hrep.
  rewrite Z.abs_eq in Hrep by exact Hk.
  apply andb_true_iff in Hrep as [Hmod Hlt]. apply Z.eqb_eq in Hmod.
  unfold round_pos. rewrite Z.div_mul by lia.
  set (sh := Z.max 0 (Z.log2 k - 52)) in *.
  assert (Hsh : 0 < 2 ^ sh) by (apply pow2_pos; lia).
  assert (Hk' : k = k / 2 ^ sh * 2 ^ sh).
  { pose proof (Z.div_mod k (2 ^ sh) ltac:(lia)). lia. }
  replace (k * d) with (k / 2 ^ sh * (d * 2 ^ sh)) by (rewrite Hk' at 2; lia).
  rewrite rne_exact by (apply Z.mul_pos_pos; assumption).
  rewrite <- Hk', Hlt. reflexivity.
Qed.

Lemma round_units_exact (k d : Z) :
  representable k = true -> 0 < d -> round_units (k * d) d = Fin k.
Proof.
  intros Hrep Hd. unfold round_units.
  destruct (Z.ltb_spec (k * d) 0) as [Hneg|Hpos].
  - assert (k < 0) by nia.
    replace (- (k * d)) with (- k * d) by lia.
    rewrite round_pos_exact; [simpl; f_equal; lia | lia | | exact Hd].
    now rewrite representable_neg.
  - apply round_pos_exact; [nia | exact Hrep | exact Hd].
Qed.

Lemma representable_mul_pow2 (m j : Z) :
  0 < m < 2 ^ 53 -> 0 <= j -> m * 2 ^ j < overflow_threshold ->
  representable (m * 2 ^ j) = true.
Proof.
  intros Hm Hj Hlt. unfold representable.
  assert (Hp : 0 < 2 ^ j) by (apply pow2_pos; exact Hj).
  rewrite Z.abs_eq by nia.
  apply andb_true_iff. split; [|apply Z.ltb_lt; exact Hlt].
  apply Z.eqb_eq. rewrite Z.log2_mul_pow2 by lia.
  assert (Hlog : Z.log2 m < 53) by (apply Z.log2_lt_pow2; lia).
  set (sh := Z.max 0 (j + Z.log2 m - 52)).
  assert (Hsh : 0 <= sh <= j) by (unfold sh; lia).
  replace (2 ^ j) with (2 ^ (j - sh) * 2 ^ sh)
    by (rewrite <- Z.pow_add_r by lia; f_equal; lia).
  rewrite Z.mul_assoc. apply Z.mod_mul.
  pose proof (pow2_pos sh). lia.
Qed.

Lemma overflow_threshold_eq : overflow_threshold = 2 ^ 1024 * U.
Proof. reflexivity. Qed.

(** An integer of at most 53 bits is a Number. *)
Lemma representable_integer (z : Z) :
  Z.abs z < 2 ^ 53 -> representable (z * U) = true.
Proof.
  intros Hz. destruct (Z.eq_dec z 0) as [->|Hne]; [reflexivity|].
  rewrite <- representable_neg.
  destruct (Z.lt_ge_cases z 0) as [Hneg|Hpos].
  - replace (- (z * U)) with (- z * 2 ^ 1074) by (unfold U, unit_exp; lia).
    apply representable_mul_pow2; try lia.
    rewrite overflow_threshold_eq. unfold U, unit_exp.
    pose proof (pow2_pos 1074 ltac:(lia)). nia.
  - rewrite representable_neg.
    replace (z * U) with (z * 2 ^ 1074) by (unfold U, unit_exp; lia).
    apply representable_mul_pow2; try lia.
    rewrite overflow_threshold_eq. unfold U, unit_exp.
    pose proof (pow2_pos 1074 ltac:(lia)). nia.
Qed.

Lemma of_Z_exact (z : Z) : Z.abs z < 2 ^ 53 -> of_Z z = Fin (z * U).
Proof.
  intros Hz. unfold of_Z, round_q.
  replace (z * U) with (z * U * 1) at 1 by lia.
  apply round_units_exact; [apply representable_integer; exact Hz | lia].
Qed.

Lemma add_integers (a b : Z) :
  Z.abs a < 2 ^ 53 -> Z.abs b < 2 ^ 53 ->
  add (of_Z a) (of_Z b) = of_Z (a + b).
Proof.
  intros Ha Hb. rewrite (of_Z_exact a Ha), (of_Z_exact b Hb).
  unfold add, of_Z, round_q. f_equal. lia.
Qed.

Lemma of_Z_injective (a b : Z) :
  Z.abs a < 2 ^ 53 -> Z.abs b < 2 ^ 53 -> of_Z a = of_Z b -> a = b.
Proof.
  intros Ha Hb. rewrite (of_Z_exact a Ha), (of_Z_exact b Hb).
  intros [= H]. pose proof U_pos. nia.
Qed.

(** ** ToString of an integer Number *)

Lemma round_dec_integer (w j : Z) :
  0 <= j -> representable (w * 10 ^ j * U) = true ->
  round_dec w j = Fin (w * 10 ^ j * U).
Proof.
  intros Hj Hrep. unfold round_dec, round_q.
  replace (0 <=? j) with true by (symmetry; apply Z.leb_le; exact Hj).
  replace (w * 10 ^ j * U) with (w * 10 ^ j * U * 1) at 1 by lia.
  apply round_units_exact; [exact Hrep | lia].
Qed.

Lemma reads_back_integer (K w j : Z) :
  0 <= j -> representable (w * 10 ^ j * U) = true ->
  reads_back K w j = (w * 10 ^ j * U =? K).
Proof.
  intros Hj Hrep. unfold reads_back. now rewrite round_dec_integer.
Qed.

Lemma pow2_53_lt_pow10_16 : 2 ^ 53 < 10 ^ 16.
Proof. reflexivity. Qed.

Lemma ndigits_safe_integer (z : Z) : 1 <= z < 2 ^ 53 -> 1 <= ndigits z <= 16.
Proof.
  intros Hz. pose proof (ndigits_bounds z ltac:(lia)) as [Hlo Hhi].
  pose proof (dvals_length_pos z). rewrite ndigits_dvals in *.
  split; [lia|].
  destruct (Z_le_gt_dec (Z.of_nat (length (dvals z))) 16) as [|Hgt]; [assumption|].
  assert (10 ^ 16 <= 10 ^ (Z.of_nat (length (dvals z)) - 1))
    by (apply Z.pow_le_mono_r; lia).
  pose proof pow2_53_lt_pow10_16. lia.
Qed.

(** The decimal just above an integer below 2^53, at a coarser precision,
    is a Number of its own. *)
Lemma next_decimal_representable (z j : Z) :
  1 <= z < 2 ^ 53 -> 0 <= j -> 10 ^ j <= z ->
  representable ((z / 10 ^ j + 1) * 10 ^ j * U) = true.
Proof.
  intros Hz Hj Hle.
  assert (Hp : 0 < 10 ^ j) by (apply pow10_pos; exact Hj).
  pose proof (Z.div_mod z (10 ^ j) ltac:(lia)) as Hdm.
  pose proof (Z.mod_pos_bound z (10 ^ j) Hp) as Hmod.
  assert (Hq : 1 <= z / 10 ^ j) by (apply Z.div_le_lower_bound; lia).
  set (hi := z / 10 ^ j + 1) in *.
  assert (Hhi : hi * 10 ^ j <= 2 * z) by (unfold hi; nia).
  destruct (Z.eq_dec j 0) as [->|Hj0].
  - (* hi = z + 1 <= 2^53 *)
    change (10 ^ 0) with 1 in *. rewrite Z.mul_1_r.
    destruct (Z.eq_dec hi (2 ^ 53)) as [->|Hne]; [reflexivity|].
    apply representable_integer. unfold hi in *. rewrite Z.div_1_r in *. lia.
  - replace (hi * 10 ^ j * U) with (hi * 5 ^ j * 2 ^ (j + 1074)).
    + assert (H5 : 0 < 5 ^ j) by (apply Z.pow_pos_nonneg; lia).
      assert (H2 : 2 <= 2 ^ j).
      { change 2 with (2 ^ 1) at 1. apply Z.pow_le_mono_r; lia. }
      assert (H10 : 10 ^ j = 5 ^ j * 2 ^ j).
      { change 10 with (5 * 2). apply Z.pow_mul_l. }
      assert (Hm : hi * 5 ^ j < 2 ^ 53).
      { change (2 ^ 53) with 9007199254740992 in *. nia. }
      apply representable_mul_pow2; [unfold hi; nia | lia |].
      rewrite overflow_threshold_eq. unfold U, unit_exp.
      rewrite Z.pow_add_r by lia.
      pose proof (pow2_pos 1074 ltac:(lia)).
      assert (2 ^ j <= 2 ^ 54).
      { apply Z.pow_le_mono_r; [lia|].
        destruct (Z_le_gt_dec j 54); [assumption|].
        assert (10 ^ 55 <= 10 ^ j) by (apply Z.pow_le_mono_r; lia).
        change (10 ^ 55) with 10000000000000000000000000000000000000000000000000000000 in *.
        change (2 ^ 53) with 9007199254740992 in *. lia. }
      change (2 ^ 1024) with (2 ^ 54 * 2 ^ 53 * 2 ^ 917).
      pose proof (pow2_pos 917 ltac:(lia)).
      assert (hi * 5 ^ j * 2 ^ j < 2 ^ 53 * 2 ^ 54) by nia.
      nia.
    + unfold U, unit_exp. rewrite Z.pow_add_r by lia.
      change 10 with (5 * 2). rewrite Z.pow_mul_l. lia.
Qed.

Lemma candidate_integer (z p : Z) :
  1 <= z < 2 ^ 53 -> 1 <= p <= ndigits z ->
  candidate (z * U) (ndigits z) p =
  if z mod 10 ^ (ndigits z - p) =? 0
  then Some (z / 10 ^ (ndigits z - p), ndigits z - p)
  else None.
Proof.
  intros Hz Hp. unfold candidate. cbv zeta.
  set (j := ndigits z - p).
  assert (Hj : 0 <= j) by (unfold j; lia).
  replace (0 <=? j) with true by (symmetry; apply Z.leb_le; exact Hj).
  assert (H10 : 0 < 10 ^ j) by (apply pow10_pos; exact Hj).
  pose proof U_pos as HU.
  replace (z * U / (U * 10 ^ j)) with (z / 10 ^ j)
    by (rewrite (Z.mul_comm z U); now rewrite Z.div_mul_cancel_l by lia).
  replace ((z * U) mod (U * 10 ^ j)) with (U * (z mod 10 ^ j))
    by (rewrite (Z.mul_comm z U); now rewrite Z.mul_mod_distr_l by lia).
  pose proof (Z.div_mod z (10 ^ j) ltac:(lia)) as Hdm.
  pose proof (Z.mod_pos_bound z (10 ^ j) H10) as Hmod.
  assert (Hlo0 : 0 <= z / 10 ^ j) by (apply Z.div_pos; lia).
  (* the decimal below *)
  rewrite (reads_back_integer (z * U) (z / 10 ^ j) j Hj)
    by (apply representable_integer; rewrite Z.abs_eq by nia; nia).
  (* the decimal above *)
  assert (Hpow : 10 ^ j <= z).
  { pose proof (ndigits_bounds z ltac:(lia)) as [Hlow _].
    transitivity (10 ^ (ndigits z - 1)); [|exact Hlow].
    apply Z.pow_le_mono_r; unfold j; lia. }
  rewrite (reads_back_integer (z * U) (z / 10 ^ j + 1) j Hj)
    by (apply next_decimal_representable; assumption).
  replace ((z / 10 ^ j + 1) * 10 ^ j * U =? z * U) with false
    by (symmetry; apply Z.eqb_neq; nia).
  destruct (Z.eqb_spec (z mod 10 ^ j) 0) as [H0|Hne].
  - replace (z / 10 ^ j * 10 ^ j * U =? z * U) with true
      by (symmetry; apply Z.eqb_eq; nia).
    rewrite H0, !Z.mul_0_r.
    replace (0 ?= U * 10 ^ j) with Lt
      by (symmetry; apply Z.compare_lt_iff; nia).
    reflexivity.
  - replace (z / 10 ^ j * 10 ^ j * U =? z * U) with false
      by (symmetry; apply Z.eqb_neq; nia).
    reflexivity.
Qed.

Lemma shortest_from_integer (z : Z) :
  1 <= z < 2 ^ 53 ->
  forall (fuel : nat) (p : Z),
    1 <= p <= ndigits z -> ndigits z - p < Z.of_nat fuel ->
    exists s e, shortest_from fuel p (z * U) (ndigits z) = (s, e) /\
                0 < s /\ 0 <= e /\ s * 10 ^ e = z.
Proof.
  intros Hz fuel. induction fuel as [|fuel IH]; intros p Hp Hfuel; [lia|].
  cbn [shortest_from]. rewrite candidate_integer by assumption.
  set (j := ndigits z - p).
  assert (Hj : 0 <= j) by (unfold j; lia).
  assert (H10 : 0 < 10 ^ j) by (apply pow10_pos; exact Hj).
  pose proof (Z.div_mod z (10 ^ j) ltac:(lia)) as Hdm.
  destruct (Z.eqb_spec (z mod 10 ^ j) 0) as [H0|Hne].
  - exists (z / 10 ^ j), j. repeat split; try lia; nia.
  - assert (p < ndigits z).
    { destruct (Z.eq_dec p (ndigits z)) as [Heq|]; [|lia].
      exfalso. apply Hne. unfold j. rewrite Heq, Z.sub_diag. apply Z.mod_1_r. }
    apply IH; lia.
Qed.

Lemma dec_exponent_integer (z : Z) : 1 <= z -> dec_exponent (z * U) = ndigits z.
Proof.
  intros Hz. unfold dec_exponent. pose proof U_pos.
  replace (U <=? z * U) with true by (symmetry; apply Z.leb_le; nia).
  now rewrite Z.div_mul by lia.
Qed.

Lemma digit_char_0 : digit_char 0 = ch "0".
Proof. reflexivity. Qed.

Lemma digits_mul_pow10 (s e : Z) :
  0 < s -> 0 <= e -> digits (s * 10 ^ e) = digits s ++ zeros e.
Proof.
  intros Hs He. rewrite !digits_dvals.
  rewrite <- (Z2Nat.id e He) at 1. rewrite dvals_mul_pow10 by exact Hs.
  rewrite map_app. f_equal. unfold zeros.
  induction (Z.to_nat e) as [|n IH]; [reflexivity|].
  cbn [repeat List.map]. now rewrite IH.
Qed.

Lemma ndigits_mul_pow10 (s e : Z) :
  0 < s -> 0 <= e -> ndigits (s * 10 ^ e) = ndigits s + e.
Proof.
  intros Hs He. unfold ndigits. rewrite digits_mul_pow10 by assumption.
  rewrite length_app. unfold zeros. rewrite repeat_length. lia.
Qed.

Lemma format_decimal_integer (s e : Z) :
  0 < s -> 0 <= e -> ndigits s + e <= 21 ->
  format_decimal s e = digits (s * 10 ^ e).
Proof.
  intros Hs He Hn. unfold format_decimal. cbv zeta.
  replace ((ndigits s <=? e + ndigits s) && (e + ndigits s <=? 21)) with true.
  - rewrite digits_mul_pow10 by assumption. do 2 f_equal. lia.
  - symmetry. apply andb_true_iff. split; apply Z.leb_le; lia.
Qed.

(** [String(n)] for an integer n from 0 to 2^53 - 1 is its decimal
    representation. *)
Lemma toString_integer (z : Z) :
  0 <= z < 2 ^ 53 -> toString (of_Z z) = digits z.
Proof.
  intros Hz. rewrite of_Z_exact by (rewrite Z.abs_eq; lia).
  destruct (Z.eq_dec z 0) as [->|Hne]; [reflexivity|].
  pose proof U_pos. unfold toString.
  replace (z * U =? 0) with false by (symmetry; apply Z.eqb_neq; nia).
  replace (z * U <? 0) with false by (symmetry; apply Z.ltb_ge; nia).
  rewrite Z.abs_eq by nia. unfold shortest.
  rewrite dec_exponent_integer by lia.
  pose proof (ndigits_safe_integer z ltac:(lia)) as Hnd.
  destruct (shortest_from_integer z ltac:(lia) 17 1 ltac:(lia) ltac:(lia))
    as (s & e & Heq & Hs & He & Hval).
  rewrite Heq. cbn [app].
  rewrite format_decimal_integer; [now rewrite Hval | assumption | assumption |].
  rewrite <- ndigits_mul_pow10 by assumption. rewrite Hval. lia.
Qed.

(** ** [parseInt] of a decimal representation *)

Lemma digit_cases (d : Z) :
  0 <= d <= 9 ->
  d = 0 \/ d = 1 \/ d = 2 \/ d = 3 \/ d = 4 \/ d = 5 \/ d = 6 \/ d = 7 \/ d = 8 \/ d = 9.
Proof. lia. Qed.

Lemma digit_char_facts (d : Z) :
  0 <= d <= 9 ->
  digit_of 10 (digit_char d) = Some d /\
  isDigit (digit_char d) = true /\
  isWhiteSpace (digit_char d) = false /\
  (digit_char d =? ch "-")%N = false /\
  (digit_char d =? ch "+")%N = false /\
  (digit_char d =? ch "x")%N = false /\
  (digit_char d =? ch "X")%N = false.
Proof.
  intros Hd.
  destruct (digit_cases d Hd) as [->|[->|[->|[->|[->|[->|[->|[->|[->| ->]]]]]]]]];
    vm_compute; repeat split; reflexivity.
Qed.

Lemma leading_digits_app (l : list Z) (rest : jsstring) :
  Forall (fun d => 0 <= d <= 9) l ->
  leading_digits 10 (List.map digit_char l ++ rest) = l ++ leading_digits 10 rest.
Proof.
  induction 1 as [|d l Hd _ IH]; [reflexivity|].
  cbn [List.map app leading_digits].
  destruct (digit_char_facts d Hd) as (-> & _). now rewrite IH.
Qed.

Lemma leading_digits_digits (z : Z) :
  0 <= z -> leading_digits 10 (digits z) = dvals z.
Proof.
  intros Hz. rewrite digits_dvals.
  rewrite <- (app_nil_r (List.map digit_char (dvals z))).
  rewrite leading_digits_app by (apply dvals_range; exact Hz).
  apply app_nil_r.
Qed.

(** [parseInt] reads back the decimal representation of a non-negative
    integer. *)
Lemma parseInt_digits (z : Z) : 0 <= z -> parseInt (digits z) = of_Z z.
Proof.
  intros Hz. pose proof (dvals_range z Hz) as Hrange.
  pose proof (leading_digits_digits z Hz) as Hlead.
  pose proof (digits_value_dvals z Hz) as Hval.
  pose proof (dvals_length_pos z) as Hlen.
  rewrite digits_dvals in *.
  destruct (dvals z) as [|d tl] eqn:Hd; [simpl in Hlen; lia|].
  apply Forall_cons in Hrange as [Hd0 Htl].
  destruct (digit_char_facts d Hd0) as (_ & _ & Hws & Hminus & Hplus & _).
  unfold parseInt. cbn [List.map trimStart]. rewrite Hws. cbv zeta.
  rewrite Hminus, Hplus. cbn [orb].
  assert (Hhex : match digit_char d :: List.map digit_char tl with
                 | z0 :: x :: _ =>
                     ((z0 =? ch "0") && ((x =? ch "x") || (x =? ch "X")))%N
                 | _ => false
                 end = false).
  { destruct tl as [|d2 tl2]; [reflexivity|]. cbn [List.map].
    apply Forall_cons in Htl as [Hd2 _].
    destruct (digit_char_facts d2 Hd2) as (_ & _ & _ & _ & _ & -> & ->).
    apply andb_false_r. }
  rewrite Hhex. cbn [List.map] in Hlead. rewrite Hlead, Hval. reflexivity.
Qed.

(** ** Claims about the order counter *)

Lemma loaded_counter_absent (st : localStorage) :
  items st !! COUNTER_KEY = None -> loaded_counter st = of_Z 1000.
Proof.
  intros H. unfold loaded_counter, getItem. rewrite H.
  now destruct (blocked st).
Qed.

Lemma loaded_counter_blocked (st : localStorage) :
  blocked st = true -> loaded_counter st = of_Z 1000.
Proof. intros H. unfold loaded_counter, getItem. now rewrite H. Qed.

Lemma digits_truthy (z : Z) : JsString.truthy (digits z) = true.
Proof.
  rewrite digits_dvals. pose proof (dvals_length_pos z).
  destruct (dvals z); [simpl in *; lia | reflexivity].
Qed.

(** A counter that was saved, the decimal representation of a non-negative
    integer, is loaded as that integer. *)
Lemma loaded_counter_saved (st : localStorage) (z : Z) :
  blocked st = false -> 0 <= z -> items st !! COUNTER_KEY = Some (digits z) ->
  loaded_counter st = of_Z z.
Proof.
  intros Hb Hz H. unfold loaded_counter, getItem. rewrite Hb, H, digits_truthy.
  apply parseInt_digits. exact Hz.
Qed.

(** Storage whose counter entry is not a number. *)
Definition storage_with_corrupt_counter : localStorage :=
  {| items := {[ COUNTER_KEY := js "abc" ]}; quota := None; blocked := false |}.

(** C7: the code evaluated where the claim fails.  With the stored counter
    ["abc"], [loadOrderCounterFromStorage] completes normally, but with the
    value NaN ([parseInt] does not throw, so the handler that returns 1000 is
    not entered), and not with 1000. *)
Theorem C7_corrupt_counter_loads_as_NaN :
  loadOrderCounterFromStorage (page_load storage_with_corrupt_counter) =
  (Normal NaN, page_load storage_with_corrupt_counter) /\
  NaN <> of_Z 1000.
Proof.
  split; [vm_compute; reflexivity |].
  intros H. vm_compute in H. discriminate.
Qed.

(** What does hold of the counter loader: it never throws to its caller; it
    returns 1000 when the entry is absent, empty or unreadable; and it
    returns the stored integer when the entry is the decimal representation
    of a non-negative integer below 2^53. *)
Lemma counter_loader_sound_part (w : world) :
  (exists c, loadOrderCounterFromStorage w = (Normal c, w)) /\
  (items (storage w) !! COUNTER_KEY = None ->
   loadOrderCounterFromStorage w = (Normal (of_Z 1000), w)) /\
  (items (storage w) !! COUNTER_KEY = Some (js "") ->
   loadOrderCounterFromStorage w = (Normal (of_Z 1000), w)) /\
  (blocked (storage w) = true ->
   loadOrderCounterFromStorage w = (Normal (of_Z 1000), w)) /\
  (forall z, blocked (storage w) = false -> 0 <= z ->
     items (storage w) !! COUNTER_KEY = Some (digits z) ->
     loadOrderCounterFromStorage w = (Normal (of_Z z), w)).
Proof.
  rewrite loadOrderCounterFromStorage_eq. repeat split.
  - eauto.
  - intros H. now rewrite loaded_counter_absent.
  - intros H. unfold loaded_counter, getItem. rewrite H. now destruct (blocked _).
  - intros H. now rewrite loaded_counter_blocked.
  - intros z Hb Hz H. now rewrite (loaded_counter_saved _ z).
Qed.

(** The ids assigned in the course of the events: for each valid submit, the
    counter value that was formatted and the [orderId] of the order built. *)
Fixpoint ids_assigned (w : world) (evs : list event) : list (number * jsstring) :=
  match evs with
  | [] => []
  | ev :: later =>
      match ev with
      | Submit f =>
          if validateForm f then
            match currentOrder (step w ev) with
            | Some d => [(orderCounter (step w ev), orderId d)]
            | None => []
            end
          else []
      | _ => []
      end ++ ids_assigned (step w ev) later
  end.

(** A user agent that refuses every write (a quota of zero). *)
Definition storage_without_room : localStorage :=
  {| items := ∅; quota := Some 0%nat; blocked := false |}.

(** C2, as stated, fails when the counter cannot be written: the write
    error is swallowed, the reloaded page starts from 1000 again, and the id
    BC1001 is assigned a second time. *)
Lemma C2_counterexample_unwritten_counter :
  List.map snd (ids_assigned (start storage_without_room)
                  [Submit three_classic_burgers; Reload;
                   Submit three_classic_burgers]) =
  [js "BC1001"; js "BC1001"].
Proof. vm_compute. reflexivity. Qed.


(** *** The counter while writes succeed *)

Lemma try_set_blocked (st : localStorage) (key v : jsstring) :
  blocked (try_set st key v) = blocked st.
Proof.
  unfold try_set, setItem. destruct (blocked st) eqn:Hb; [exact Hb|].
  destruct (fits _ _); [reflexivity | exact Hb].
Qed.

Lemma try_set_quota (st : localStorage) (key v : jsstring) :
  quota (try_set st key v) = quota st.
Proof.
  unfold try_set, setItem. destruct (blocked st); [reflexivity|].
  destruct (fits _ _); reflexivity.
Qed.

Lemma try_set_unlimited (st : localStorage) (key v : jsstring) :
  blocked st = false -> quota st = None ->
  items (try_set st key v) = <[key := v]> (items st).
Proof.
  intros Hb Hq. unfold try_set, setItem. rewrite Hb, Hq. reflexivity.
Qed.

(** The persisted counter is absent, and then [c] is the default 1000, or
    it is the decimal representation of the non-negative integer [c]. *)
Definition persisted_counter_is (st : localStorage) (c : Z) : Prop :=
  (items st !! COUNTER_KEY = None /\ c = 1000) \/
  (items st !! COUNTER_KEY = Some (digits c) /\ 0 <= c).

(** The counter in memory and in storage agree on the integer [c], and the
    user agent accepts writes. *)
Definition counter_in_step (w : world) (c : Z) : Prop :=
  0 <= c /\ orderCounter w = of_Z c /\
  blocked (storage w) = false /\ quota (storage w) = None /\
  persisted_counter_is (storage w) c.

Lemma persisted_counter_nonneg (st : localStorage) (c : Z) :
  persisted_counter_is st c -> 0 <= c.
Proof. intros [[_ ->]|[_ H]]; lia. Qed.

Lemma start_counter_in_step (st : localStorage) (c : Z) :
  blocked st = false -> quota st = None -> persisted_counter_is st c ->
  counter_in_step (start st) c.
Proof.
  intros Hb Hq Hp. rewrite start_eq. unfold counter_in_step.
  cbn [orderCounter storage]. repeat split; try assumption.
  - eapply persisted_counter_nonneg; eassumption.
  - destruct Hp as [[Habs ->]|[Hsome Hc]].
    + now apply loaded_counter_absent.
    + now apply loaded_counter_saved.
Qed.

(** The entry logged for the sequence number [n]. *)
Definition id_entry (n : Z) : number * jsstring :=
  (of_Z n, js "BC" ++ padStart (digits n) 4 (ch "0")).

Lemma step_counter (w : world) (ev : event) (c : Z) :
  counter_in_step w c -> c + 1 < 2 ^ 53 ->
  (exists f, ev = Submit f /\ validateForm f = true /\
             counter_in_step (step w ev) (c + 1) /\
             ids_assigned w [ev] = [id_entry (c + 1)]) \/
  (counter_in_step (step w ev) c /\ ids_assigned w [ev] = []).
Proof.
  intros (Hc & Hmem & Hb & Hq & Hp) Hbound.
  assert (Hkeep : forall w', orderCounter w' = orderCounter w ->
            storage w' = storage w -> counter_in_step w' c).
  { intros w' H1 H2. unfold counter_in_step. rewrite H1, H2. auto. }
  destruct ev as [f| | | | | | | |]; cbn [ids_assigned app].
  - destruct (validateForm f) eqn:Hv.
    + left. exists f. split; [reflexivity|]. split; [exact Hv|].
      destruct (validateForm_selected f Hv) as [burger Hbur].
      rewrite (step_submit_valid w f burger Hv Hbur).
      cbn [currentOrder orderCounter storage orderId built_order].
      rewrite Hmem, add_integers by (rewrite Z.abs_eq; lia).
      rewrite toString_integer by lia.
      split; [|reflexivity].
      unfold counter_in_step. cbn [orderCounter storage].
      rewrite try_set_blocked, try_set_quota.
      repeat split; try assumption; try lia.
      right. split; [|lia].
      rewrite try_set_unlimited by assumption. apply lookup_insert_eq.
    + right. rewrite (step_submit_invalid w f Hv). split; [|reflexivity].
      now apply Hkeep.
  - right. split; [|reflexivity]. now apply Hkeep.
  - right. split; [|reflexivity]. now apply Hkeep.
  - right. split; [|reflexivity].
    destruct (currentOrder w) as [d|] eqn:Hd.
    + destruct (orders w) as [| | | |l| |] eqn:Ho;
        try (rewrite (step_confirm_not_array w d Hd) by (rewrite Ho; discriminate);
             now apply Hkeep).
      rewrite (step_confirm_draft w d l Hd Ho).
      unfold counter_in_step. cbn [orderCounter storage].
      rewrite try_set_blocked, try_set_quota.
      repeat split; try assumption.
      unfold persisted_counter_is.
      rewrite try_set_other_key by (intros H; symmetry in H; now apply keys_differ).
      exact Hp.
    + rewrite (step_confirm_none w Hd). now apply Hkeep.
  - right. split; [|reflexivity]. now apply Hkeep.
  - right. split; [|reflexivity]. now apply Hkeep.
  - right. split; [|reflexivity]. now apply Hkeep.
  - right. split; [|reflexivity].
    unfold step, handle, mbind, M_bind, read, when.
    destruct (confirmationActive w); [rewrite closeConfirmationModal_eq|];
      cbn; destruct (successActive w); cbn; now apply Hkeep.
  - right. split; [|reflexivity].
    unfold step, handle. cbn [snd]. now apply start_counter_in_step.
Qed.

Lemma ids_assigned_cons (w : world) (ev : event) (later : list event) :
  ids_assigned w (ev :: later) = ids_assigned w [ev] ++ ids_assigned (step w ev) later.
Proof. cbn [ids_assigned]. now rewrite app_nil_r. Qed.

Lemma ids_assigned_in_step (evs : list event) :
  forall (w : world) (c : Z),
    counter_in_step w c -> c + Z.of_nat (length evs) < 2 ^ 53 ->
    exists ns : list Z,
      ids_assigned w evs = List.map id_entry ns /\
      StronglySorted Z.lt ns /\
      Forall (fun n => c < n <= c + Z.of_nat (length evs)) ns.
Proof.
  induction evs as [|ev later IH]; intros w c Hinv Hbound.
  - exists []. repeat constructor.
  - cbn [length] in *. rewrite Nat2Z.inj_succ in *.
    rewrite ids_assigned_cons.
    destruct (step_counter w ev c Hinv ltac:(lia))
      as [(f & -> & Hv & Hinv' & Hlog)|[Hinv' Hlog]]; rewrite Hlog.
    + destruct (IH _ (c + 1) Hinv' ltac:(lia)) as (ns & Heq & Hsorted & Hall).
      exists ((c + 1) :: ns). rewrite Heq. split; [reflexivity|]. split.
      * constructor; [exact Hsorted|]. eapply Forall_impl; [exact Hall|].
        cbn. intros; lia.
      * constructor; [lia|]. eapply Forall_impl; [exact Hall|].
        cbn. intros; lia.
    + destruct (IH _ c Hinv' ltac:(lia)) as (ns & Heq & Hsorted & Hall).
      exists ns. rewrite Heq. repeat split; auto.
      eapply Forall_impl; [exact Hall|]. cbn. intros; lia.
Qed.

(** *** Distinct numbers give distinct ids *)

Fixpoint strip_zeros (s : jsstring) : jsstring :=
  match s with
  | c :: tl => if (c =? ch "0")%N then strip_zeros tl else s
  | [] => []
  end.

Lemma strip_zeros_padding (n : nat) (s : jsstring) :
  strip_zeros (repeat (ch "0") n ++ s) = strip_zeros s.
Proof. induction n as [|n IH]; [reflexivity | exact IH]. Qed.

Lemma strip_zeros_digits (z : Z) : 0 < z -> strip_zeros (digits z) = digits z.
Proof.
  intros Hz. rewrite digits_dvals.
  destruct (dvals_head z Hz) as (d & tl & -> & Hd).
  cbn [List.map strip_zeros].
  replace (digit_char d =? ch "0")%N with false; [reflexivity|].
  symmetry. apply N.eqb_neq. unfold digit_char. change (ch "0") with 48%N. lia.
Qed.

Lemma digits_injective (a b : Z) : 0 <= a -> 0 <= b -> digits a = digits b -> a = b.
Proof.
  intros Ha Hb H. apply (f_equal (leading_digits 10)) in H.
  rewrite !leading_digits_digits in H by assumption.
  apply (f_equal (digits_value 10)) in H.
  now rewrite !digits_value_dvals in H by assumption.
Qed.

Lemma id_injective (a b : Z) :
  0 < a -> 0 < b -> snd (id_entry a) = snd (id_entry b) -> a = b.
Proof.
  intros Ha Hb H. cbn [snd id_entry] in H. apply app_inv_head in H.
  unfold padStart in H. apply (f_equal strip_zeros) in H.
  rewrite !strip_zeros_padding, !strip_zeros_digits in H by assumption.
  apply digits_injective; [lia | lia | exact H].
Qed.

Lemma ids_distinct (ns : list Z) :
  StronglySorted Z.lt ns -> Forall (fun n => 0 < n) ns ->
  List.NoDup (List.map snd (List.map id_entry ns)).
Proof.
  induction 1 as [|a ns Hsorted IH Hlt]; intros Hpos; [constructor|].
  apply Forall_cons in Hpos as [Ha Hns]. cbn [List.map].
  constructor; [|now apply IH].
  intros Hin. apply in_map_iff in Hin as (e & He & Hin).
  apply in_map_iff in Hin as (b & <- & Hb).
  rewrite Forall_forall in Hlt, Hns.
  apply list_elem_of_In in Hb.
  specialize (Hlt b Hb). specialize (Hns b Hb).
  assert (b = a) by (apply id_injective; assumption). lia.
Qed.

Lemma ltb_integers (a b : Z) :
  Z.abs a < 2 ^ 53 -> Z.abs b < 2 ^ 53 -> ltb (of_Z a) (of_Z b) = (a <? b).
Proof.
  intros Ha Hb. rewrite (of_Z_exact a Ha), (of_Z_exact b Hb). cbn [ltb].
  pose proof U_pos.
  destruct (Z.ltb_spec a b), (Z.ltb_spec (a * U) (b * U)); try reflexivity; nia.
Qed.

Lemma entries_sorted (ns : list Z) :
  StronglySorted Z.lt ns -> Forall (fun n => Z.abs n < 2 ^ 53) ns ->
  StronglySorted (fun a b : number * jsstring => ltb (fst a) (fst b) = true)
    (List.map id_entry ns).
Proof.
  induction 1 as [|a ns Hsorted IH Hlt]; intros Hsafe; [constructor|].
  apply Forall_cons in Hsafe as [Ha Hns]. cbn [List.map].
  constructor; [now apply IH|].
  apply Forall_forall. intros e He.
  apply list_elem_of_In, in_map_iff in He as (b & <- & Hb).
  apply list_elem_of_In in Hb.
  rewrite Forall_forall in Hlt, Hns.
  specialize (Hlt b Hb). specialize (Hns b Hb).
  cbn [fst id_entry]. rewrite ltb_integers by assumption.
  apply Z.ltb_lt. exact Hlt.
Qed.

(** C2, amended: starting from a page load over a storage that accepts
    writes and whose persisted counter is absent or the decimal
    representation of a non-negative integer c0, in every sequence of events
    (reloads included) that keeps the counter below 2^53, the sequence
    numbers of the ids assigned are strictly increasing, each greater than
    every earlier one, and no [orderId] is assigned twice. *)
Theorem C2_ids_increase_while_writes_succeed
    (st : localStorage) (c0 : Z) (evs : list event) :
  blocked st = false -> quota st = None -> persisted_counter_is st c0 ->
  c0 + Z.of_nat (length evs) < 2 ^ 53 ->
  exists ns : list Z,
    ids_assigned (start st) evs = List.map id_entry ns /\
    StronglySorted Z.lt ns /\
    Forall (fun n => c0 < n) ns /\
    StronglySorted (fun a b : number * jsstring => ltb (fst a) (fst b) = true)
      (ids_assigned (start st) evs) /\
    List.NoDup (List.map snd (ids_assigned (start st) evs)).
Proof.
  intros Hb Hq Hp Hbound.
  pose proof (persisted_counter_nonneg st c0 Hp) as Hc0.
  destruct (ids_assigned_in_step evs (start st) c0
              (start_counter_in_step st c0 Hb Hq Hp) Hbound)
    as (ns & Heq & Hsorted & Hall).
  exists ns. rewrite Heq. repeat split; try assumption.
  - eapply Forall_impl; [exact Hall|]. cbn. intros; lia.
  - apply entries_sorted; [exact Hsorted|].
    eapply Forall_impl; [exact Hall|]. cbn. intros; lia.
  - apply ids_distinct; [exact Hsorted|].
    eapply Forall_impl; [exact Hall|]. cbn. intros; lia.
Qed.

(** C2 in a concrete run of a fresh installation: an order is submitted and
    cancelled, another is submitted and confirmed, the page is reloaded and a
    third is submitted. *)
Lemma C2_witness_fresh_installation :
  exists ns : list Z,
    ids_assigned (start empty_storage)
      [Submit three_classic_burgers; ClickCloseModal;
       Submit three_classic_burgers; ClickConfirmOrder; Reload;
       Submit three_classic_burgers] = List.map id_entry ns /\
    StronglySorted Z.lt ns /\
    Forall (fun n => 1000 < n) ns /\
    StronglySorted (fun a b : number * jsstring => ltb (fst a) (fst b) = true)
      (ids_assigned (start empty_storage)
         [Submit three_classic_burgers; ClickCloseModal;
          Submit three_classic_burgers; ClickConfirmOrder; Reload;
          Submit three_classic_burgers]) /\
    List.NoDup
      (List.map snd
         (ids_assigned (start empty_storage)
            [Submit three_classic_burgers; ClickCloseModal;
             Submit three_classic_burgers; ClickConfirmOrder; Reload;
             Submit three_classic_burgers])).
Proof.
  apply (C2_ids_increase_while_writes_succeed empty_storage 1000).
  - reflexivity.
  - reflexivity.
  - left. split; reflexivity.
  - vm_compute. reflexivity.
Defined.

(** ** Every rounded result is a binary64 value *)

Lemma rne_bounds (n D : Z) : 0 <= n -> 0 < D -> n / D <= rne n D <= n / D + 1.
Proof.
  intros Hn HD. unfold rne.
  destruct (2 * (n mod D) ?= D); [destruct (Z.even (n / D))| |]; lia.
Qed.

Lemma round_pos_binary64 (n d : Z) :
  0 <= n -> 0 < d -> is_binary64 (round_pos n d) = true.
Proof.
  intros Hn Hd. unfold round_pos.
  set (q0 := n / d). set (sh := Z.max 0 (Z.log2 q0 - 52)).
  assert (Hq0 : 0 <= q0) by (apply Z.div_pos; lia).
  assert (Hsh : 0 <= sh) by (unfold sh; lia).
  assert (H2 : 0 < 2 ^ sh) by (apply pow2_pos; exact Hsh).
  pose proof (rne_bounds n (d * 2 ^ sh) Hn ltac:(nia)) as [Hlo Hhi].
  rewrite <- Z.div_div in Hlo, Hhi by lia. fold q0 in Hlo, Hhi.
  assert (Hq : q0 / 2 ^ sh < 2 ^ 53).
  { apply Z.div_lt_upper_bound; [exact H2|].
    destruct (Z.eq_dec q0 0) as [->|Hne]; [nia|].
    pose proof (Z.log2_spec q0 ltac:(lia)) as [_ Hup].
    replace (Z.succ (Z.log2 q0)) with (Z.log2 q0 + 1) in Hup by lia.
    destruct (Z_le_gt_dec (Z.log2 q0) 52) as [Hsmall|Hbig].
    - assert (2 ^ (Z.log2 q0 + 1) <= 2 ^ 53) by (apply Z.pow_le_mono_r; lia).
      nia.
    - replace (2 ^ sh * 2 ^ 53) with (2 ^ (Z.log2 q0 + 1)); [exact Hup|].
      rewrite <- Z.pow_add_r by lia. f_equal. unfold sh. lia. }
  assert (Hq' : 0 <= q0 / 2 ^ sh) by (apply Z.div_pos; lia).
  set (r := rne n (d * 2 ^ sh)) in *.
  destruct (r * 2 ^ sh <? overflow_threshold) eqn:Hov; [|reflexivity].
  apply Z.ltb_lt in Hov. cbn [is_binary64].
  destruct (Z.eq_dec r 0) as [->|Hr0]; [reflexivity|].
  destruct (Z.eq_dec r (2 ^ 53)) as [Hr|Hr].
  - replace (r * 2 ^ sh) with (1 * 2 ^ (53 + sh)) in *
      by (rewrite Hr, Z.pow_add_r by lia; lia).
    apply representable_mul_pow2; [split; [lia|reflexivity] | lia | exact Hov].
  - apply representable_mul_pow2; [lia | exact Hsh | exact Hov].
Qed.

Lemma round_units_binary64 (n d : Z) : 0 < d -> is_binary64 (round_units n d) = true.
Proof.
  intros Hd. unfold round_units. destruct (Z.ltb_spec n 0) as [Hneg|Hpos].
  - pose proof (round_pos_binary64 (- n) d ltac:(lia) Hd) as H.
    destruct (round_pos (- n) d) as [| |k]; try reflexivity.
    cbn [neg is_binary64] in *. now rewrite representable_neg.
  - now apply round_pos_binary64.
Qed.

Lemma round_dec_binary64 (s e : Z) : is_binary64 (round_dec s e) = true.
Proof.
  unfold round_dec, round_q. destruct (0 <=? e) eqn:He.
  - apply round_units_binary64. lia.
  - apply round_units_binary64. apply pow10_pos. apply Z.leb_gt in He. lia.
Qed.

Lemma of_Z_binary64 (z : Z) : is_binary64 (of_Z z) = true.
Proof. unfold of_Z, round_q. apply round_units_binary64. lia. Qed.

Lemma mul_binary64 (x y : number) : is_binary64 (mul x y) = true.
Proof.
  destruct x as [|a|a], y as [|b|b]; try reflexivity; cbn [mul].
  - now destruct (b =? 0).
  - now destruct (a =? 0).
  - apply round_units_binary64, U_pos.
Qed.

Lemma parseInt_binary64 (s : jsstring) : is_binary64 (parseInt s) = true.
Proof.
  unfold parseInt. cbv zeta.
  destruct (leading_digits _ _); [reflexivity | apply of_Z_binary64].
Qed.

(** ** The shortest decimal reads back *)

Lemma round_pos_zero (d : Z) : 0 < d -> round_pos 0 d = Fin 0.
Proof.
  intros Hd. replace 0 with (0 * d) at 1 by lia.
  apply round_pos_exact; [lia | reflexivity | exact Hd].
Qed.

Lemma round_dec_zero (e : Z) : round_dec 0 e = Fin 0.
Proof.
  unfold round_dec, round_q, round_units. rewrite !Z.mul_0_l. cbn [Z.ltb Z.compare].
  destruct (0 <=? e) eqn:He; apply round_pos_zero; [lia|].
  apply pow10_pos. apply Z.leb_gt in He. lia.
Qed.

Lemma round_q_scale (n d c : Z) :
  0 < d -> 0 < c -> round_q (n * c) (d * c) = round_q n d.
Proof.
  intros Hd Hc. unfold round_q.
  replace (n * c * U) with (n * U * c) by lia.
  now apply round_units_scale.
Qed.

(** Moving a power of ten between the digits and the exponent does not
    change the value read. *)
Lemma round_dec_shift (s j p : Z) :
  0 <= p -> round_dec (s * 10 ^ p) j = round_dec s (j + p).
Proof.
  intros Hp. unfold round_dec.
  destruct (Z.leb_spec 0 j) as [Hj|Hj].
  - replace (0 <=? j + p) with true by (symmetry; apply Z.leb_le; lia).
    f_equal. rewrite Z.pow_add_r by lia. lia.
  - destruct (Z.leb_spec 0 (j + p)) as [Hjp|Hjp].
    + replace (10 ^ p) with (10 ^ (j + p) * 10 ^ (- j))
        by (rewrite <- Z.pow_add_r by lia; f_equal; lia).
      rewrite Z.mul_assoc.
      replace (10 ^ (- j)) with (1 * 10 ^ (- j)) at 2 by lia.
      apply round_q_scale; [lia | apply pow10_pos; lia].
    + replace (10 ^ (- j)) with (10 ^ (- (j + p)) * 10 ^ p)
        by (rewrite <- Z.pow_add_r by lia; f_equal; lia).
      apply round_q_scale; apply pow10_pos; lia.
Qed.

Lemma reads_back_true (K s e : Z) :
  reads_back K s e = true <-> round_dec s e = Fin K.
Proof.
  unfold reads_back. destruct (round_dec s e) as [| |k].
  - split; discriminate.
  - split; discriminate.
  - rewrite Z.eqb_eq. split; [now intros -> | now intros [= ->]].
Qed.

Lemma candidate_reads_back (K n p s e : Z) :
  0 < K -> 0 <= p -> candidate K n p = Some (s, e) ->
  0 < s /\ round_dec s e = Fin K.
Proof.
  intros HK Hp. unfold candidate. cbv zeta.
  set (j := n - p).
  set (num := if 0 <=? j then K else K * 10 ^ (- j)).
  set (den := if 0 <=? j then U * 10 ^ j else U).
  assert (Hden : 0 < den).
  { pose proof U_pos. unfold den. destruct (Z.leb_spec 0 j); [|assumption].
    pose proof (pow10_pos j ltac:(lia)). nia. }
  assert (Hnum : 0 <= num).
  { unfold num. destruct (Z.leb_spec 0 j); [lia|].
    pose proof (pow10_pos (- j) ltac:(lia)). nia. }
  assert (Hlo : 0 <= num / den) by (apply Z.div_pos; lia).
  set (lo := num / den) in *.
  assert (Hlo_ok : reads_back K lo j = true -> 0 < lo /\ round_dec lo j = Fin K).
  { intros H. apply reads_back_true in H. split; [|exact H].
    destruct (Z.eq_dec lo 0) as [H0|]; [|lia].
    rewrite H0, round_dec_zero in H. injection H as H. lia. }
  destruct (reads_back K lo j && _) eqn:Hfirst.
  - intros [= <- <-]. apply andb_true_iff in Hfirst as [H _]. now apply Hlo_ok.
  - destruct (reads_back K (lo + 1) j) eqn:Hhi; [|discriminate].
    apply reads_back_true in Hhi.
    destruct (Z.eqb_spec (lo + 1) (10 ^ p)) as [Heq|Hne].
    + intros [= <- <-]. split; [lia|].
      rewrite <- round_dec_shift by exact Hp. now rewrite Z.mul_1_l, <- Heq.
    + intros [= <- <-]. split; [lia | exact Hhi].
Qed.

Lemma pow10_split (n : Z) : 0 <= n -> 10 ^ n = 5 ^ n * 2 ^ n.
Proof. intros. change 10 with (5 * 2). now apply Z.pow_mul_l. Qed.

Lemma exact_decimal_reads_back (K : Z) :
  0 < K -> representable K = true ->
  0 < fst (exact_decimal K) /\
  round_dec (fst (exact_decimal K)) (snd (exact_decimal K)) = Fin K.
Proof.
  intros HK Hrep. unfold exact_decimal. cbn [fst snd].
  assert (H5 : 0 < 5 ^ unit_exp) by (apply Z.pow_pos_nonneg; unfold unit_exp; lia).
  split; [nia|]. unfold round_dec.
  replace (0 <=? - unit_exp) with false by reflexivity.
  rewrite Z.opp_involutive. unfold round_q.
  assert (H10 : 10 ^ unit_exp = 5 ^ unit_exp * U)
    by (apply pow10_split; unfold unit_exp; lia).
  replace (K * 5 ^ unit_exp * U) with (K * 10 ^ unit_exp) by (rewrite H10; lia).
  apply round_units_exact; [exact Hrep|]. apply pow10_pos. unfold unit_exp. lia.
Qed.

Lemma shortest_from_reads_back (K n : Z) :
  0 < K -> representable K = true ->
  forall (fuel : nat) (p : Z), 0 <= p ->
    0 < fst (shortest_from fuel p K n) /\
    round_dec (fst (shortest_from fuel p K n)) (snd (shortest_from fuel p K n)) = Fin K.
Proof.
  intros HK Hrep fuel. induction fuel as [|fuel IH]; intros p Hp; cbn [shortest_from].
  - now apply exact_decimal_reads_back.
  - destruct (candidate K n p) as [[s e]|] eqn:Hc.
    + cbn [fst snd]. eapply candidate_reads_back; eassumption.
    + apply IH. lia.
Qed.

Lemma shortest_reads_back (K : Z) :
  0 < K -> representable K = true ->
  0 < fst (shortest K) /\ round_dec (fst (shortest K)) (snd (shortest K)) = Fin K.
Proof. intros. unfold shortest. apply shortest_from_reads_back; [assumption..|lia]. Qed.

(** ** Number literals read back *)

(** What may follow a number without being read as part of it. *)
Definition number_end (rest : jsstring) : bool :=
  match rest with
  | [] => true
  | c :: _ =>
      negb (isDigit c) && negb (c =? ch ".")%N
      && negb (c =? ch "e")%N && negb (c =? ch "E")%N
  end.

Definition frac_text (fp : list Z) : jsstring :=
  match fp with
  | [] => []
  | _ :: _ => ch "." :: List.map digit_char fp
  end.

Definition exp_text (ex : option (bool * list Z)) : jsstring :=
  match ex with
  | None => []
  | Some (eneg, ed) =>
      ch "e" :: (if eneg : bool then ch "-" else ch "+") :: List.map digit_char ed
  end.

Definition exp_value (ex : option (bool * list Z)) : Z :=
  match ex with
  | None => 0
  | Some (eneg, ed) =>
      if eneg : bool then - digits_value 10 ed else digits_value 10 ed
  end.

Definition in_range (l : list Z) : Prop := Forall (fun d => 0 <= d <= 9) l.

Lemma digit_of_non_digit (c : codeunit) : isDigit c = false -> digit_of 10 c = None.
Proof.
  intros H. unfold digit_of. rewrite H.
  destruct ((97 <=? c) && (c <=? 122))%N eqn:Hl.
  - apply andb_true_iff in Hl as [H1 H2]. apply N.leb_le in H1.
    replace (Z.of_N c - 87 <? 10) with false; [reflexivity|].
    symmetry. apply Z.ltb_ge. lia.
  - destruct ((65 <=? c) && (c <=? 90))%N eqn:Hu.
    + apply andb_true_iff in Hu as [H1 H2]. apply N.leb_le in H1.
      replace (Z.of_N c - 55 <? 10) with false; [reflexivity|].
      symmetry. apply Z.ltb_ge. lia.
    + now rewrite Z.ltb_irrefl.
Qed.

(** The digits of a run that is followed by something that is not a digit. *)
Lemma leading_digits_run (l : list Z) (tail : jsstring) :
  in_range l ->
  match tail with [] => true | c :: _ => negb (isDigit c) end = true ->
  leading_digits 10 (List.map digit_char l ++ tail) = l.
Proof.
  intros Hl Htail. rewrite leading_digits_app by exact Hl.
  destruct tail as [|c tl]; cbn [leading_digits]; [apply app_nil_r|].
  apply negb_true_iff in Htail. rewrite (digit_of_non_digit c Htail).
  apply app_nil_r.
Qed.

Lemma drop_run (l : list Z) (tail : jsstring) :
  drop (length l) (List.map digit_char l ++ tail) = tail.
Proof.
  rewrite <- (length_map digit_char l). apply drop_app_length.
Qed.

Lemma number_end_not_digit (rest : jsstring) :
  number_end rest = true ->
  match rest with [] => true | c :: _ => negb (isDigit c) end = true.
Proof.
  destruct rest as [|c tl]; [reflexivity|]. cbn [number_end].
  rewrite !andb_true_iff. tauto.
Qed.

Lemma exp_text_not_digit (ex : option (bool * list Z)) (rest : jsstring) :
  number_end rest = true ->
  match exp_text ex ++ rest with [] => true | c :: _ => negb (isDigit c) end = true.
Proof.
  intros H. destruct ex as [[eneg ed]|]; [reflexivity|].
  now apply number_end_not_digit.
Qed.

Lemma frac_exp_text_not_digit (fp : list Z) (ex : option (bool * list Z)) (rest : jsstring) :
  number_end rest = true ->
  match frac_text fp ++ exp_text ex ++ rest with
  | [] => true
  | c :: _ => negb (isDigit c)
  end = true.
Proof.
  intros H. destruct fp as [|d fp]; [|reflexivity].
  now apply exp_text_not_digit.
Qed.

(** The part of [parse_number] after the sign. *)
Definition parse_unsigned (negative : bool) (s0 : jsstring) : option (number * jsstring) :=
  let int_all := leading_digits 10 s0 in
  let int_part :=
    match int_all with
    | d :: _ => if d =? 0 then [0] else int_all
    | [] => []
    end in
  match int_part with
  | [] => None
  | _ :: _ =>
      let s1 := drop (length int_part) s0 in
      let has_frac := match s1 with c :: _ => (c =? ch ".")%N | [] => false end in
      let frac := if has_frac then leading_digits 10 (drop 1 s1) else [] in
      if has_frac && Nat.eqb (length frac) 0 then None
      else
        let s2 := if has_frac then drop (S (length frac)) s1 else s1 in
        let has_exp :=
          match s2 with c :: _ => (c =? ch "e")%N || (c =? ch "E")%N | [] => false end in
        let s3 := if has_exp then drop 1 s2 else s2 in
        let exp_negative :=
          has_exp && match s3 with c :: _ => (c =? ch "-")%N | [] => false end in
        let exp_signed :=
          has_exp && match s3 with
                     | c :: _ => (c =? ch "-")%N || (c =? ch "+")%N
                     | [] => false
                     end in
        let s4 := if exp_signed then drop 1 s3 else s3 in
        let exp_digits := if has_exp then leading_digits 10 s4 else [] in
        if has_exp && Nat.eqb (length exp_digits) 0 then None
        else
          let rest := drop (length exp_digits) s4 in
          let mantissa := digits_value 10 (int_part ++ frac) in
          let exponent := digits_value 10 exp_digits in
          let e := (if exp_negative then - exponent else exponent)
                   - Z.of_nat (length frac) in
          Some (round_dec (if negative then - mantissa else mantissa) e, rest)
  end.

Lemma parse_number_unsigned (s : jsstring) :
  parse_number s =
  parse_unsigned (match s with c :: _ => (c =? ch "-")%N | [] => false end)
    (if match s with c :: _ => (c =? ch "-")%N | [] => false end then drop 1 s else s).
Proof. reflexivity. Qed.

Definition canonical_int (ip : list Z) : Prop :=
  ip = [0] \/ exists d tl, ip = d :: tl /\ d <> 0.

Definition exp_ok (ex : option (bool * list Z)) : Prop :=
  match ex with
  | None => True
  | Some (_, ed) => ed <> [] /\ in_range ed
  end.

Lemma parse_unsigned_text (negative : bool) (ip fp : list Z)
    (ex : option (bool * list Z)) (rest : jsstring) :
  in_range ip -> canonical_int ip -> in_range fp -> exp_ok ex ->
  number_end rest = true ->
  parse_unsigned negative
    (List.map digit_char ip ++ frac_text fp ++ exp_text ex ++ rest) =
  Some (round_dec (if negative then - digits_value 10 (ip ++ fp)
                   else digits_value 10 (ip ++ fp))
          (exp_value ex - Z.of_nat (length fp)),
        rest).
Proof.
  intros Hip Hcanon Hfp Hex Hrest. unfold parse_unsigned. cbv zeta.
  rewrite (leading_digits_run ip) by
    (first [exact Hip | now apply frac_exp_text_not_digit]).
  assert (Hint : match ip with
                 | d :: _ => if d =? 0 then [0] else ip
                 | [] => []
                 end = ip).
  { destruct Hcanon as [->|(d & tl & -> & Hd)]; [reflexivity|].
    now replace (d =? 0) with false by (symmetry; apply Z.eqb_neq; exact Hd). }
  rewrite Hint.
  destruct ip as [|d0 ip0] eqn:Eip.
  { destruct Hcanon as [H|(? & ? & H & _)]; discriminate. }
  rewrite <- Eip in *. clear Hint.
  rewrite drop_run.
  (* the fraction *)
  assert (Hfrac :
    (match frac_text fp ++ exp_text ex ++ rest with
     | c :: _ => (c =? ch ".")%N
     | [] => false
     end = negb (Nat.eqb (length fp) 0)) /\
    (if negb (Nat.eqb (length fp) 0)
     then leading_digits 10 (drop 1 (frac_text fp ++ exp_text ex ++ rest))
     else []) = fp /\
    (if negb (Nat.eqb (length fp) 0)
     then drop (S (length fp)) (frac_text fp ++ exp_text ex ++ rest)
     else frac_text fp ++ exp_text ex ++ rest) = exp_text ex ++ rest).
  { destruct fp as [|f0 fp0] eqn:Efp.
    - cbn [frac_text app length Nat.eqb negb]. repeat split.
      destruct ex as [[eneg ed]|]; [reflexivity|]. cbn [exp_text app].
      destruct rest as [|c tl]; [reflexivity|]. cbn [number_end] in Hrest.
      rewrite !andb_true_iff, !negb_true_iff in Hrest. tauto.
    - change (Nat.eqb (length (f0 :: fp0)) 0) with false. cbn [negb].
      change (frac_text (f0 :: fp0)) with (ch "." :: List.map digit_char (f0 :: fp0)).
      split; [reflexivity|]. split.
      + change (drop 1 ((ch "." :: List.map digit_char (f0 :: fp0)) ++ exp_text ex ++ rest))
          with (List.map digit_char (f0 :: fp0) ++ exp_text ex ++ rest).
        apply leading_digits_run; [exact Hfp | now apply exp_text_not_digit].
      + change (drop (S (length (f0 :: fp0)))
                  ((ch "." :: List.map digit_char (f0 :: fp0)) ++ exp_text ex ++ rest))
          with (drop (length (f0 :: fp0))
                  (List.map digit_char (f0 :: fp0) ++ exp_text ex ++ rest)).
        apply drop_run. }
  destruct Hfrac as (Hhas & Hf & Hs2). rewrite Hhas, Hf, Hs2.
  replace (negb (Nat.eqb (length fp) 0) && Nat.eqb (length fp) 0) with false
    by (now destruct (Nat.eqb (length fp) 0)).
  (* the exponent *)
  destruct ex as [[eneg ed]|].
  - destruct Hex as [Hne Hed]. cbn [exp_text exp_value app orb andb].
    change ((ch "e" =? ch "e")%N) with true. cbn [orb andb drop].
    rewrite drop_0.
    destruct eneg.
    all: change ((ch "-" =? ch "-")%N) with true.
    all: change ((ch "+" =? ch "-")%N) with false.
    all: change ((ch "+" =? ch "+")%N) with true.
    all: cbn [orb andb drop]; rewrite ?drop_0.
    all: rewrite (leading_digits_run ed) by
      (first [exact Hed | now apply number_end_not_digit]).
    all: rewrite drop_run.
    all: replace (Nat.eqb (length ed) 0) with false
      by (destruct ed; [congruence | reflexivity]).
    all: reflexivity.
  - cbn [exp_text exp_value app].
    assert (Hno : match rest with
                  | c :: _ => ((c =? ch "e") || (c =? ch "E"))%N
                  | [] => false
                  end = false).
    { destruct rest as [|c tl]; [reflexivity|]. cbn [number_end] in Hrest.
      rewrite !andb_true_iff, !negb_true_iff in Hrest.
      destruct Hrest as [[_ ->] ->]. reflexivity. }
    rewrite Hno. cbn [andb length Nat.eqb drop]. rewrite drop_0.
    reflexivity.
Qed.

Lemma zeros_as_digits (m : Z) : zeros m = List.map digit_char (repeat 0 (Z.to_nat m)).
Proof.
  unfold zeros. induction (Z.to_nat m) as [|n IH]; [reflexivity|].
  cbn [repeat List.map]. now rewrite IH.
Qed.

Lemma in_range_zeros (n : nat) : in_range (repeat 0 n).
Proof. induction n; constructor; [lia | assumption]. Qed.

Lemma digits_value_zeros (n : nat) (l : list Z) :
  digits_value 10 (repeat 0 n ++ l) = digits_value 10 l.
Proof.
  unfold digits_value. rewrite fold_left_app. f_equal.
  induction n as [|n IH]; [reflexivity | exact IH].
Qed.

Lemma take_drop_value (n : nat) (l : list Z) :
  digits_value 10 (take n l ++ drop n l) = digits_value 10 l.
Proof. now rewrite take_drop. Qed.

(** The text [format_decimal] writes for a positive [s], read back after an
    optional sign, has the value of the decimal s * 10^e. *)
Lemma format_decimal_reads (negative : bool) (s e : Z) (rest : jsstring) :
  0 < s -> number_end rest = true ->
  parse_unsigned negative (format_decimal s e ++ rest) =
  Some (round_dec (if negative then - s else s) e, rest).
Proof.
  intros Hs Hrest.
  pose proof (dvals_range s ltac:(lia)) as Hrange.
  pose proof (digits_value_dvals s ltac:(lia)) as Hval.
  destruct (dvals_head s Hs) as (d0 & tl0 & Hd & Hd0).
  assert (Hround : forall a b, a = s -> b = e ->
            round_dec (if negative then - a else a) b =
            round_dec (if negative then - s else s) e) by (now intros a b -> ->).
  unfold format_decimal. cbv zeta. rewrite ndigits_dvals, digits_dvals.
  set (k := Z.of_nat (length (dvals s))).
  assert (Hk : 1 <= k) by (unfold k; rewrite Hd; cbn [length]; lia).
  destruct ((k <=? e + k) && (e + k <=? 21)) eqn:B1.
  { (* digits followed by zeros *)
    apply andb_true_iff in B1 as [He _]. apply Z.leb_le in He.
    rewrite zeros_as_digits, <- map_app.
    replace (e + k - k) with e by lia.
    rewrite <- (dvals_mul_pow10 s (Z.to_nat e) Hs), Z2Nat.id by lia.
    pose proof (pow10_pos e ltac:(lia)).
    change (List.map digit_char (dvals (s * 10 ^ e)) ++ rest)
      with (List.map digit_char (dvals (s * 10 ^ e)) ++ frac_text [] ++
              exp_text None ++ rest).
    rewrite (parse_unsigned_text negative (dvals (s * 10 ^ e)) [] None rest).
    - rewrite app_nil_r, digits_value_dvals by nia. cbn [exp_value length].
      f_equal. f_equal.
      destruct negative.
      + replace (- (s * 10 ^ e)) with (- s * 10 ^ e) by lia.
        rewrite round_dec_shift by lia. f_equal.
      + rewrite round_dec_shift by lia. f_equal.
    - apply dvals_range. nia.
    - right. destruct (dvals_head (s * 10 ^ e) ltac:(nia)) as (d & tl & -> & Hd').
      exists d, tl. split; [reflexivity | lia].
    - constructor.
    - exact I.
    - exact Hrest. }
  destruct ((0 <? e + k) && (e + k <=? 21)) eqn:B2.
  { (* a decimal point inside the digits *)
    apply andb_true_iff in B2 as [Hn H21].
    apply Z.ltb_lt in Hn. apply Z.leb_le in H21.
    apply andb_false_iff in B1.
    assert (He : e < 0) by (destruct B1 as [B|B]; apply Z.leb_gt in B; lia).
    clear B1.
    set (n := Z.to_nat (e + k)).
    assert (Hn' : (0 < n < length (dvals s))%nat) by (unfold n, k in *; lia).
    change (take n (List.map digit_char (dvals s)) ++ js "." ++
              drop n (List.map digit_char (dvals s)))
      with (take n (List.map digit_char (dvals s)) ++
              ch "." :: drop n (List.map digit_char (dvals s))).
    rewrite firstn_map, skipn_map.
    assert (Hfp : exists f fs, drop n (dvals s) = f :: fs).
    { destruct (drop n (dvals s)) as [|f fs] eqn:E; [|eauto].
      apply (f_equal length) in E. rewrite length_drop in E. simpl in E. lia. }
    destruct Hfp as (f & fs & Hfp).
    rewrite <- app_assoc.
    change ((ch "." :: List.map digit_char (drop n (dvals s))) ++ rest)
      with ((ch "." :: List.map digit_char (drop n (dvals s))) ++ exp_text None ++ rest).
    replace (ch "." :: List.map digit_char (drop n (dvals s)))
      with (frac_text (drop n (dvals s))) by (rewrite Hfp; reflexivity).
    rewrite (parse_unsigned_text negative (take n (dvals s)) (drop n (dvals s)) None rest).
    - rewrite take_drop, Hval. cbn [exp_value]. f_equal. f_equal.
      apply Hround; [reflexivity|]. rewrite length_drop. unfold n, k in *. lia.
    - apply Forall_take. exact Hrange.
    - right. rewrite Hd. destruct n as [|n']; [lia|]. cbn [take].
      exists d0, (take n' tl0). split; [reflexivity | lia].
    - apply Forall_drop. exact Hrange.
    - exact I.
    - exact Hrest. }
  destruct ((-6 <? e + k) && (e + k <=? 0)) eqn:B3.
  { (* zero, a decimal point, zeros and the digits *)
    apply andb_true_iff in B3 as [_ Hn]. apply Z.leb_le in Hn.
    rewrite zeros_as_digits.
    change (js "0." ++ List.map digit_char (repeat 0 (Z.to_nat (- (e + k)))) ++
              List.map digit_char (dvals s))
      with (List.map digit_char [0] ++
              ch "." :: (List.map digit_char (repeat 0 (Z.to_nat (- (e + k)))) ++
                         List.map digit_char (dvals s))).
    rewrite <- map_app, <- app_assoc.
    set (fp := repeat 0 (Z.to_nat (- (e + k))) ++ dvals s).
    assert (Hfp : exists f fs, fp = f :: fs).
    { unfold fp. rewrite Hd. destruct (repeat 0 _); cbn [app]; eauto. }
    destruct Hfp as (f & fs & Hfp).
    change ((ch "." :: List.map digit_char fp) ++ rest)
      with ((ch "." :: List.map digit_char fp) ++ exp_text None ++ rest).
    replace (ch "." :: List.map digit_char fp) with (frac_text fp)
      by (rewrite Hfp; reflexivity).
    rewrite (parse_unsigned_text negative [0] fp None rest).
    - cbn [exp_value app]. f_equal. f_equal. apply Hround.
      + change (0 :: fp) with (repeat 0 1 ++ fp).
        rewrite digits_value_zeros. unfold fp.
        now rewrite digits_value_zeros.
      + unfold fp. rewrite length_app, repeat_length. unfold k in *. lia.
    - repeat constructor; lia.
    - left. reflexivity.
    - unfold fp. apply Forall_app. split; [apply in_range_zeros | exact Hrange].
    - exact I.
    - exact Hrest. }
  (* exponent notation *)
  apply andb_false_iff in B1. apply andb_false_iff in B2. apply andb_false_iff in B3.
  assert (Hx : 21 <= e + k - 1 \/ e + k - 1 <= -7).
  { destruct (Z.leb_spec (e + k) 21) as [H21|H21]; [|lia].
    destruct B2 as [B|B]; [|discriminate]. apply Z.ltb_ge in B.
    destruct (Z.leb_spec (e + k) 0) as [H0|H0]; [|lia].
    destruct B3 as [B'|B']; [|discriminate]. apply Z.ltb_ge in B'. lia. }
  clear B1 B2 B3.
  set (x := e + k - 1) in *.
  pose proof (dvals_range (Z.abs x) ltac:(lia)) as Hxr.
  pose proof (digits_value_dvals (Z.abs x) ltac:(lia)) as Hxv.
  pose proof (dvals_length_pos (Z.abs x)) as Hxl.
  assert (Hexp : forall tail,
            js "e" ++ (if x <? 0 then js "-" else js "+") ++
              List.map digit_char (dvals (Z.abs x)) ++ tail =
            exp_text (Some (x <? 0, dvals (Z.abs x))) ++ tail).
  { intros tail. cbn [exp_text]. now destruct (x <? 0). }
  assert (Hexpv : exp_value (Some (x <? 0, dvals (Z.abs x))) = x).
  { cbn [exp_value]. rewrite Hxv. destruct (Z.ltb_spec x 0); lia. }
  assert (Hexpok : exp_ok (Some (x <? 0, dvals (Z.abs x)))).
  { split; [|exact Hxr]. intros E. rewrite E in Hxl. simpl in Hxl. lia. }
  destruct (k =? 1) eqn:K1.
  - apply Z.eqb_eq in K1.
    rewrite (digits_dvals (Z.abs x)), <- !app_assoc, Hexp.
    change (List.map digit_char (dvals s) ++ exp_text (Some (x <? 0, dvals (Z.abs x))) ++ rest)
      with (List.map digit_char (dvals s) ++ frac_text [] ++
              exp_text (Some (x <? 0, dvals (Z.abs x))) ++ rest).
    rewrite (parse_unsigned_text negative (dvals s) [] _ rest);
      try assumption.
    + rewrite app_nil_r, Hval, Hexpv. cbn [length]. f_equal. f_equal.
      apply Hround; [reflexivity | unfold x; lia].
    + right. exists d0, tl0. split; [exact Hd | lia].
    + constructor.
  - apply Z.eqb_neq in K1.
    rewrite firstn_map, skipn_map, digits_dvals.
    assert (Hfp : exists f fs, drop 1 (dvals s) = f :: fs).
    { rewrite Hd. cbn [drop]. rewrite drop_0. destruct tl0 as [|f fs]; [|eauto].
      unfold k in K1. rewrite Hd in K1. cbn [length] in K1. lia. }
    destruct Hfp as (f & fs & Hfp).
    rewrite <- !app_assoc, Hexp.
    match goal with
    | |- parse_unsigned _ (?ipt ++ js "." ++ List.map digit_char ?fp ++ ?tail) = _ =>
        replace (ipt ++ js "." ++ List.map digit_char fp ++ tail)
          with (ipt ++ frac_text fp ++ tail) by (rewrite Hfp; reflexivity)
    end.
    rewrite (parse_unsigned_text negative (take 1 (dvals s)) (drop 1 (dvals s)) _ rest);
      try assumption.
    + rewrite take_drop, Hval, Hexpv. f_equal. f_equal.
      apply Hround; [reflexivity|]. rewrite length_drop. unfold x, k in *. lia.
    + apply Forall_take. exact Hrange.
    + right. rewrite Hd. cbn [take]. exists d0, []. split; [reflexivity | lia].
    + apply Forall_drop. exact Hrange.
Qed.

Lemma parse_unsigned_head (negative : bool) (s0 : jsstring) (r : number * jsstring) :
  parse_unsigned negative s0 = Some r ->
  exists c tl, s0 = c :: tl /\ isDigit c = true.
Proof.
  unfold parse_unsigned. cbv zeta. destruct s0 as [|c tl]; [discriminate|].
  intros H. exists c, tl. split; [reflexivity|].
  destruct (isDigit c) eqn:Hc; [reflexivity|].
  cbn [leading_digits] in H. rewrite (digit_of_non_digit c Hc) in H. discriminate.
Qed.

Lemma digit_is_not_minus (c : codeunit) : isDigit c = true -> (c =? ch "-")%N = false.
Proof.
  unfold isDigit. intros [H1 H2]%andb_true_iff.
  apply N.leb_le in H1. apply N.eqb_neq. change (ch "-") with 45%N. lia.
Qed.

Lemma round_units_opp (n d : Z) :
  0 < n -> round_units (- n) d = neg (round_units n d).
Proof.
  intros Hn. unfold round_units.
  replace (- n <? 0) with true by (symmetry; apply Z.ltb_lt; lia).
  replace (n <? 0) with false by (symmetry; apply Z.ltb_ge; lia).
  now rewrite Z.opp_involutive.
Qed.

Lemma round_dec_opp (s e : Z) : 0 < s -> round_dec (- s) e = neg (round_dec s e).
Proof.
  intros Hs. pose proof U_pos. unfold round_dec, round_q.
  destruct (Z.leb_spec 0 e).
  - pose proof (pow10_pos e ltac:(lia)).
    replace (- s * 10 ^ e * U) with (- (s * 10 ^ e * U)) by lia.
    apply round_units_opp. nia.
  - replace (- s * U) with (- (s * U)) by lia.
    apply round_units_opp. nia.
Qed.

(** A finite Number written by ToString and read as a JSON number is the
    same Number. *)
Lemma toString_reads (K : Z) (rest : jsstring) :
  representable K = true -> number_end rest = true ->
  parse_number (toString (Fin K) ++ rest) = Some (Fin K, rest).
Proof.
  intros Hrep Hrest. unfold toString.
  destruct (Z.eqb_spec K 0) as [->|Hne].
  - rewrite parse_number_unsigned. cbn [app js List.map list_ascii_of_string].
    change ((N_of_ascii "0" =? ch "-")%N) with false. cbv iota.
    change (N_of_ascii "0" :: rest)
      with (List.map digit_char [0] ++ frac_text [] ++ exp_text None ++ rest).
    rewrite parse_unsigned_text; try assumption.
    + cbn [app exp_value length]. now rewrite round_dec_zero.
    + repeat constructor; lia.
    + left. reflexivity.
    + constructor.
    + exact I.
  - assert (Habs : 0 < Z.abs K) by lia.
    assert (Hrep' : representable (Z.abs K) = true).
    { destruct (Z.abs_spec K) as [[_ ->]|[_ ->]];
        [exact Hrep | now rewrite representable_neg]. }
    destruct (shortest_reads_back (Z.abs K) Habs Hrep') as [Hs Hback].
    destruct (shortest (Z.abs K)) as [s e]. cbn [fst snd] in Hs, Hback.
    destruct (Z.ltb_spec K 0) as [Hneg|Hpos].
    + rewrite parse_number_unsigned.
      change ((js "-" ++ format_decimal s e) ++ rest)
        with (ch "-" :: (format_decimal s e ++ rest)).
      cbv iota. change ((ch "-" =? ch "-")%N) with true. cbv iota.
      cbn [drop]. rewrite drop_0.
      rewrite format_decimal_reads by assumption.
      rewrite round_dec_opp, Hback by exact Hs. cbn [neg].
      do 3 f_equal. lia.
    + pose proof (format_decimal_reads false s e rest Hs Hrest) as Hread.
      destruct (parse_unsigned_head _ _ _ Hread) as (c & tl & Heq & Hc).
      rewrite parse_number_unsigned. cbn [app]. rewrite Heq.
      cbv iota. rewrite (digit_is_not_minus c Hc). rewrite <- Heq, Hread.
      rewrite Hback. do 3 f_equal. lia.
Qed.

(** ** String literals read back *)

Lemma hex_char_value (d : N) : (d < 16)%N -> hex_value (hex_char d) = Some d.
Proof.
  intros Hd. unfold hex_char, hex_value, isDigit.
  destruct (N.ltb_spec d 10).
  - replace ((48 <=? 48 + d) && (48 + d <=? 57))%N with true
      by (symmetry; apply andb_true_iff; split; apply N.leb_le; lia).
    f_equal. lia.
  - replace ((48 <=? 87 + d) && (87 + d <=? 57))%N with false
      by (symmetry; apply andb_false_iff; right; apply N.leb_gt; lia).
    replace ((97 <=? 87 + d) && (87 + d <=? 102))%N with true
      by (symmetry; apply andb_true_iff; split; apply N.leb_le; lia).
    f_equal. lia.
Qed.

Definition cons_unit (c : codeunit) (r : option (jsstring * jsstring)) :
    option (jsstring * jsstring) :=
  match r with
  | Some (str, rest) => Some (c :: str, rest)
  | None => None
  end.

Lemma nibbles (c : N) :
  (c < 65536)%N ->
  (c / 4096 mod 16 * 4096 + c / 256 mod 16 * 256 + c / 16 mod 16 * 16 + c mod 16)%N = c.
Proof.
  intros Hc.
  change 4096%N with (16 * 16 * 16)%N. change 256%N with (16 * 16)%N.
  rewrite <- !N.Div0.div_div.
  pose proof (N.div_mod' c 16) as H1.
  pose proof (N.div_mod' (c / 16) 16) as H2.
  pose proof (N.div_mod' (c / 16 / 16) 16) as H3.
  assert (H4 : (c / 16 / 16 / 16 < 16)%N).
  { rewrite !N.Div0.div_div. apply N.Div0.div_lt_upper_bound. exact Hc. }
  rewrite (N.mod_small (c / 16 / 16 / 16)) by exact H4.
  lia.
Qed.

Lemma parse_unicode_escape (c : codeunit) (t : jsstring) :
  (c < 65536)%N ->
  parse_string_body (unicode_escape c ++ t) = cons_unit c (parse_string_body t).
Proof.
  intros Hc. unfold unicode_escape. cbn [app parse_string_body].
  change ((reverse_solidus =? quotation_mark)%N) with false.
  change ((reverse_solidus =? reverse_solidus)%N) with true.
  change ((ch "u" =? ch "u")%N) with true. cbv iota.
  rewrite !hex_char_value by (apply N.mod_lt; discriminate).
  rewrite (nibbles c Hc). reflexivity.
Qed.

Lemma parse_literal_unit (c : codeunit) (t : jsstring) :
  (32 <= c)%N -> c <> quotation_mark -> c <> reverse_solidus ->
  parse_string_body (c :: t) = cons_unit c (parse_string_body t).
Proof.
  intros H32 Hq Hb. cbn [parse_string_body].
  replace (c =? quotation_mark)%N with false by (symmetry; now apply N.eqb_neq).
  replace (c =? reverse_solidus)%N with false by (symmetry; now apply N.eqb_neq).
  replace (c <? 32)%N with false by (symmetry; apply N.ltb_ge; exact H32).
  reflexivity.
Qed.

Lemma parse_escape_unit (c : codeunit) (t : jsstring) :
  (c < 65536)%N ->
  parse_string_body (escape_unit c ++ t) = cons_unit c (parse_string_body t).
Proof.
  intros Hc. unfold escape_unit.
  destruct (N.eqb_spec c 8) as [->|H8]; [reflexivity|].
  destruct (N.eqb_spec c 9) as [->|H9]; [reflexivity|].
  destruct (N.eqb_spec c 10) as [->|H10]; [reflexivity|].
  destruct (N.eqb_spec c 12) as [->|H12]; [reflexivity|].
  destruct (N.eqb_spec c 13) as [->|H13]; [reflexivity|].
  destruct (N.eqb_spec c quotation_mark) as [->|Hq]; [reflexivity|].
  destruct (N.eqb_spec c reverse_solidus) as [->|Hb]; [reflexivity|].
  destruct (N.ltb_spec c 32) as [Hlow|Hhigh].
  - now apply parse_unicode_escape.
  - now apply parse_literal_unit.
Qed.

Lemma surrogate_is_literal (c : codeunit) :
  is_leading_surrogate c = true \/ is_trailing_surrogate c = true ->
  (32 <= c)%N /\ c <> quotation_mark /\ c <> reverse_solidus /\ (c < 65536)%N.
Proof.
  unfold is_leading_surrogate, is_trailing_surrogate, quotation_mark, reverse_solidus.
  intros [H|H]; apply andb_true_iff in H as [H1 H2];
    apply N.leb_le in H1; apply N.leb_le in H2; repeat split; lia.
Qed.

Lemma quote_units_reads (n : nat) :
  forall (s rest : jsstring),
    (length s <= n)%nat -> Forall (fun c => (c < 65536)%N) s ->
    parse_string_body (quote_units s ++ quotation_mark :: rest) = Some (s, rest).
Proof.
  induction n as [|n IH]; intros s rest Hlen Hunits.
  - destruct s; [reflexivity | simpl in Hlen; lia].
  - destruct s as [|c tl]; [reflexivity|].
    apply Forall_cons in Hunits as [Hc Htl]. cbn [length] in Hlen.
    cbn [quote_units].
    destruct (is_leading_surrogate c) eqn:Hlead.
    + destruct (surrogate_is_literal c (or_introl Hlead)) as (H32 & Hq & Hb & _).
      destruct tl as [|c2 tl2].
      * rewrite parse_unicode_escape by exact Hc. reflexivity.
      * apply Forall_cons in Htl as [Hc2 Htl2]. cbn [length] in Hlen.
        destruct (is_trailing_surrogate c2) eqn:Htrail.
        -- destruct (surrogate_is_literal c2 (or_intror Htrail)) as (H32' & Hq' & Hb' & _).
           cbn [app]. rewrite parse_literal_unit by assumption.
           rewrite parse_literal_unit by assumption.
           rewrite IH by (first [lia | assumption]). reflexivity.
        -- rewrite <- app_assoc, parse_unicode_escape by exact Hc.
           rewrite IH; [reflexivity | cbn [length]; lia | now constructor].
    + destruct (is_trailing_surrogate c) eqn:Htrail.
      * rewrite <- app_assoc, parse_unicode_escape by exact Hc.
        rewrite IH by (first [lia | assumption]). reflexivity.
      * rewrite <- app_assoc, parse_escape_unit by exact Hc.
        rewrite IH by (first [lia | assumption]). reflexivity.
Qed.

Definition code_units (s : jsstring) : Prop := Forall (fun c => (c < 65536)%N) s.

(** A string written by QuoteJSONString reads back as the same string. *)
Lemma quoteJSONString_reads (s rest : jsstring) :
  code_units s ->
  exists body, quoteJSONString s ++ rest = quotation_mark :: body /\
               parse_string_body body = Some (s, rest).
Proof.
  intros Hs. exists (quote_units s ++ quotation_mark :: rest). split.
  - unfold quoteJSONString. cbn [app]. now rewrite <- app_assoc.
  - now apply (quote_units_reads (length s)).
Qed.

(** ** JSON texts read back *)

(** Induction on a value with the elements of an array and the property
    values of an object as smaller values. *)
Lemma value_induction (P : value -> Prop) :
  P VNull -> (forall b, P (VBool b)) -> (forall x, P (VNum x)) ->
  (forall s, P (VStr s)) ->
  (forall elements, Forall P elements -> P (VArr elements)) ->
  (forall props, Forall (fun p => P (snd p)) props -> P (VObj props)) ->
  (forall name, P (VFunction name)) ->
  forall v, P v.
Proof.
  intros Hnull Hbool Hnum Hstr Harr Hobj Hfun.
  fix IH 1. intros [ | b | x | s | elements | props | name].
  - exact Hnull.
  - apply Hbool.
  - apply Hnum.
  - apply Hstr.
  - apply Harr. induction elements as [|e tl IHtl]; constructor; [apply IH | exact IHtl].
  - apply Hobj. induction props as [|[k e] tl IHtl]; constructor; [apply IH | exact IHtl].
  - apply Hfun.
Qed.

(** The text [JSON.stringify] writes for a value inside an array. *)
Definition json_text (v : value) : jsstring :=
  match serialize v with Some t => t | None => js "null" end.

Definition member_text (p : jsstring * value) : jsstring :=
  quoteJSONString (fst p) ++ ch ":" :: json_text (snd p).

(** Keys that an object keeps in the order they were added: no array index
    among them, no key twice. *)
Definition plain_keys (ks : list jsstring) : bool :=
  forallb (fun k => match array_index k with None => true | Some _ => false end) ks
  && bool_decide (NoDup ks).

Definition code_unitsb (s : jsstring) : bool := forallb (fun c => (c <? 65536)%N) s.

(** Values that JSON represents exactly: finite Numbers, strings, booleans,
    null, arrays of such values and objects of such values under plain keys.
    A function, NaN or an infinity has no JSON text of its own. *)
Fixpoint json_exact (v : value) : bool :=
  match v with
  | VNull | VBool _ => true
  | VNum x => is_finite x && is_binary64 x
  | VStr s => code_unitsb s
  | VArr elements => forallb json_exact elements
  | VObj props =>
      forallb (fun p => code_unitsb (fst p) && json_exact (snd p)) props
      && plain_keys (List.map fst props)
  | VFunction _ => false
  end.

(** Fuel that is enough to read the text of a value. *)
Fixpoint fuel_for (v : value) : nat :=
  match v with
  | VArr elements => S (list_sum (List.map (fun e => S (fuel_for e)) elements))
  | VObj props => S (list_sum (List.map (fun p => S (fuel_for (snd p))) props))
  | _ => 1
  end.

(** What may follow a value inside a text. *)
Definition delimited (rest : jsstring) : bool :=
  match rest with
  | [] => true
  | c :: _ => (c =? ch ",")%N || (c =? ch "]")%N || (c =? ch "}")%N
  end.

Definition starts_value (t : jsstring) : bool :=
  match t with
  | c :: _ => negb (is_json_space c) && negb (c =? ch "]")%N
  | [] => false
  end.

Definition reads_back (v : value) : Prop :=
  serialize v = Some (json_text v) /\
  (fuel_for v <= length (json_text v))%nat /\
  starts_value (json_text v) = true /\
  forall (fuel : nat) (rest : jsstring),
    (fuel_for v <= fuel)%nat -> delimited rest = true ->
    parse_value fuel (json_text v ++ rest) = Some (v, rest).

Lemma code_unitsb_spec (s : jsstring) : code_unitsb s = true -> code_units s.
Proof.
  unfold code_unitsb, code_units. intros H. apply Forall_forall. intros c Hc.
  apply list_elem_of_In in Hc.
  rewrite forallb_forall in H. apply N.ltb_lt. now apply H.
Qed.

Lemma delimited_cases (rest : jsstring) :
  delimited rest = true ->
  rest = [] \/ exists tl, rest = ch "," :: tl \/ rest = ch "]" :: tl \/ rest = ch "}" :: tl.
Proof.
  destruct rest as [|c tl]; [now left|]. cbn [delimited]. intros H. right. exists tl.
  apply orb_true_iff in H as [H|H]; [apply orb_true_iff in H as [H|H]|];
    apply N.eqb_eq in H; subst c; auto.
Qed.

Lemma delimited_number_end (rest : jsstring) : delimited rest = true -> number_end rest = true.
Proof.
  intros H. destruct (delimited_cases rest H) as [->|(tl & [->|[->| ->]])]; reflexivity.
Qed.

Lemma delimited_skip_ws (rest : jsstring) : delimited rest = true -> skip_ws rest = rest.
Proof.
  intros H. destruct (delimited_cases rest H) as [->|(tl & [->|[->| ->]])]; reflexivity.
Qed.

Lemma parse_number_head (s : jsstring) (r : number * jsstring) :
  parse_number s = Some r ->
  exists c tl, s = c :: tl /\ (isDigit c = true \/ c = ch "-").
Proof.
  rewrite parse_number_unsigned. destruct s as [|c tl]; [discriminate|].
  intros H. exists c, tl. split; [reflexivity|].
  destruct (N.eqb_spec c (ch "-")) as [->|Hne]; [now right|]. left.
  destruct (parse_unsigned_head _ _ _ H) as (c' & tl' & Heq & Hc').
  now inversion Heq; subst.
Qed.

Lemma number_start (c : codeunit) :
  isDigit c = true \/ c = ch "-" ->
  is_json_space c = false /\ (c =? ch "[")%N = false /\ (c =? ch "{")%N = false /\
  (c =? quotation_mark)%N = false /\ (c =? ch "n")%N = false /\
  (c =? ch "t")%N = false /\ (c =? ch "f")%N = false /\ (c =? ch "]")%N = false.
Proof.
  intros [H| ->]; [|repeat split; reflexivity].
  unfold isDigit in H. apply andb_true_iff in H as [H1 H2].
  apply N.leb_le in H1. apply N.leb_le in H2.
  unfold is_json_space.
  repeat split; rewrite ?orb_false_iff; repeat split; apply N.eqb_neq;
    intros ->; vm_compute in H1, H2; congruence.
Qed.

Lemma reads_back_number (K : Z) : representable K = true -> reads_back (VNum (Fin K)).
Proof.
  intros Hrep.
  pose proof (toString_reads K [] Hrep eq_refl) as H0. rewrite app_nil_r in H0.
  destruct (parse_number_head _ _ H0) as (c & tl & Heq & Hc).
  destruct (number_start c Hc) as (Hs & H1 & H2 & H3 & H4 & H5 & H6 & H7).
  unfold reads_back, json_text. cbn [serialize is_finite fuel_for]. rewrite Heq.
  repeat split.
  - cbn [length]. lia.
  - cbn [starts_value]. now rewrite Hs, H7.
  - intros fuel rest Hfuel Hrest. destruct fuel as [|f]; [lia|].
    cbn [app parse_value skip_ws]. rewrite Hs, H1, H2, H3, H4, H5, H6.
    change (c :: tl ++ rest) with ((c :: tl) ++ rest). rewrite <- Heq.
    now rewrite toString_reads by (try apply delimited_number_end; assumption).
Qed.

Lemma reads_back_string (s : jsstring) : code_units s -> reads_back (VStr s).
Proof.
  intros Hs. unfold reads_back, json_text. cbn [serialize fuel_for].
  repeat split.
  - unfold quoteJSONString. cbn [length]. lia.
  - intros fuel rest Hfuel Hrest. destruct fuel as [|f]; [lia|].
    destruct (quoteJSONString_reads s rest Hs) as (body & -> & Hbody).
    cbn [parse_value skip_ws].
    change (is_json_space quotation_mark) with false. cbv iota.
    change ((quotation_mark =? ch "[")%N) with false.
    change ((quotation_mark =? ch "{")%N) with false.
    change ((quotation_mark =? quotation_mark)%N) with true. cbv iota.
    now rewrite Hbody.
Qed.

(** What follows an element's text in the text of the elements. *)
Definition join_tail (texts : list jsstring) (tail : jsstring) : jsstring :=
  match texts with
  | [] => tail
  | _ :: _ => ch "," :: join_comma texts ++ tail
  end.

Lemma join_comma_cons (t : jsstring) (texts : list jsstring) (tail : jsstring) :
  join_comma (t :: texts) ++ tail = t ++ join_tail texts tail.
Proof.
  destruct texts as [|t' tl]; [reflexivity|].
  cbn [join_comma join_tail]. now rewrite <- app_assoc.
Qed.

Lemma join_comma_length (t : jsstring) (texts : list jsstring) :
  length (join_comma (t :: texts)) =
  (length t + match texts with [] => 0 | _ :: _ => S (length (join_comma texts)) end)%nat.
Proof.
  destruct texts as [|t' tl]; cbn [join_comma].
  - lia.
  - rewrite length_app. cbn [length]. reflexivity.
Qed.

Lemma starts_value_app (t tail : jsstring) :
  starts_value t = true ->
  exists c tl, t ++ tail = c :: tl /\ is_json_space c = false /\ (c =? ch "]")%N = false.
Proof.
  destruct t as [|c tl]; [discriminate|]. cbn [starts_value].
  intros [H1 H2]%andb_true_iff. exists c, (tl ++ tail).
  apply negb_true_iff in H1. apply negb_true_iff in H2. auto.
Qed.

Lemma list_sum_cons (a : nat) (l : list nat) : list_sum (a :: l) = (a + list_sum l)%nat.
Proof. reflexivity. Qed.

Lemma elements_length (elements : list value) :
  Forall reads_back elements ->
  (list_sum (List.map (fun e => S (fuel_for e)) elements)
   <= S (length (join_comma (List.map json_text elements))))%nat.
Proof.
  induction 1 as [|v vs Hv Hvs IH]; [cbn; lia|].
  destruct Hv as (_ & Hlen & _).
  cbn [List.map]. rewrite list_sum_cons, join_comma_length.
  destruct (List.map json_text vs) as [|j jl] eqn:E.
  - apply map_eq_nil in E. subst vs. cbn. lia.
  - lia.
Qed.

Lemma elements_read (elements : list value) :
  Forall reads_back elements -> elements <> [] ->
  forall (fuel : nat) (rest : jsstring),
    (list_sum (List.map (fun e => S (fuel_for e)) elements) <= fuel)%nat ->
    parse_elements fuel (join_comma (List.map json_text elements) ++ ch "]" :: rest)
    = Some (elements, rest).
Proof.
  induction 1 as [|v vs Hv Hvs IH]; [congruence|]. intros _ fuel rest Hfuel.
  destruct Hv as (_ & _ & _ & Hread).
  cbn [List.map] in Hfuel. rewrite list_sum_cons in Hfuel.
  destruct fuel as [|f]; [lia|].
  cbn [List.map]. rewrite join_comma_cons. cbn [parse_elements].
  destruct vs as [|v' vs'].
  - cbn [List.map join_tail].
    rewrite Hread by (first [lia | reflexivity]). reflexivity.
  - assert (Hne : v' :: vs' <> []) by discriminate.
    specialize (IH Hne f rest ltac:(lia)).
    cbn [join_tail]. change (List.map json_text (v' :: vs'))
      with (json_text v' :: List.map json_text vs') in IH |- *.
    cbn [join_tail].
    rewrite Hread by (first [lia | reflexivity]).
    cbn [skip_ws]. change (is_json_space (ch ",")) with false. cbv iota.
    change ((ch "," =? ch ",")%N) with true. cbv iota.
    now rewrite IH.
Qed.

Lemma reads_back_array (elements : list value) :
  Forall reads_back elements -> reads_back (VArr elements).
Proof.
  intros Hall. pose proof (elements_length elements Hall) as Hlen.
  unfold reads_back, json_text. cbn [serialize fuel_for].
  fold json_text.
  change (fun e : value => match serialize e with Some t => t | None => js "null" end)
    with json_text.
  repeat split.
  - cbn [length]. rewrite length_app. cbn [length]. lia.
  - intros fuel rest Hfuel Hrest. destruct fuel as [|f]; [lia|].
    cbn [app]. rewrite <- app_assoc. cbn [app].
    cbn [parse_value skip_ws]. change (is_json_space (ch "[")) with false. cbv iota.
    change ((ch "[" =? ch "[")%N) with true. cbv iota.
    destruct elements as [|v vs]; [reflexivity|].
    cbn [List.map]. rewrite join_comma_cons.
    pose proof (Forall_inv Hall) as (_ & _ & Hstart & _).
    destruct (starts_value_app _ (join_tail (List.map json_text vs) (ch "]" :: rest)) Hstart)
      as (c & tl & Heq & Hws & Hclose).
    rewrite Heq. cbn [skip_ws]. rewrite Hws, Hclose. rewrite <- Heq, <- join_comma_cons.
    change (json_text v :: List.map json_text vs) with (List.map json_text (v :: vs)).
    rewrite elements_read; [reflexivity | exact Hall | discriminate | lia].
Qed.

Lemma members_texts (props : list (jsstring * value)) :
  Forall (fun p => reads_back (snd p)) props ->
  List.flat_map
    (fun p => match serialize (snd p) with
              | Some t => [quoteJSONString (fst p) ++ ch ":" :: t]
              | None => []
              end) props
  = List.map member_text props.
Proof.
  induction 1 as [|p ps Hp Hps IH]; [reflexivity|].
  destruct Hp as (Hser & _). cbn [List.flat_map List.map]. rewrite IH, Hser.
  reflexivity.
Qed.

Lemma member_text_length (p : jsstring * value) :
  reads_back (snd p) -> (S (fuel_for (snd p)) <= length (member_text p))%nat.
Proof.
  intros (_ & Hlen & _). unfold member_text, quoteJSONString.
  cbn [length]. rewrite !length_app. cbn [length]. lia.
Qed.

Lemma members_length (props : list (jsstring * value)) :
  Forall (fun p => reads_back (snd p)) props ->
  (list_sum (List.map (fun p => S (fuel_for (snd p))) props)
   <= S (length (join_comma (List.map member_text props))))%nat.
Proof.
  induction 1 as [|p ps Hp Hps IH]; [cbn; lia|].
  apply member_text_length in Hp.
  cbn [List.map]. rewrite list_sum_cons, join_comma_length.
  destruct (List.map member_text ps) as [|j jl] eqn:E.
  - apply map_eq_nil in E. subst ps. cbn [List.map].
    change (list_sum []) with 0%nat. lia.
  - lia.
Qed.

Lemma members_read (props : list (jsstring * value)) :
  Forall (fun p => code_units (fst p) /\ reads_back (snd p)) props -> props <> [] ->
  forall (fuel : nat) (rest : jsstring),
    (list_sum (List.map (fun p => S (fuel_for (snd p))) props) <= fuel)%nat ->
    parse_members fuel (join_comma (List.map member_text props) ++ ch "}" :: rest)
    = Some (props, rest).
Proof.
  induction 1 as [|[k v] ps [Hk Hv] Hps IH]; [congruence|]. intros _ fuel rest Hfuel.
  cbn [fst snd] in Hk, Hv. destruct Hv as (_ & _ & _ & Hread).
  cbn [List.map] in Hfuel. rewrite list_sum_cons in Hfuel. cbn [snd] in Hfuel.
  destruct fuel as [|f]; [lia|].
  cbn [List.map]. rewrite join_comma_cons.
  unfold member_text at 1. cbn [fst snd]. rewrite <- app_assoc. cbn [app].
  destruct (quoteJSONString_reads k
              (ch ":" :: json_text v ++ join_tail (List.map member_text ps) (ch "}" :: rest)) Hk)
    as (body & -> & Hbody).
  cbn [parse_members skip_ws].
  change (is_json_space quotation_mark) with false. cbv iota.
  change ((quotation_mark =? quotation_mark)%N) with true. cbv iota.
  rewrite Hbody. cbn [skip_ws].
  change (is_json_space (ch ":")) with false. cbv iota.
  change ((ch ":" =? ch ":")%N) with true. cbv iota.
  destruct ps as [|p' ps'].
  - cbn [List.map join_tail].
    rewrite Hread by (first [lia | reflexivity]). reflexivity.
  - assert (Hne : p' :: ps' <> []) by discriminate.
    specialize (IH Hne f rest ltac:(lia)).
    change (List.map member_text (p' :: ps'))
      with (member_text p' :: List.map member_text ps') in IH |- *.
    cbn [join_tail].
    rewrite Hread by (first [lia | reflexivity]).
    cbn [skip_ws]. change (is_json_space (ch ",")) with false. cbv iota.
    change ((ch "," =? ch ",")%N) with true. cbv iota.
    now rewrite IH.
Qed.

Lemma has_key_absent (props : list (jsstring * value)) (k : jsstring) :
  k ∉ List.map fst props -> has_key props k = false.
Proof.
  induction props as [|[k' v'] tl IH]; [reflexivity|].
  cbn [List.map fst has_key]. intros Hk.
  apply not_elem_of_cons in Hk as [Hne Htl].
  rewrite bool_decide_eq_false_2 by congruence. now apply IH.
Qed.

(** Members under plain keys become the properties of the object in the
    order in which they were read. *)
Lemma define_plain_members (members acc : list (jsstring * value)) :
  NoDup (List.map fst (acc ++ members)) ->
  forallb (fun k => match array_index k with None => true | Some _ => false end)
    (List.map fst members) = true ->
  fold_left (fun props m => define_property props (fst m) (snd m)) members acc
  = acc ++ members.
Proof.
  revert acc. induction members as [|[k v] ms IH]; intros acc Hnd Hidx.
  - now rewrite app_nil_r.
  - cbn [List.map fst forallb] in Hidx. apply andb_true_iff in Hidx as [Hk Hms].
    cbn [fold_left fst snd]. unfold define_property.
    assert (Hfresh : k ∉ List.map fst acc).
    { rewrite map_app in Hnd. apply NoDup_app in Hnd as (_ & Hdisj & _).
      intros Hin. apply (Hdisj k Hin). cbn [List.map fst]. left. }
    rewrite (has_key_absent acc k Hfresh).
    destruct (array_index k); [discriminate|].
    rewrite IH; [now rewrite <- app_assoc | | exact Hms].
    now rewrite <- app_assoc.
Qed.

Lemma make_object_plain (props : list (jsstring * value)) :
  plain_keys (List.map fst props) = true -> make_object props = VObj props.
Proof.
  unfold plain_keys, make_object. intros [Hidx Hnd]%andb_true_iff.
  apply bool_decide_eq_true_1 in Hnd.
  now rewrite define_plain_members.
Qed.

Lemma reads_back_object (props : list (jsstring * value)) :
  Forall (fun p => code_units (fst p) /\ reads_back (snd p)) props ->
  plain_keys (List.map fst props) = true ->
  reads_back (VObj props).
Proof.
  intros Hall Hkeys.
  assert (Hvals : Forall (fun p => reads_back (snd p)) props).
  { eapply Forall_impl; [exact Hall|]. now intros p [_ H]. }
  pose proof (members_length props Hvals) as Hlen.
  unfold reads_back, json_text. cbn [serialize fuel_for].
  rewrite (members_texts props Hvals).
  repeat split.
  - cbn [length]. rewrite length_app. cbn [length]. lia.
  - intros fuel rest Hfuel Hrest. destruct fuel as [|f]; [lia|].
    cbn [app]. rewrite <- app_assoc. cbn [app].
    cbn [parse_value skip_ws]. change (is_json_space (ch "{")) with false. cbv iota.
    change ((ch "{" =? ch "[")%N) with false.
    change ((ch "{" =? ch "{")%N) with true. cbv iota.
    destruct props as [|[k v] ps]; [reflexivity|].
    rewrite members_read; [| exact Hall | discriminate | lia].
    cbn [List.map]. rewrite join_comma_cons.
    unfold member_text at 1, quoteJSONString. cbn [fst snd app skip_ws].
    change (is_json_space quotation_mark) with false. cbv iota.
    change ((quotation_mark =? ch "}")%N) with false. cbv iota.
    now rewrite make_object_plain.
Qed.

(** Every value that JSON represents exactly is written as a text that
    reads back as the same value. *)
Lemma json_exact_reads_back (v : value) : json_exact v = true -> reads_back v.
Proof.
  induction v as [ | b | x | s | elements IH | props IH | name] using value_induction;
    cbn [json_exact]; intros Hex.
  - repeat split; try (cbn; lia).
    intros [|f] rest Hf _; [cbn in Hf; lia | reflexivity].
  - destruct b; (repeat split; try (cbn; lia);
      intros [|f] rest Hf _; [cbn in Hf; lia | reflexivity]).
  - destruct x as [| |K]; try discriminate. now apply reads_back_number.
  - now apply reads_back_string, code_unitsb_spec.
  - apply reads_back_array. rewrite forallb_forall in Hex.
    rewrite Forall_forall in IH |- *. intros e He.
    apply IH; [exact He|]. apply Hex. now apply list_elem_of_In.
  - apply andb_true_iff in Hex as [Hprops Hkeys].
    apply reads_back_object; [|exact Hkeys].
    rewrite forallb_forall in Hprops.
    rewrite Forall_forall in IH |- *. intros p Hp.
    specialize (Hprops p ltac:(now apply list_elem_of_In)).
    apply andb_true_iff in Hprops as [H1 H2].
    split; [now apply code_unitsb_spec | now apply IH].
  - discriminate.
Qed.

(** [JSON.parse(JSON.stringify(v))] is [v] for a value that JSON represents
    exactly. *)
Lemma parse_stringify (v : value) :
  json_exact v = true ->
  stringify v = Some (json_text v) /\ parse (json_text v) = Normal v.
Proof.
  intros Hex. destruct (json_exact_reads_back v Hex) as (Hser & Hlen & _ & Hread).
  split; [exact Hser|]. unfold parse.
  rewrite <- (app_nil_r (json_text v)) at 2.
  rewrite Hread by (first [lia | reflexivity]). reflexivity.
Qed.

(** ** Orders through storage *)

(** What has no JSON text of its own does not come back: a Number that is
    not finite is written [null], and a property holding a function is left
    out. *)
Lemma inexact_values_change :
  parse (json_text (VArr [VNum NaN])) = Normal (VArr [VNull]) /\
  parse (json_text (VObj [(js "unitPrice", VFunction (js "constructor"))]))
  = Normal (VObj []).
Proof. vm_compute. split; reflexivity. Qed.

(** An order is represented exactly when its strings are sequences of code
    units, its quantity and total are finite Numbers and its unit price is
    represented exactly. *)
Lemma order_value_exact (d : order) :
  code_unitsb (customerName d) = true -> code_unitsb (phoneNumber d) = true ->
  code_unitsb (hamburgerType d) = true ->
  is_finite (quantity d) && is_binary64 (quantity d) = true ->
  code_unitsb (specialInstructions d) = true ->
  json_exact (unitPrice d) = true ->
  is_finite (totalPrice d) && is_binary64 (totalPrice d) = true ->
  code_unitsb (status d) = true -> code_unitsb (orderDate d) = true ->
  code_unitsb (orderId d) = true ->
  json_exact (order_value d) = true.
Proof.
  intros H1 H2 H3 H4 H5 H6 H7 H8 H9 H10.
  unfold order_value. cbn [json_exact forallb fst snd].
  rewrite H1, H2, H3, H4, H5, H6, H7, H8, H9, H10. vm_compute. reflexivity.
Qed.

(** C5, as stated, fails when the user agent refuses the write: the error
    is swallowed, the confirmed order is in memory only, and the reloaded
    page finds no orders. *)
Lemma C5_counterexample_refused_write :
  orders (run (start storage_without_room)
            [Submit three_classic_burgers; ClickConfirmOrder])
  = VArr [order_value draft_BC1001] /\
  orders (run (start storage_without_room)
            [Submit three_classic_burgers; ClickConfirmOrder; Reload])
  = VArr [].
Proof. vm_compute. split; reflexivity. Qed.

(** C5: when the order sequence and the draft are values that JSON
    represents exactly (finite Numbers, strings, no function) and the user
    agent accepts the write, confirming the draft and loading the page again
    gives the sequence with the draft's order in front: the first element is
    the order with every property as it was, Numbers still Numbers, followed
    by the orders that were there before, so the length is one greater. *)
Theorem C5_confirmed_order_is_loaded_back (w : world) (d : order) (l : list value) :
  currentOrder w = Some d ->
  orders w = VArr l ->
  json_exact (VArr (order_value d :: l)) = true ->
  blocked (storage w) = false ->
  fits (quota (storage w))
    (<[ORDERS_KEY := json_text (VArr (order_value d :: l))]> (items (storage w))) = true ->
  orders (run w [ClickConfirmOrder; Reload]) = VArr (order_value d :: l).
Proof.
  intros Hd Ho Hex Hb Hf.
  change (run w [ClickConfirmOrder; Reload])
    with (step (step w ClickConfirmOrder) Reload).
  rewrite (step_confirm_draft w d l Hd Ho).
  destruct (parse_stringify _ Hex) as [Hser Hparse]. rewrite Hser.
  unfold step, handle. cbn [snd storage]. rewrite start_eq. cbn [orders].
  unfold loaded_orders, getItem.
  rewrite try_set_blocked, Hb, try_set_accepted by assumption.
  assert (Ht : JsString.truthy (json_text (VArr (order_value d :: l))) = true)
    by reflexivity.
  now rewrite Ht, Hparse.
Qed.

(** C5 at a concrete state: the first order of a fresh installation. *)
Lemma C5_witness_first_order :
  orders (run awaiting_confirmation [ClickConfirmOrder; Reload])
  = VArr (order_value draft_BC1001 :: []).
Proof.
  apply (C5_confirmed_order_is_loaded_back awaiting_confirmation draft_BC1001 []).
  - vm_compute. reflexivity.
  - vm_compute. reflexivity.
  - vm_compute. reflexivity.
  - vm_compute. reflexivity.
  - reflexivity.
Defined.

(** * Further methods of the page *)

(** ** Validation while typing *)

Module LiveValidation.

(** The inputs that carry their own error message. *)
Inductive field := CustomerNameField | PhoneNumberField.

(** What a validator asks of the page: [showFieldError(field, message)] or
    [clearFieldError(field)]. *)
Inductive feedback :=
| ShowFieldError (target : field) (message : field_error)
| ClearFieldError (target : field).

(** [validateField(field)] on an input holding [v]: the result and the
    feedback requested. *)
Definition validateField (target : field) (v : jsstring) : bool * list feedback :=
  if JsString.truthy (trim v) then (true, [ClearFieldError target]) else (false, []).

(** [validatePhoneNumber()] on a phone input holding [v]. *)
Definition validatePhoneNumber (v : jsstring) : bool * list feedback :=
  let phoneValue := trim v in
  if JsString.truthy phoneValue && isValidPhoneNumber phoneValue
  then (true, [ClearFieldError PhoneNumberField])
  else if JsString.truthy phoneValue
       then (false, [ShowFieldError PhoneNumberField PhoneInvalid])
       else (false, []).

End LiveValidation.
Export LiveValidation.

(** ** Utility functions *)

Module Utilities.

(** [s.replace(/\D/g, '')]: every match of [\D] is a single code unit that
    is not an ASCII digit, and each is replaced by the empty string. *)
Definition replace_non_digits_global (s : jsstring) : jsstring :=
  List.filter isDigit s.

(** [/^(\d{3})(\d{3})(\d{4})$/].  The three groups are quantifiers of fixed
    width: when the expression matches, group 1 is code units 0 to 2 of the
    input, group 2 is code units 3 to 5 and group 3 is code units 6 to 9. *)
Definition tenDigitsRegex : pattern :=
  Seq AssertStart
    (Seq (Quant (CharClass [ClassDigit]) 3 (Some 3%nat))
      (Seq (Quant (CharClass [ClassDigit]) 3 (Some 3%nat))
        (Seq (Quant (CharClass [ClassDigit]) 4 (Some 4%nat))
          AssertEnd))).

(** [formatPhoneNumber(phone)] *)
Definition formatPhoneNumber (phone : jsstring) : jsstring :=
  let cleaned := replace_non_digits_global phone in
  if test tenDigitsRegex cleaned
  then js "(" ++ take 3 cleaned ++ js ") " ++ take 3 (drop 3 cleaned)
       ++ js "-" ++ take 4 (drop 6 cleaned)
  else phone.

End Utilities.
Export Utilities.

(** ** White space and the validators *)

Lemma filter_trimStart (p : codeunit -> bool) (s : jsstring) :
  (forall c, isWhiteSpace c = true -> p c = false) ->
  List.filter p (trimStart s) = List.filter p s.
Proof.
  intros Hp. induction s as [|c s IH]; [reflexivity|].
  cbn [trimStart]. destruct (isWhiteSpace c) eqn:Hc; [|reflexivity].
  cbn [List.filter]. now rewrite (Hp c Hc).
Qed.

Lemma filter_rev_list (p : codeunit -> bool) (s : jsstring) :
  List.filter p (rev s) = rev (List.filter p s).
Proof.
  induction s as [|c s IH]; [reflexivity|].
  cbn [rev List.filter]. rewrite List.filter_app, IH. cbn [List.filter].
  destruct (p c); [reflexivity | now rewrite app_nil_r].
Qed.

Lemma filter_trim (p : codeunit -> bool) (s : jsstring) :
  (forall c, isWhiteSpace c = true -> p c = false) ->
  List.filter p (trim s) = List.filter p s.
Proof.
  intros Hp. unfold trim, trimEnd.
  rewrite filter_rev_list, filter_trimStart, filter_rev_list, rev_involutive by exact Hp.
  now apply filter_trimStart.
Qed.

Lemma stripped_trim (s : jsstring) :
  replace_whitespace_global (trim s) = replace_whitespace_global s.
Proof.
  apply filter_trim. intros c Hc. now rewrite Hc.
Qed.

Lemma isValidPhoneNumber_trim (s : jsstring) :
  isValidPhoneNumber (trim s) = isValidPhoneNumber s.
Proof. unfold isValidPhoneNumber. now rewrite stripped_trim. Qed.

(** What [trimStart] leaves does not start with white space. *)
Lemma trimStart_head (s : jsstring) :
  match trimStart s with c :: _ => isWhiteSpace c = false | [] => True end.
Proof.
  induction s as [|c s IH]; [exact I|]. cbn [trimStart].
  destruct (isWhiteSpace c) eqn:Hc; [exact IH | exact Hc].
Qed.

Lemma trimStart_fixed (s : jsstring) :
  match s with c :: _ => isWhiteSpace c = false | [] => True end -> trimStart s = s.
Proof. destruct s as [|c s]; [reflexivity|]. cbn [trimStart]. now intros ->. Qed.

(** [trimStart] keeps a suffix. *)
Lemma trimStart_suffix (s : jsstring) : exists pre, s = pre ++ trimStart s.
Proof.
  induction s as [|c s [pre IH]]; [now exists []|]. cbn [trimStart].
  destruct (isWhiteSpace c); [|now exists []].
  exists (c :: pre). cbn [app]. now rewrite <- IH.
Qed.

Lemma trim_head (s : jsstring) :
  match trim s with c :: _ => isWhiteSpace c = false | [] => True end.
Proof.
  unfold trim, trimEnd. pose proof (trimStart_head s) as Hhead.
  destruct (trimStart_suffix (rev (trimStart s))) as [pre Hpre].
  apply (f_equal (@rev codeunit)) in Hpre.
  rewrite rev_involutive, rev_app_distr in Hpre.
  destruct (rev (trimStart (rev (trimStart s)))) as [|c tl]; [exact I|].
  rewrite Hpre in Hhead. exact Hhead.
Qed.

Lemma trim_last (s : jsstring) :
  match rev (trim s) with c :: _ => isWhiteSpace c = false | [] => True end.
Proof.
  unfold trim, trimEnd. rewrite rev_involutive. apply trimStart_head.
Qed.

(** Trimming twice is trimming once. *)
Lemma trim_trim (s : jsstring) : trim (trim s) = trim s.
Proof.
  unfold trim at 1. rewrite (trimStart_fixed (trim s)) by apply trim_head.
  unfold trimEnd. rewrite (trimStart_fixed (rev (trim s))) by apply trim_last.
  apply rev_involutive.
Qed.

(** ** The ten-digit expression *)

Lemma anchored_exec_later (r : pattern) (s : jsstring) (i : nat) :
  i <> 0%nat -> exec_from (Seq AssertStart r) i s = false.
Proof.
  revert i. induction s as [|c tl IH]; intros i Hi; cbn [exec_from compile endIndex];
    replace (Nat.eqb i 0) with false by (symmetry; apply Nat.eqb_neq; exact Hi).
  - reflexivity.
  - now rewrite IH by lia.
Qed.

(** An expression that starts with [^] matches at index 0 or not at all. *)
Lemma anchored_test (r : pattern) (s : jsstring) :
  test (Seq AssertStart r) s = compile r {| endIndex := 0; rest := s |} (fun _ => true).
Proof.
  unfold test. destruct s as [|c tl]; cbn [exec_from compile endIndex Nat.eqb].
  - apply orb_false_r.
  - rewrite anchored_exec_later by lia. apply orb_false_r.
Qed.

(** A class repeated exactly [k] times takes the next [k] code units. *)
Lemma quant_class_exact (cls : list class_atom) (k : nat) (r : pattern)
    (i : nat) (s : jsstring) (c : continuation) :
  compile (Seq (Quant (CharClass cls) k (Some k)) r) {| endIndex := i; rest := s |} c = true <->
  (k <= length s)%nat /\ forallb (class_matches cls) (take k s) = true /\
  compile r {| endIndex := i + k; rest := drop k s |} c = true.
Proof.
  change (compile (Seq (Quant (CharClass cls) k (Some k)) r) {| endIndex := i; rest := s |} c)
    with (repeatMatcher (compile (CharClass cls)) (S (k + length s)) k (Some k)
            {| endIndex := i; rest := s |} (fun y => compile r y c)).
  rewrite repeat_class by (cbn [rest]; first [lia | intros m [= <-]; lia]).
  cbn [rest endIndex]. split.
  - intros (n & Hmin & Hmax & Hlen & Hall & Hc). specialize (Hmax _ eq_refl).
    assert (n = k) as -> by lia. auto.
  - intros (Hlen & Hall & Hc). exists k. repeat split; auto. intros m [= <-]. lia.
Qed.

Lemma class_digit_all (s : jsstring) :
  forallb (class_matches [ClassDigit]) s = forallb isDigit s.
Proof.
  induction s as [|c s IH]; [reflexivity|]. cbn [forallb]. rewrite IH.
  unfold class_matches. cbn [existsb atom_matches]. now rewrite orb_false_r.
Qed.

Lemma tenDigits_test (s : jsstring) :
  test tenDigitsRegex s = Nat.eqb (length s) 10 && forallb isDigit s.
Proof.
  unfold tenDigitsRegex. rewrite anchored_test. apply eq_true_iff_eq.
  rewrite !quant_class_exact, !class_digit_all, andb_true_iff, Nat.eqb_eq.
  rewrite !length_drop. cbn [compile rest].
  split.
  - intros (H1 & D1 & H2 & D2 & H3 & D3 & Hend).
    destruct (drop 4 (drop 3 (drop 3 s))) as [|x xs] eqn:Hdrop; [|discriminate].
    apply (f_equal length) in Hdrop. rewrite !length_drop in Hdrop. cbn [length] in Hdrop.
    split; [lia|].
    rewrite <- (take_drop 3 s), forallb_app, D1.
    rewrite <- (take_drop 3 (drop 3 s)), forallb_app, D2.
    rewrite <- (take_drop 4 (drop 3 (drop 3 s))), forallb_app, D3.
    rewrite drop_ge by (rewrite !length_drop; lia). reflexivity.
  - intros [Hlen Hall].
    assert (Hpart : forall n u, forallb isDigit u = true -> forallb isDigit (take n u) = true
                                /\ forallb isDigit (drop n u) = true).
    { intros n u Hu. rewrite <- (take_drop n u), forallb_app in Hu.
      now apply andb_true_iff in Hu. }
    destruct (Hpart 3%nat s Hall) as [D1 R1].
    destruct (Hpart 3%nat _ R1) as [D2 R2].
    destruct (Hpart 4%nat _ R2) as [D3 _].
    repeat split; try lia; try assumption.
    rewrite drop_ge by (rewrite !length_drop; lia). reflexivity.
Qed.

Lemma cleaned_digits (phone : jsstring) :
  forallb isDigit (replace_non_digits_global phone) = true.
Proof.
  unfold replace_non_digits_global. induction phone as [|c s IH]; [reflexivity|].
  cbn [List.filter]. destruct (isDigit c) eqn:Hc; [|exact IH].
  cbn [forallb]. now rewrite Hc, IH.
Qed.

Lemma filter_all (p : codeunit -> bool) (s : jsstring) :
  forallb p s = true -> List.filter p s = s.
Proof.
  induction s as [|c s IH]; [reflexivity|]. cbn [forallb List.filter].
  intros [Hc Hs]%andb_true_iff. now rewrite Hc, IH.
Qed.

(** [formatPhoneNumber] by the number of digits in its input. *)
Lemma formatPhoneNumber_eq (phone : jsstring) :
  formatPhoneNumber phone =
  if Nat.eqb (length (replace_non_digits_global phone)) 10
  then js "(" ++ take 3 (replace_non_digits_global phone) ++ js ") "
       ++ take 3 (drop 3 (replace_non_digits_global phone))
       ++ js "-" ++ take 4 (drop 6 (replace_non_digits_global phone))
  else phone.
Proof.
  unfold formatPhoneNumber. cbv zeta.
  now rewrite tenDigits_test, cleaned_digits, andb_true_r.
Qed.

Lemma ten_elements (s : jsstring) :
  length s = 10%nat ->
  exists a b c d e f g h i j, s = [a; b; c; d; e; f; g; h; i; j].
Proof.
  intros H.
  do 10 (destruct s as [|? s]; [discriminate|]).
  destruct s; [|discriminate]. repeat eexists.
Qed.

(** ** Properties of the validators *)

(** X1: the validators that run while typing agree with the validation on
    submit.  The form is valid exactly when [validateField] accepts the name,
    [validatePhoneNumber] accepts the phone and a burger is selected; the
    phone validator asks for the invalid-phone message exactly when submit
    reports it; and on a blank phone it asks for nothing (it neither shows
    nor clears a message) while submit reports the phone as required. *)
Theorem X1_live_validation_agrees_with_submit (f : form) :
  (validateForm f = true <->
   fst (validateField CustomerNameField (customerNameInput f)) = true /\
   fst (validatePhoneNumber (phoneNumberInput f)) = true /\
   selectedBurger f <> None) /\
  (snd (validatePhoneNumber (phoneNumberInput f))
   = [ShowFieldError PhoneNumberField PhoneInvalid]
   <-> In PhoneInvalid (form_errors f)) /\
  (snd (validatePhoneNumber (phoneNumberInput f)) = []
   <-> In PhoneRequired (form_errors f)).
Proof.
  unfold validateForm, form_errors, validateField, validatePhoneNumber. cbv zeta.
  rewrite isValidPhoneNumber_trim.
  destruct (JsString.truthy (trim (customerNameInput f)));
    destruct (JsString.truthy (trim (phoneNumberInput f)));
    destruct (isValidPhoneNumber (phoneNumberInput f));
    destruct (selectedBurger f); cbn;
    repeat split; try tauto; try congruence; try discriminate;
    intuition (try discriminate; try congruence).
Qed.

Definition phone_character (c : codeunit) : bool :=
  isDigit c || isWhiteSpace c || (c =? ch "+")%N || (c =? ch "(")%N
  || (c =? ch ")")%N || (c =? ch "-")%N.

Lemma forallb_weaken (p q : codeunit -> bool) (s : jsstring) :
  (forall c, p c = true -> q c = true) -> forallb p s = true -> forallb q s = true.
Proof.
  intros Hpq. induction s as [|c s IH]; [reflexivity|]. cbn [forallb].
  intros [Hc Hs]%andb_true_iff. now rewrite (Hpq c Hc), IH.
Qed.

Lemma forallb_stripped (q : codeunit -> bool) (s : jsstring) :
  (forall c, isWhiteSpace c = true -> q c = true) ->
  forallb q (replace_whitespace_global s) = true -> forallb q s = true.
Proof.
  intros Hq. unfold replace_whitespace_global.
  induction s as [|c s IH]; [reflexivity|]. cbn [List.filter forallb].
  destruct (isWhiteSpace c) eqn:Hc; cbn [negb].
  - intros H. now rewrite (Hq c Hc), IH.
  - cbn [forallb]. intros [H1 H2]%andb_true_iff. now rewrite H1, IH.
Qed.

(** X2: a phone number that [isValidPhoneNumber] accepts holds nothing but
    digits, white space and the marks [+ ( ) -], it holds at least one
    character that is not white space, and a [+] can only be the first of
    those. *)
Theorem X2_accepted_phone_characters (phone : jsstring) :
  isValidPhoneNumber phone = true ->
  forallb phone_character phone = true /\
  match replace_whitespace_global phone with
  | [] => False
  | _ :: tl => forallb (fun c => negb (c =? ch "+")%N) tl = true
  end.
Proof.
  rewrite isValidPhoneNumber_rules. intros H.
  assert (Hdigit : forall c, isDigit c = true -> negb (c =? ch "+")%N = true).
  { intros c Hc. unfold isDigit in Hc. apply andb_true_iff in Hc as [H1 _].
    apply N.leb_le in H1. apply negb_true_iff, N.eqb_neq.
    change (ch "+") with 43%N. lia. }
  assert (Hshape :
    forallb phone_character (replace_whitespace_global phone) = true /\
    match replace_whitespace_global phone with
    | [] => False
    | _ :: tl => forallb (fun c => negb (c =? ch "+")%N) tl = true
    end).
  { destruct (replace_whitespace_global phone) as [|c tl] eqn:Ht.
    - discriminate.
    - apply orb_true_iff in H as [Ha|Hb].
      + unfold Spec.phone_rule_a in Ha.
        destruct (c =? ch "+")%N eqn:Hplus.
        * destruct tl as [|d ds]; [discriminate|].
          apply andb_true_iff in Ha as [Ha _]. apply andb_true_iff in Ha as [Hd Hds].
          assert (Hd' : isDigit d = true).
          { unfold isDigit. apply andb_true_iff in Hd as [H1 H2].
            apply N.leb_le in H1. apply N.leb_le in H2.
            change (ch "1") with 49%N in H1. change (ch "9") with 57%N in H2.
            apply andb_true_iff; split; apply N.leb_le; lia. }
          split.
          -- cbn [forallb]. unfold phone_character at 1. rewrite Hplus.
             unfold phone_character at 1. rewrite Hd'.
             rewrite !orb_true_r. cbn [orb andb].
             apply (forallb_weaken isDigit); [|exact Hds].
             intros x Hx. unfold phone_character. now rewrite Hx.
          -- cbn [forallb]. rewrite (Hdigit d Hd'). cbn [andb].
             now apply (forallb_weaken isDigit).
        * apply andb_true_iff in Ha as [Ha _]. apply andb_true_iff in Ha as [Hd Hds].
          assert (Hd' : isDigit c = true).
          { unfold isDigit. apply andb_true_iff in Hd as [H1 H2].
            apply N.leb_le in H1. apply N.leb_le in H2.
            change (ch "1") with 49%N in H1. change (ch "9") with 57%N in H2.
            apply andb_true_iff; split; apply N.leb_le; lia. }
          split.
          -- cbn [forallb]. unfold phone_character at 1. rewrite Hd'. cbn [orb andb].
             apply (forallb_weaken isDigit); [|exact Hds].
             intros x Hx. unfold phone_character. now rewrite Hx.
          -- now apply (forallb_weaken isDigit).
      + unfold Spec.phone_rule_b in Hb. apply andb_true_iff in Hb as [_ Hb].
        split.
        * apply (forallb_weaken _ phone_character) in Hb; [exact Hb|].
          intros x Hx. unfold phone_character.
          destruct (isDigit x), (x =? ch "(")%N, (x =? ch ")")%N, (x =? ch "-")%N;
            try discriminate; rewrite ?orb_true_r; reflexivity.
        * cbn [forallb] in Hb. apply andb_true_iff in Hb as [_ Hb].
          apply (forallb_weaken _ (fun c => negb (c =? ch "+")%N)) in Hb; [exact Hb|].
          intros x Hx. destruct (N.eqb_spec x (ch "+")) as [->|]; [discriminate|reflexivity]. }
  destruct Hshape as [Hall Hplus]. split; [|exact Hplus].
  apply forallb_stripped; [|exact Hall].
  intros c Hc. unfold phone_character. rewrite Hc. now rewrite orb_true_r.
Qed.

Lemma X2_witness_formatted_number :
  forallb phone_character (js "(555) 123-4567") = true /\
  match replace_whitespace_global (js "(555) 123-4567") with
  | [] => False
  | _ :: tl => forallb (fun c => negb (c =? ch "+")%N) tl = true
  end.
Proof.
  apply (X2_accepted_phone_characters (js "(555) 123-4567")).
  vm_compute. reflexivity.
Defined.

(** ** Properties of [formatPhoneNumber] *)

(** X3: [formatPhoneNumber] looks at the digits of its input only.  When
    there are exactly ten, the result is [(ddd) ddd-dddd] made of those
    digits in order, whatever else the input held; in every other case the
    input is returned as it is. *)
Theorem X3_formatPhoneNumber_shape (phone : jsstring) :
  formatPhoneNumber phone =
  match replace_non_digits_global phone with
  | [a; b; c; d; e; f; g; h; i; j] =>
      [ch "("; a; b; c; ch ")"; ch " "; d; e; f; ch "-"; g; h; i; j]
  | _ => phone
  end.
Proof.
  rewrite formatPhoneNumber_eq.
  destruct (Nat.eqb_spec (length (replace_non_digits_global phone)) 10) as [Hlen|Hlen].
  - destruct (ten_elements _ Hlen) as (a & b & c & d & e & f & g & h & i & j & ->).
    reflexivity.
  - destruct (replace_non_digits_global phone)
      as [|a [|b [|c [|d [|e [|f [|g [|h [|i [|j [|k tl]]]]]]]]]]]; try reflexivity.
    now cbn in Hlen.
Qed.

Lemma cleaned_formatted (phone : jsstring) :
  replace_non_digits_global (formatPhoneNumber phone) = replace_non_digits_global phone.
Proof.
  rewrite formatPhoneNumber_eq.
  destruct (Nat.eqb_spec (length (replace_non_digits_global phone)) 10) as [Hlen|Hlen];
    [|reflexivity].
  pose proof (cleaned_digits phone) as Hd.
  destruct (ten_elements _ Hlen) as (a & b & c & d & e & f & g & h & i & j & Heq).
  rewrite Heq in Hd |- *. cbn [forallb] in Hd.
  repeat (apply andb_true_iff in Hd as [? Hd]).
  cbn [take drop firstn skipn app js List.map list_ascii_of_string].
  unfold replace_non_digits_global. cbn [List.filter].
  repeat match goal with H : isDigit _ = true |- _ => rewrite H; clear H end.
  reflexivity.
Qed.

(** X4: formatting keeps the digits of the input, in order, and formatting
    twice is formatting once. *)
Theorem X4_formatPhoneNumber_idempotent (phone : jsstring) :
  replace_non_digits_global (formatPhoneNumber phone) = replace_non_digits_global phone /\
  formatPhoneNumber (formatPhoneNumber phone) = formatPhoneNumber phone.
Proof.
  split; [apply cleaned_formatted|].
  rewrite (formatPhoneNumber_eq (formatPhoneNumber phone)), cleaned_formatted.
  rewrite (formatPhoneNumber_eq phone) at 2.
  destruct (Nat.eqb (length (replace_non_digits_global phone)) 10) eqn:Hlen;
    [reflexivity|].
  rewrite formatPhoneNumber_eq, Hlen. reflexivity.
Qed.

(** X5: what [formatPhoneNumber] returns for an input with exactly ten
    digits is accepted by [isValidPhoneNumber], and formatting never turns an
    accepted number into a rejected one. *)
Theorem X5_formatted_number_is_valid (phone : jsstring) :
  length (replace_non_digits_global phone) = 10%nat \/ isValidPhoneNumber phone = true ->
  isValidPhoneNumber (formatPhoneNumber phone) = true.
Proof.
  rewrite formatPhoneNumber_eq.
  destruct (Nat.eqb_spec (length (replace_non_digits_global phone)) 10) as [Hlen|Hlen];
    [intros _ | now intros [Habs|Hvalid]].
  pose proof (cleaned_digits phone) as Hd.
  set (cl := replace_non_digits_global phone) in *.
  assert (Hpart : forall n u, forallb isDigit u = true ->
            forallb isDigit (take n u) = true /\ forallb isDigit (drop n u) = true).
  { intros n u Hu. rewrite <- (take_drop n u), forallb_app in Hu.
    now apply andb_true_iff in Hu. }
  assert (Ha : forallb isDigit (take 3 cl) = true) by apply (Hpart 3%nat cl Hd).
  assert (Hb : forallb isDigit (take 3 (drop 3 cl)) = true)
    by (apply Hpart, (Hpart 3%nat cl Hd)).
  assert (Hc : forallb isDigit (take 4 (drop 6 cl)) = true)
    by (apply Hpart, (Hpart 6%nat cl Hd)).
  assert (Hkeep : forall u, forallb isDigit u = true -> replace_whitespace_global u = u).
  { intros u Hu. apply filter_all. revert Hu. apply forallb_weaken.
    intros x Hx. unfold isDigit in Hx. apply andb_true_iff in Hx as [Hlo Hhi].
    apply N.leb_le in Hlo. apply N.leb_le in Hhi. apply negb_true_iff.
    unfold isWhiteSpace.
    repeat (apply orb_false_iff; split);
      rewrite ?andb_false_iff, ?N.leb_gt, ?N.eqb_neq; lia. }
  assert (Hcls : forall u, forallb isDigit u = true ->
            forallb (fun c => isDigit c || (c =? ch "(")%N || (c =? ch ")")%N
                              || (c =? ch "-")%N) u = true).
  { intros u. apply forallb_weaken. now intros x ->. }
  rewrite isValidPhoneNumber_rules. apply orb_true_iff. right.
  unfold replace_whitespace_global at 1.
  rewrite !List.filter_app.
  fold (replace_whitespace_global (take 3 cl)).
  fold (replace_whitespace_global (take 3 (drop 3 cl))).
  fold (replace_whitespace_global (take 4 (drop 6 cl))).
  rewrite (Hkeep _ Ha), (Hkeep _ Hb), (Hkeep _ Hc).
  change (List.filter (fun c => negb (isWhiteSpace c)) (js "(")) with (js "(").
  change (List.filter (fun c => negb (isWhiteSpace c)) (js ") ")) with (js ")").
  change (List.filter (fun c => negb (isWhiteSpace c)) (js "-")) with (js "-").
  unfold Spec.phone_rule_b. apply andb_true_iff. split.
  - apply Nat.leb_le. rewrite !length_app, !length_take, !length_drop, Hlen.
    cbn [length js List.map list_ascii_of_string]. lia.
  - rewrite !forallb_app, (Hcls _ Ha), (Hcls _ Hb), (Hcls _ Hc). reflexivity.
Qed.

Lemma X5_witness_dotted_number :
  isValidPhoneNumber (formatPhoneNumber (js "555.123.4567")) = true.
Proof.
  apply (X5_formatted_number_is_valid (js "555.123.4567")).
  left. vm_compute. reflexivity.
Defined.

(** ** What a submit builds *)

Lemma validateForm_parts (f : form) :
  validateForm f = true <->
  JsString.truthy (trim (customerNameInput f)) = true /\
  JsString.truthy (trim (phoneNumberInput f)) = true /\
  isValidPhoneNumber (phoneNumberInput f) = true /\
  selectedBurger f <> None.
Proof.
  unfold validateForm, form_errors.
  destruct (JsString.truthy (trim (customerNameInput f)));
    destruct (JsString.truthy (trim (phoneNumberInput f)));
    destruct (isValidPhoneNumber (phoneNumberInput f));
    destruct (selectedBurger f); cbn; intuition (try discriminate; try congruence).
Qed.

Lemma truthy_nonempty (s : jsstring) : JsString.truthy s = true <-> s <> [].
Proof. destruct s; cbn; split; congruence. Qed.

(** X6: the draft built by a valid submit carries the trimmed name and
    phone, neither empty nor with white space around it, a phone that the
    validator accepts as stored, instructions that are never empty (the text
    None stands for a blank entry), the selected burger and the clock
    reading. *)
Theorem X6_built_order_fields (w : world) (f : form) :
  validateForm f = true ->
  exists d,
    currentOrder (step w (Submit f)) = Some d /\
    customerName d = trim (customerNameInput f) /\
    customerName d <> [] /\ trim (customerName d) = customerName d /\
    phoneNumber d = trim (phoneNumberInput f) /\
    phoneNumber d <> [] /\ trim (phoneNumber d) = phoneNumber d /\
    isValidPhoneNumber (phoneNumber d) = true /\
    specialInstructions d <> [] /\
    (trim (specialInstructionsTextarea f) = [] -> specialInstructions d = js "None") /\
    selectedBurger f = Some (hamburgerType d) /\
    orderDate d = now f.
Proof.
  intros Hv. destruct (validateForm_selected f Hv) as [burger Hb].
  apply validateForm_parts in Hv as Hparts.
  destruct Hparts as (Hname & Hphone & Hvalid & _).
  rewrite (step_submit_valid w f burger Hv Hb). eexists. split; [reflexivity|].
  cbn [customerName phoneNumber specialInstructions hamburgerType orderDate built_order].
  rewrite !trim_trim, isValidPhoneNumber_trim.
  apply truthy_nonempty in Hname. apply truthy_nonempty in Hphone.
  repeat split; try assumption.
  - destruct (JsString.truthy (trim (specialInstructionsTextarea f))) eqn:Hi.
    + now apply truthy_nonempty.
    + discriminate.
  - intros ->. reflexivity.
Qed.

Lemma X6_witness_three_classic_burgers :
  exists d,
    currentOrder (step (start empty_storage) (Submit three_classic_burgers)) = Some d /\
    customerName d = trim (customerNameInput three_classic_burgers) /\
    customerName d <> [] /\ trim (customerName d) = customerName d /\
    phoneNumber d = trim (phoneNumberInput three_classic_burgers) /\
    phoneNumber d <> [] /\ trim (phoneNumber d) = phoneNumber d /\
    isValidPhoneNumber (phoneNumber d) = true /\
    specialInstructions d <> [] /\
    (trim (specialInstructionsTextarea three_classic_burgers) = [] ->
     specialInstructions d = js "None") /\
    selectedBurger three_classic_burgers = Some (hamburgerType d) /\
    orderDate d = now three_classic_burgers.
Proof.
  apply (X6_built_order_fields (start empty_storage) three_classic_burgers).
  vm_compute. reflexivity.
Defined.

(** X7: a submit with a blank name, a blank phone, a phone the validator
    rejects or no burger selected changes nothing: no order id is used up,
    nothing is written to storage, no draft is kept and no dialog opens. *)
Theorem X7_invalid_submit_changes_nothing (w : world) (f : form) :
  trim (customerNameInput f) = [] \/ trim (phoneNumberInput f) = [] \/
  isValidPhoneNumber (phoneNumberInput f) = false \/ selectedBurger f = None ->
  step w (Submit f) = w.
Proof.
  intros H. apply step_submit_invalid.
  destruct (validateForm f) eqn:Hv; [|reflexivity].
  apply validateForm_parts in Hv as (Hname & Hphone & Hvalid & Hsel).
  apply truthy_nonempty in Hname. apply truthy_nonempty in Hphone.
  destruct H as [H|[H|[H|H]]]; congruence.
Qed.

Definition blank_name_form : form :=
  {| customerNameInput := js "   ";
     phoneNumberInput := js "(555) 123-4567";
     selectedBurger := Some (js "Classic Beef Burger");
     quantitySelect := js "1";
     specialInstructionsTextarea := js "";
     now := js "2024-05-01T12:00:00.000Z" |}.

Lemma X7_witness_blank_name :
  step (start empty_storage) (Submit blank_name_form) = start empty_storage.
Proof.
  apply (X7_invalid_submit_changes_nothing (start empty_storage) blank_name_form).
  left. vm_compute. reflexivity.
Defined.

(** ** The draft and the confirmation dialog *)

Lemma step_close_success (w : world) (ev : event) :
  ev = ClickCloseSuccessModal \/ ev = ClickOutsideSuccess ->
  step w ev =
  {| orders := orders w; orderCounter := orderCounter w; currentOrder := currentOrder w;
     confirmationActive := confirmationActive w; successActive := false;
     storage := storage w |}.
Proof. intros [-> | ->]; reflexivity. Qed.

Lemma step_escape (w : world) :
  step w KeyEscape =
  {| orders := orders w; orderCounter := orderCounter w;
     currentOrder := if confirmationActive w then None else currentOrder w;
     confirmationActive := false; successActive := false;
     storage := storage w |}.
Proof.
  destruct w as [o c cur ca sa st]. unfold step, handle, mbind, M_bind, read.
  cbn [confirmationActive successActive orders orderCounter currentOrder storage].
  destruct ca, sa; reflexivity.
Qed.

Lemma step_reload (w : world) : step w Reload = start (storage w).
Proof. reflexivity. Qed.

(** Every event, by what it does to the fields of the instance. *)
Lemma step_cases (w : world) (ev : event) :
  step w ev = w \/
  (exists f burger, ev = Submit f /\ validateForm f = true /\ selectedBurger f = Some burger /\
     step w ev =
     {| orders := orders w;
        orderCounter := add (orderCounter w) (of_Z 1);
        currentOrder :=
          Some (built_order f burger
                  (js "BC" ++ padStart (toString (add (orderCounter w) (of_Z 1))) 4 (ch "0")));
        confirmationActive := true;
        successActive := successActive w;
        storage := try_set (storage w) COUNTER_KEY
                     (toString (add (orderCounter w) (of_Z 1))) |}) \/
  (step w ev =
   {| orders := orders w; orderCounter := orderCounter w; currentOrder := None;
      confirmationActive := false; successActive := successActive w;
      storage := storage w |}) \/
  (exists d l, ev = ClickConfirmOrder /\ currentOrder w = Some d /\ orders w = VArr l /\
     step w ev =
     {| orders := VArr (order_value d :: l);
        orderCounter := orderCounter w;
        currentOrder := None;
        confirmationActive := false;
        successActive := true;
        storage := try_set (storage w) ORDERS_KEY
                     (match stringify (VArr (order_value d :: l)) with
                      | Some text => text
                      | None => js "undefined"
                      end) |}) \/
  (step w ev =
   {| orders := orders w; orderCounter := orderCounter w; currentOrder := currentOrder w;
      confirmationActive := confirmationActive w; successActive := false;
      storage := storage w |}) \/
  (ev = KeyEscape /\ step w ev =
   {| orders := orders w; orderCounter := orderCounter w;
      currentOrder := if confirmationActive w then None else currentOrder w;
      confirmationActive := false; successActive := false;
      storage := storage w |}) \/
  (ev = Reload /\ step w ev = start (storage w)).
Proof.
  destruct ev as [f| | | | | | | |].
  - destruct (validateForm f) eqn:Hv.
    + destruct (validateForm_selected f Hv) as [burger Hb].
      right; left. exists f, burger. repeat split; auto. now apply step_submit_valid.
    + left. now apply step_submit_invalid.
  - do 2 right; left. unfold step, handle. now rewrite closeConfirmationModal_eq.
  - do 2 right; left. unfold step, handle. now rewrite closeConfirmationModal_eq.
  - destruct (currentOrder w) as [d|] eqn:Hd.
    + destruct (orders w) as [ | | | |l| | ] eqn:Ho;
        try (left; apply (step_confirm_not_array w d Hd); rewrite Ho; discriminate).
      do 3 right; left. exists d, l. repeat split; auto. now apply step_confirm_draft.
    + left. now apply step_confirm_none.
  - do 4 right; left. apply step_close_success. now left.
  - do 2 right; left. unfold step, handle. now rewrite closeConfirmationModal_eq.
  - do 4 right; left. apply step_close_success. now right.
  - do 5 right; left. split; [reflexivity | apply step_escape].
  - do 6 right. split; reflexivity.
Qed.

(** The state a run reaches satisfies what the start satisfies and every
    event keeps. *)
Lemma run_invariant (P : world -> Prop) :
  (forall w ev, P w -> P (step w ev)) ->
  forall evs w, P w -> P (run w evs).
Proof.
  intros Hstep. induction evs as [|ev evs IH]; intros w Hw; [exact Hw|].
  change (run w (ev :: evs)) with (run (step w ev) evs). apply IH, Hstep, Hw.
Qed.

Definition draft_shown (w : world) : Prop :=
  currentOrder w = None <-> confirmationActive w = false.

Lemma start_draft_shown (st : localStorage) : draft_shown (start st).
Proof. rewrite start_eq. unfold draft_shown. cbn. tauto. Qed.

Lemma step_draft_shown (w : world) (ev : event) : draft_shown w -> draft_shown (step w ev).
Proof.
  unfold draft_shown. intros Hw.
  destruct (step_cases w ev)
    as [->|[(f & burger & _ & _ & _ & ->)|[->|[(d & l & _ & _ & _ & ->)|[->|[[_ ->]|[_ ->]]]]]]];
    cbn [currentOrder confirmationActive]; try tauto; try (split; congruence).
  - destruct (confirmationActive w); tauto.
  - apply start_draft_shown.
Qed.

(** X8: from page load on, after any events, a draft is outstanding
    exactly when the confirmation dialog is shown.  So the dialog never shows
    without an order behind it, the confirm button acts only while the dialog
    is shown, and Escape discards whatever draft there is. *)
Theorem X8_draft_iff_confirmation_shown (st : localStorage) (evs : list event) :
  (currentOrder (run (start st) evs) = None <->
   confirmationActive (run (start st) evs) = false) /\
  currentOrder (run (start st) (evs ++ [KeyEscape])) = None.
Proof.
  assert (H : draft_shown (run (start st) evs)).
  { apply (run_invariant draft_shown); [apply step_draft_shown | apply start_draft_shown]. }
  split; [exact H|].
  unfold run. rewrite fold_left_app. cbn [fold_left]. fold (run (start st) evs).
  rewrite step_escape. cbn [currentOrder]. unfold draft_shown in H.
  destruct (confirmationActive (run (start st) evs)); [reflexivity | now apply H].
Qed.

(** ** What the application writes *)

(** The storage after an event: as before, or after one write under one of
    the two keys. *)
Lemma step_storage (w : world) (ev : event) :
  storage (step w ev) = storage w \/
  exists key v, (key = ORDERS_KEY \/ key = COUNTER_KEY) /\
                storage (step w ev) = try_set (storage w) key v.
Proof.
  destruct (step_cases w ev)
    as [->|[(f & burger & _ & _ & _ & ->)|[->|[(d & l & _ & _ & _ & ->)|[->|[[_ ->]|[_ ->]]]]]]];
    cbn [storage].
  - now left.
  - right. eexists COUNTER_KEY, _. split; [now right | reflexivity].
  - now left.
  - right. eexists ORDERS_KEY, _. split; [now left | reflexivity].
  - now left.
  - now left.
  - left. now rewrite start_eq.
Qed.

Lemma try_set_keeps (st : localStorage) (key v k : jsstring) :
  is_Some (items st !! k) -> is_Some (items (try_set st key v) !! k).
Proof.
  intros Hk. unfold try_set, setItem. destruct (blocked st); [exact Hk|].
  destruct (fits _ _); [|exact Hk]. cbn [items].
  destruct (decide (key = k)) as [->|Hne].
  - rewrite lookup_insert_eq. eauto.
  - now rewrite lookup_insert_ne.
Qed.

(** X9: the application writes under its two keys only and removes
    nothing.  After any events, every other key of [localStorage] holds what
    it held before, and every key that was present is still present. *)
Theorem X9_only_two_keys_written (w : world) (evs : list event) (k : jsstring) :
  (k <> ORDERS_KEY -> k <> COUNTER_KEY ->
   items (storage (run w evs)) !! k = items (storage w) !! k) /\
  (is_Some (items (storage w) !! k) -> is_Some (items (storage (run w evs)) !! k)).
Proof.
  revert w. induction evs as [|ev evs IH]; intros w; [tauto|].
  change (run w (ev :: evs)) with (run (step w ev) evs).
  destruct (IH (step w ev)) as [IH1 IH2].
  destruct (step_storage w ev) as [Hst|(key & v & Hkey & Hst)]; rewrite Hst in IH1, IH2.
  - tauto.
  - split.
    + intros H1 H2. rewrite IH1 by assumption.
      apply try_set_other_key. destruct Hkey; congruence.
    + intros Hk. now apply IH2, try_set_keeps.
Qed.

(** ** Orders that cannot be read *)

(** [Array.isArray] *)
Definition is_array (v : value) : bool :=
  match v with VArr _ => true | _ => false end.

Lemma loaded_orders_same (st st' : localStorage) :
  blocked st' = blocked st -> items st' !! ORDERS_KEY = items st !! ORDERS_KEY ->
  loaded_orders st' = loaded_orders st.
Proof. intros Hb Hi. unfold loaded_orders, getItem. now rewrite Hb, Hi. Qed.

Lemma loaded_counter_same (st st' : localStorage) :
  blocked st' = blocked st -> items st' !! COUNTER_KEY = items st !! COUNTER_KEY ->
  loaded_counter st' = loaded_counter st.
Proof. intros Hb Hi. unfold loaded_counter, getItem. now rewrite Hb, Hi. Qed.

Definition stuck_on (st : localStorage) (w : world) : Prop :=
  orders w = loaded_orders st /\
  blocked (storage w) = blocked st /\
  items (storage w) !! ORDERS_KEY = items st !! ORDERS_KEY.

Lemma step_stuck_on (st : localStorage) (w : world) (ev : event) :
  is_array (loaded_orders st) = false -> stuck_on st w -> stuck_on st (step w ev).
Proof.
  unfold stuck_on. intros Hna (Ho & Hb & Hi).
  destruct (step_cases w ev)
    as [->|[(f & burger & _ & _ & _ & ->)|[->|[(d & l & _ & _ & Hl & ->)|[->|[[_ ->]|[_ ->]]]]]]];
    cbn [orders storage]; auto.
  - rewrite try_set_blocked, try_set_other_key by apply keys_differ. auto.
  - rewrite Hl in Ho. rewrite <- Ho in Hna. discriminate.
  - rewrite start_eq. cbn [orders storage].
    rewrite (loaded_orders_same st (storage w)) by assumption. auto.
Qed.

(** X10: when the stored orders text is valid JSON but not an array (an
    object, a number, a string, [null]), [orders] is that value from page
    load on and stays so whatever the user does: [unshift] throws on every
    confirm, so no order is ever added or saved, and the stored text is never
    replaced. *)
Theorem X10_stored_non_array_blocks_orders (st : localStorage) (evs : list event) :
  is_array (loaded_orders st) = false ->
  orders (run (start st) evs) = loaded_orders st /\
  items (storage (run (start st) evs)) !! ORDERS_KEY = items st !! ORDERS_KEY /\
  (forall d, currentOrder (run (start st) evs) = Some d ->
     step (run (start st) evs) ClickConfirmOrder = run (start st) evs).
Proof.
  intros Hna.
  assert (H : stuck_on st (run (start st) evs)).
  { apply (run_invariant (stuck_on st)).
    - intros w ev. now apply step_stuck_on.
    - rewrite start_eq. unfold stuck_on. cbn. auto. }
  destruct H as (Ho & Hb & Hi). repeat split; try assumption.
  intros d Hd. apply (step_confirm_not_array _ d Hd).
  intros l Hl. rewrite Ho in Hl. rewrite Hl in Hna. discriminate.
Qed.

Definition storage_with_object_for_orders : localStorage :=
  {| items := {[ ORDERS_KEY := js "{}" ]}; quota := None; blocked := false |}.

Lemma X10_witness_object_for_orders :
  orders (run (start storage_with_object_for_orders)
            [Submit three_classic_burgers; ClickConfirmOrder])
  = loaded_orders storage_with_object_for_orders /\
  items (storage (run (start storage_with_object_for_orders)
                    [Submit three_classic_burgers; ClickConfirmOrder])) !! ORDERS_KEY
  = items storage_with_object_for_orders !! ORDERS_KEY /\
  (forall d,
     currentOrder (run (start storage_with_object_for_orders)
                     [Submit three_classic_burgers; ClickConfirmOrder]) = Some d ->
     step (run (start storage_with_object_for_orders)
             [Submit three_classic_burgers; ClickConfirmOrder]) ClickConfirmOrder
     = run (start storage_with_object_for_orders)
         [Submit three_classic_burgers; ClickConfirmOrder]).
Proof.
  apply (X10_stored_non_array_blocks_orders storage_with_object_for_orders
           [Submit three_classic_burgers; ClickConfirmOrder]).
  vm_compute. reflexivity.
Defined.

(** X11: [loadOrdersFromStorage] never throws to its caller, and the page
    starts with an empty order list whenever the stored orders cannot be
    read: storage access is refused, the key is absent, the stored text is
    empty, or it is not valid JSON. *)
Theorem X11_unreadable_orders_load_as_empty (st : localStorage) :
  blocked st = true \/ items st !! ORDERS_KEY = None \/
  items st !! ORDERS_KEY = Some (js "") \/
  (exists text e, items st !! ORDERS_KEY = Some text /\ parse text = Throw e) ->
  loadOrdersFromStorage (page_load st) = (Normal (VArr []), page_load st) /\
  orders (start st) = VArr [].
Proof.
  intros H.
  assert (Hl : loaded_orders st = VArr []).
  { unfold loaded_orders, getItem.
    destruct H as [H|[H|[H|(text & e & H & Hp)]]].
    - now rewrite H.
    - rewrite H. now destruct (blocked st).
    - rewrite H. now destruct (blocked st).
    - rewrite H. destruct (blocked st); [reflexivity|]. cbv iota. rewrite Hp.
      now destruct (JsString.truthy text). }
  rewrite loadOrdersFromStorage_eq, start_eq. cbn [storage page_load orders].
  now rewrite Hl.
Qed.

Definition storage_with_truncated_orders : localStorage :=
  {| items := {[ ORDERS_KEY := js "[{" ]}; quota := None; blocked := false |}.

Lemma X11_witness_truncated_text :
  loadOrdersFromStorage (page_load storage_with_truncated_orders)
  = (Normal (VArr []), page_load storage_with_truncated_orders) /\
  orders (start storage_with_truncated_orders) = VArr [].
Proof.
  apply (X11_unreadable_orders_load_as_empty storage_with_truncated_orders).
  do 3 right. exists (js "[{"), SyntaxError. split; vm_compute; reflexivity.
Defined.

(** ** The counter through storage *)

(** X12: the counter survives a reload when its write is accepted.  With
    an integer counter [c] (below 2^53 - 1), a valid submit makes the counter
    [c + 1], stores its decimal digits, and a page loaded afterwards starts
    from [c + 1]. *)
Theorem X12_counter_round_trip (w : world) (f : form) (c : Z) :
  validateForm f = true ->
  orderCounter w = of_Z c -> 0 <= c -> c + 1 < 2 ^ 53 ->
  blocked (storage w) = false ->
  fits (quota (storage w)) (<[COUNTER_KEY := digits (c + 1)]> (items (storage w))) = true ->
  orderCounter (step w (Submit f)) = of_Z (c + 1) /\
  items (storage (step w (Submit f))) !! COUNTER_KEY = Some (digits (c + 1)) /\
  orderCounter (run w [Submit f; Reload]) = of_Z (c + 1).
Proof.
  intros Hv Hc Hc0 Hc1 Hb Hf.
  destruct (validateForm_selected f Hv) as [burger Hsel].
  change (run w [Submit f; Reload]) with (step (step w (Submit f)) Reload).
  rewrite step_reload, start_eq. cbn [orderCounter].
  rewrite (step_submit_valid w f burger Hv Hsel). cbn [orderCounter storage].
  rewrite Hc, add_integers by (rewrite Z.abs_eq; lia).
  rewrite toString_integer by lia.
  assert (Hitem : items (try_set (storage w) COUNTER_KEY (digits (c + 1))) !! COUNTER_KEY
                  = Some (digits (c + 1))) by now apply try_set_accepted.
  repeat split; [exact Hitem|].
  apply loaded_counter_saved; [now rewrite try_set_blocked | lia | exact Hitem].
Qed.

Lemma X12_witness_first_submit :
  orderCounter (step (start empty_storage) (Submit three_classic_burgers)) = of_Z (1000 + 1) /\
  items (storage (step (start empty_storage) (Submit three_classic_burgers))) !! COUNTER_KEY
  = Some (digits (1000 + 1)) /\
  orderCounter (run (start empty_storage) [Submit three_classic_burgers; Reload])
  = of_Z (1000 + 1).
Proof.
  apply (X12_counter_round_trip (start empty_storage) three_classic_burgers 1000).
  - vm_compute. reflexivity.
  - vm_compute. reflexivity.
  - lia.
  - lia.
  - reflexivity.
  - reflexivity.
Defined.

Definition counter_lost (w : world) : Prop :=
  orderCounter w = NaN /\ loaded_counter (storage w) = NaN.

Lemma loaded_counter_after_write (st : localStorage) :
  loaded_counter st = NaN ->
  loaded_counter (try_set st COUNTER_KEY (js "NaN")) = NaN.
Proof.
  intros H. unfold try_set, setItem. destruct (blocked st) eqn:Hb; [exact H|].
  destruct (fits _ _); [|exact H].
  unfold loaded_counter, getItem. cbn [blocked items]. rewrite lookup_insert_eq.
  vm_compute. reflexivity.
Qed.

Lemma step_counter_lost (w : world) (ev : event) :
  counter_lost w ->
  counter_lost (step w ev) /\
  Forall (fun e => e = (NaN, js "BC0NaN")) (ids_assigned w [ev]).
Proof.
  unfold counter_lost. intros [Hc Hl].
  assert (Hcase : (exists f, ev = Submit f) \/ ~ (exists f, ev = Submit f)).
  { destruct ev; try (right; intros [f' Hf']; discriminate). left. eauto. }
  destruct Hcase as [[f ->]|Hother].
  - destruct (validateForm f) eqn:Hv.
    + destruct (validateForm_selected f Hv) as [burger Hsel].
      cbn [ids_assigned]. rewrite Hv, (step_submit_valid w f burger Hv Hsel), Hc.
      change (add NaN (of_Z 1)) with NaN. change (toString NaN) with (js "NaN").
      cbn [orderCounter storage currentOrder orderId built_order app]. split.
      * split; [reflexivity | now apply loaded_counter_after_write].
      * repeat constructor.
    + cbn [ids_assigned]. rewrite Hv, (step_submit_invalid w f Hv).
      split; [auto | constructor].
  - assert (Hids : ids_assigned w [ev] = []).
    { destruct ev; try reflexivity. destruct Hother. eauto. }
    rewrite Hids. split; [|constructor].
    destruct (step_cases w ev)
      as [Hs|[(f & burger & Hev & _)|[Hs|[(d & l & _ & _ & _ & Hs)|[Hs|[[_ Hs]|[_ Hs]]]]]]];
      [ | destruct Hother; eauto | | | | | ];
      rewrite Hs, ?start_eq; cbn [orderCounter storage]; auto.
    split; [exact Hc|].
    rewrite (loaded_counter_same (storage w));
      [exact Hl | apply try_set_blocked
      | apply try_set_other_key; intros H; now apply keys_differ].
Qed.

Lemma run_counter_lost (evs : list event) :
  forall w, counter_lost w ->
    counter_lost (run w evs) /\
    Forall (fun e => e = (NaN, js "BC0NaN")) (ids_assigned w evs).
Proof.
  induction evs as [|ev evs IH]; intros w Hw; [split; [exact Hw | constructor]|].
  destruct (step_counter_lost w ev Hw) as [Hstep Hids].
  destruct (IH (step w ev) Hstep) as [Hrun Hlater].
  change (run w (ev :: evs)) with (run (step w ev) evs).
  rewrite ids_assigned_cons. split; [exact Hrun|].
  apply Forall_app. now split.
Qed.

(** X13: a counter that loads as NaN is never repaired.  When the stored
    counter text does not start with a number, the counter is NaN from page
    load on: incrementing NaN gives NaN, the text written back is [NaN],
    which loads as NaN again after a reload, and every order id assigned from
    then on is the same text [BC0NaN]. *)
Theorem X13_lost_counter_is_never_repaired (st : localStorage) (evs : list event) :
  loaded_counter st = NaN ->
  orderCounter (run (start st) evs) = NaN /\
  loaded_counter (storage (run (start st) evs)) = NaN /\
  Forall (fun e => e = (NaN, js "BC0NaN")) (ids_assigned (start st) evs).
Proof.
  intros H.
  assert (Hstart : counter_lost (start st)).
  { rewrite start_eq. split; exact H. }
  destruct (run_counter_lost evs (start st) Hstart) as [[Hc Hl] Hids]. auto.
Qed.

Lemma X13_witness_corrupt_counter :
  orderCounter (run (start storage_with_corrupt_counter)
                  [Submit three_classic_burgers; ClickConfirmOrder; Reload;
                   Submit three_classic_burgers]) = NaN /\
  loaded_counter (storage (run (start storage_with_corrupt_counter)
                             [Submit three_classic_burgers; ClickConfirmOrder; Reload;
                              Submit three_classic_burgers])) = NaN /\
  Forall (fun e => e = (NaN, js "BC0NaN"))
    (ids_assigned (start storage_with_corrupt_counter)
       [Submit three_classic_burgers; ClickConfirmOrder; Reload;
        Submit three_classic_burgers]).
Proof.
  apply (X13_lost_counter_is_never_repaired storage_with_corrupt_counter
           [Submit three_classic_burgers; ClickConfirmOrder; Reload;
            Submit three_classic_burgers]).
  vm_compute. reflexivity.
Defined.

(** ** What the confirmation dialog shows *)

Module Display.

(** [x.toFixed(fractionDigits)] for a fraction digit count from 0 to 100
    (the program passes 2).  A finite [x] below 10^21 in magnitude is written
    with the integer [n] nearest to [x * 10^fractionDigits], the larger one
    at a tie, and the decimal point put in; anything else is written as by
    ToString. *)
Definition toFixed (x : number) (fractionDigits : nat) : jsstring :=
  match x with
  | Fin k =>
      let f := Z.of_nat fractionDigits in
      let s := if k <? 0 then js "-" else [] in
      let a := Z.abs k in
      if 10 ^ 21 * U <=? a then s ++ toString (Fin a)
      else
        let n := (2 * a * 10 ^ f + U) / (2 * U) in
        let m := digits n in
        if f =? 0 then s ++ m
        else
          let m' := if ndigits n <=? f then zeros (f + 1 - ndigits n) ++ m else m in
          let split := (length m' - fractionDigits)%nat in
          s ++ take split m' ++ js "." ++ drop split m'
  | NaN | Inf _ => toString x
  end.

(** The text put into the spans of the confirmation dialog. *)
Record confirmation := {
  confirmName : jsstring;
  confirmPhone : jsstring;
  confirmBurger : jsstring;
  confirmQuantity : jsstring;
  confirmInstructions : jsstring;
  confirmTotal : jsstring
}.

(** [populateConfirmationModal(orderData)]: [textContent] takes a string as
    it is and a Number by ToString. *)
Definition populateConfirmationModal (orderData : order) : confirmation :=
  {| confirmName := customerName orderData;
     confirmPhone := phoneNumber orderData;
     confirmBurger := hamburgerType orderData;
     confirmQuantity := toString (quantity orderData);
     confirmInstructions := specialInstructions orderData;
     confirmTotal := js "$" ++ toFixed (totalPrice orderData) 2 |}.

End Display.
Export Display.

(** The menu, with prices in cents. *)
Definition menu_cents : list (jsstring * Z) :=
  [ (js "Classic Beef Burger", 1299);
    (js "Grilled Chicken Burger", 1199);
    (js "Plant-Based Veggie Burger", 1099);
    (js "Deluxe BBQ Burger", 1599) ].

(** An amount of cents written as dollars, a point and two digits. *)
Definition cents_text (n : Z) : jsstring :=
  digits (n / 100) ++ js "." ++ [digit_char (n / 10 mod 10); digit_char (n mod 10)].

Lemma menu_prices :
  prices = List.map (fun p => (fst p, VNum (round_dec (snd p) (-2)))) menu_cents.
Proof. reflexivity. Qed.

Lemma getBurgerPrice_menu (burger : jsstring) (c : Z) :
  In (burger, c) menu_cents -> getBurgerPrice burger = VNum (round_dec c (-2)).
Proof.
  intros [H|[H|[H|[H|[]]]]]; injection H as <- <-; vm_compute; reflexivity.
Qed.

(** *** Two fraction digits *)

Lemma digits_two_more (n : Z) :
  100 <= n ->
  digits n = digits (n / 100) ++ [digit_char (n / 10 mod 10); digit_char (n mod 10)].
Proof.
  intros Hn. rewrite !digits_dvals, (dvals_large n) by lia.
  rewrite (dvals_large (n / 10)) by (apply Z.div_le_lower_bound; lia).
  rewrite Z.div_div by lia. change (10 * 10) with 100.
  rewrite <- app_assoc, !map_app. reflexivity.
Qed.

Lemma digits_small (n : Z) : 0 <= n < 10 -> digits n = [digit_char n].
Proof. intros Hn. rewrite digits_dvals, dvals_small by lia. reflexivity. Qed.

Lemma digits_two (n : Z) :
  10 <= n < 100 -> digits n = [digit_char (n / 10); digit_char (n mod 10)].
Proof.
  intros Hn. rewrite digits_dvals, dvals_large by lia.
  rewrite dvals_small by (apply Z.div_lt_upper_bound; lia). reflexivity.
Qed.

(** The digits of [n] with the point before the last two, as [toFixed]
    lays them out. *)
Lemma fixed_two_layout (n : Z) :
  0 <= n ->
  let m' := if ndigits n <=? 2 then zeros (2 + 1 - ndigits n) ++ digits n else digits n in
  take (length m' - 2) m' ++ js "." ++ drop (length m' - 2) m' = cents_text n.
Proof.
  intros Hn. unfold cents_text, ndigits.
  destruct (Z_lt_le_dec n 10) as [H10|H10]; [|destruct (Z_lt_le_dec n 100) as [H100|H100]].
  - rewrite (digits_small n) by lia.
    change (Z.of_nat (length [digit_char n]) <=? 2) with true. cbv iota zeta.
    rewrite (Z.div_small n 100), (Z.div_small n 10), (Z.mod_small n 10) by lia.
    reflexivity.
  - rewrite (digits_two n) by lia.
    change (Z.of_nat (length [digit_char (n / 10); digit_char (n mod 10)]) <=? 2) with true.
    cbv iota zeta.
    rewrite (Z.div_small n 100) by lia.
    rewrite (Z.mod_small (n / 10))
      by (split; [apply Z.div_pos; lia | apply Z.div_lt_upper_bound; lia]).
    reflexivity.
  - rewrite (digits_two_more n) by lia. rewrite length_app. cbn [length].
    replace (Z.of_nat (length (digits (n / 100)) + 2) <=? 2) with false.
    + cbv zeta. rewrite length_app. cbn [length].
      replace (length (digits (n / 100)) + 2 - 2)%nat with (length (digits (n / 100))) by lia.
      rewrite take_app_length, drop_app_length. reflexivity.
    + symmetry. apply Z.leb_gt.
      pose proof (dvals_length_pos (n / 100)) as Hpos.
      rewrite digits_dvals, length_map. lia.
Qed.

(** *** The product of a price and a quantity *)

(** Rounding an integer number of units to 53 bits moves it by less than
    one unit in the last place kept. *)
Lemma round_pos_near (N : Z) :
  0 < N -> 2 * N < overflow_threshold ->
  exists K S : Z,
    round_pos N 1 = Fin K /\ 1 <= S /\ (S = 1 \/ S * 2 ^ 52 <= N) /\
    N - S < K <= N + S.
Proof.
  intros HN Hover. unfold round_pos. rewrite Z.div_1_r, Z.mul_1_l.
  set (sh := Z.max 0 (Z.log2 N - 52)).
  assert (Hsh : 0 <= sh) by (unfold sh; lia).
  pose proof (pow2_pos sh Hsh) as HS.
  pose proof (rne_bounds N (2 ^ sh) ltac:(lia) HS) as [Hlo Hhi].
  pose proof (Z.mul_div_le N (2 ^ sh) HS) as Hdown.
  pose proof (Z.mul_succ_div_gt N (2 ^ sh) HS) as Hup.
  assert (Hsize : 2 ^ sh = 1 \/ 2 ^ sh * 2 ^ 52 <= N).
  { destruct (Z_le_gt_dec (Z.log2 N) 52) as [Hsmall|Hlarge].
    - left. unfold sh. now rewrite Z.max_l by lia.
    - right. unfold sh. rewrite Z.max_r by lia.
      rewrite <- Z.pow_add_r by lia.
      replace (Z.log2 N - 52 + 52) with (Z.log2 N) by lia.
      apply Z.log2_spec. exact HN. }
  assert (Hk : N - 2 ^ sh < rne N (2 ^ sh) * 2 ^ sh <= N + 2 ^ sh) by nia.
  assert (Hfin : (rne N (2 ^ sh) * 2 ^ sh <? overflow_threshold) = true).
  { apply Z.ltb_lt. destruct Hsize as [H1|H52]; [lia|].
    assert (2 ^ sh <= N) by (pose proof (pow2_pos 52 ltac:(lia)); nia). lia. }
  cbv zeta. rewrite Hfin.
  exists (rne N (2 ^ sh) * 2 ^ sh), (2 ^ sh). repeat split; lia.
Qed.

(** The total for [q] items at a price of [c] cents, the price being the
    Number [Fin Kp] nearest to c/100: [toFixed(2)] shows the exact amount. *)
Lemma product_fixed (Kp c q : Z) :
  0 <= c -> 0 < Kp <= 16 * U -> Z.abs (100 * Kp - c * U) * 2 ^ 40 <= U ->
  1 <= q <= 10 ^ 9 ->
  toFixed (mul (Fin Kp) (of_Z q)) 2 = cents_text (c * q).
Proof.
  intros Hc HKp Hnear Hq. pose proof U_pos as HU.
  assert (HUbig : 2 ^ 60 <= U) by (apply Z.leb_le; vm_compute; reflexivity).
  rewrite of_Z_exact by (rewrite Z.abs_eq; lia). cbn [mul].
  unfold round_units.
  replace (Kp * (q * U) <? 0) with false by (symmetry; apply Z.ltb_ge; nia).
  replace (Kp * (q * U)) with (Kp * q * U) by lia.
  replace U with (1 * U) at 2 by lia.
  rewrite round_pos_scale by lia.
  assert (HN : 0 < Kp * q) by nia.
  assert (HNmax : Kp * q <= 16 * 10 ^ 9 * U) by nia.
  destruct (round_pos_near (Kp * q) HN) as (K & S & -> & HS1 & HS & HK).
  { rewrite overflow_threshold_eq.
    assert (2 ^ 40 <= 2 ^ 1024) by (apply Z.pow_le_mono_r; lia). nia. }
  set (N := Kp * q) in *. set (W := U * (c * q)).
  set (X := q * (100 * Kp - c * U)).
  assert (HX : Z.abs X * 2 ^ 40 <= 10 ^ 9 * U).
  { unfold X. rewrite Z.abs_mul, (Z.abs_eq q) by lia. nia. }
  assert (HW : 100 * N - W = X) by (unfold N, W, X; ring).
  assert (HSmall : 200 * S * 2 ^ 52 <= 200 * 2 ^ 52 + 200 * 16 * 10 ^ 9 * U)
    by (destruct HS; lia).
  assert (Hn : (2 * K * 10 ^ 2 + U) / (2 * U) = c * q).
  { symmetry. apply (Z.div_unique_pos _ _ _ (200 * K + U - 2 * W)).
    - change (2 ^ 52) with 4503599627370496 in *.
      change (2 ^ 40) with 1099511627776 in *.
      change (2 ^ 60) with 1152921504606846976 in *.
      change (10 ^ 9) with 1000000000 in *. lia.
    - unfold W. change (10 ^ 2) with 100. ring. }
  unfold toFixed. cbv zeta.
  replace (K <? 0) with false by (symmetry; apply Z.ltb_ge; lia).
  rewrite Z.abs_eq by lia.
  replace (10 ^ 21 * U <=? K) with false.
  - change (Z.of_nat 2) with 2. rewrite Hn. change (2 =? 0) with false. cbv iota.
    cbn [app]. apply fixed_two_layout. nia.
  - symmetry. apply Z.leb_gt.
    change (2 ^ 52) with 4503599627370496 in *.
    change (10 ^ 9) with 1000000000 in *.
    change (10 ^ 21) with 1000000000000000000000. lia.
Qed.

Lemma menu_price_number (burger : jsstring) (c : Z) :
  In (burger, c) menu_cents ->
  exists Kp, round_dec c (-2) = Fin Kp /\ 0 <= c /\ 0 < Kp <= 16 * U /\
             Z.abs (100 * Kp - c * U) * 2 ^ 40 <= U.
Proof.
  intros [H|[H|[H|[H|[]]]]]; injection H as <- <-;
    (eexists; split; [vm_compute; reflexivity|];
     repeat split; try lia; apply Z.leb_le; vm_compute; reflexivity).
Qed.

Lemma menu_total (burger : jsstring) (c q : Z) :
  In (burger, c) menu_cents -> 1 <= q <= 10 ^ 9 ->
  exists p, getBurgerPrice burger = VNum p /\
            toFixed (times_quantity (VNum p) (of_Z q)) 2 = cents_text (c * q).
Proof.
  intros Hin Hq. destruct (menu_price_number burger c Hin) as (Kp & HKp & Hc & Hb & Hnear).
  exists (Fin Kp). rewrite (getBurgerPrice_menu burger c Hin), HKp.
  split; [reflexivity|]. cbn [times_quantity]. now apply product_fixed.
Qed.

(** X14: the confirmation dialog shows the exact amount.  For a valid form
    with a burger of the menu and a quantity from 1 to 10^9 chosen in the
    select, the dialog shows the trimmed name and phone, the burger, the
    quantity as typed, and as total the price in cents times the quantity,
    written in dollars with two decimals: binary floating point leaves no
    trace in the text. *)
Theorem X14_confirmation_shows_exact_total
    (w : world) (f : form) (burger : jsstring) (c q : Z) :
  validateForm f = true -> selectedBurger f = Some burger ->
  In (burger, c) menu_cents -> quantitySelect f = digits q -> 1 <= q <= 10 ^ 9 ->
  exists d,
    currentOrder (step w (Submit f)) = Some d /\
    populateConfirmationModal d =
    {| confirmName := trim (customerNameInput f);
       confirmPhone := trim (phoneNumberInput f);
       confirmBurger := burger;
       confirmQuantity := digits q;
       confirmInstructions :=
         if JsString.truthy (trim (specialInstructionsTextarea f))
         then trim (specialInstructionsTextarea f) else js "None";
       confirmTotal := js "$" ++ cents_text (c * q) |}.
Proof.
  intros Hv Hsel Hin Hqty Hq.
  rewrite (step_submit_valid w f burger Hv Hsel). eexists. split; [reflexivity|].
  destruct (menu_total burger c q Hin Hq) as (p & Hp & Htotal).
  unfold populateConfirmationModal.
  cbn [customerName phoneNumber hamburgerType quantity specialInstructions totalPrice
       built_order].
  rewrite Hqty, parseInt_digits by lia. rewrite Hp, Htotal.
  rewrite toString_integer; [reflexivity|].
  assert (10 ^ 9 < 2 ^ 53) by (apply Z.ltb_lt; reflexivity). lia.
Qed.

Lemma X14_witness_three_classic_burgers :
  exists d,
    currentOrder (step (start empty_storage) (Submit three_classic_burgers)) = Some d /\
    populateConfirmationModal d =
    {| confirmName := trim (customerNameInput three_classic_burgers);
       confirmPhone := trim (phoneNumberInput three_classic_burgers);
       confirmBurger := js "Classic Beef Burger";
       confirmQuantity := digits 3;
       confirmInstructions :=
         if JsString.truthy (trim (specialInstructionsTextarea three_classic_burgers))
         then trim (specialInstructionsTextarea three_classic_burgers) else js "None";
       confirmTotal := js "$" ++ cents_text (1299 * 3) |}.
Proof.
  apply (X14_confirmation_shows_exact_total (start empty_storage) three_classic_burgers
           (js "Classic Beef Burger") 1299 3).
  - vm_compute. reflexivity.
  - reflexivity.
  - left. reflexivity.
  - vm_compute. reflexivity.
  - lia.
Defined.

(** ** The orders table *)

Module Table.

(** The result of evaluating an expression of [createOrderRow] or
    [renderOrders]: it completes, normally or abruptly, or ([None]) it comes
    to call a built-in function whose behaviour is not described here. *)
Definition outcome (A : Type) : Type := option (completion A).

#[global] Instance outcome_ret : MRet outcome := fun A a => Some (Normal a).
#[global] Instance outcome_bind : MBind outcome := fun A B f m =>
  match m with
  | Some (Normal a) => f a
  | Some (Throw e) => Some (Throw e)
  | None => None
  end.

Definition throws {A} (e : exn) : outcome A := Some (Throw e).
Definition not_described {A} : outcome A := None.

(** The properties of an order that the table reads. *)
Inductive order_field :=
| FCustomerName | FOrderId | FPhoneNumber | FHamburgerType | FUnitPrice
| FQuantity | FSpecialInstructions | FStatus | FTotalPrice.

Definition field_name (fld : order_field) : jsstring :=
  match fld with
  | FCustomerName => js "customerName"
  | FOrderId => js "orderId"
  | FPhoneNumber => js "phoneNumber"
  | FHamburgerType => js "hamburgerType"
  | FUnitPrice => js "unitPrice"
  | FQuantity => js "quantity"
  | FSpecialInstructions => js "specialInstructions"
  | FStatus => js "status"
  | FTotalPrice => js "totalPrice"
  end.

(** [order.field]; [None] in the result is undefined.  Reading a property
    of [null] throws; a string, a Number, a boolean, an array and a function
    have none of these properties, their prototypes neither. *)
Definition read_field (order : value) (fld : order_field) : outcome (option value) :=
  match order with
  | VNull => throws TypeError
  | VObj props => mret (get_property props (field_name fld))
  | VBool _ | VNum _ | VStr _ | VArr _ | VFunction _ => mret None
  end.

(** Calling the function found under [toString] or [valueOf] on a plain
    object, in OrdinaryToPrimitive: [Object.prototype.toString] gives a
    string, [Object.prototype.valueOf] gives the object back (no primitive
    value, [None] here), anything that is not a function is passed over. *)
Definition primitive_from (method : option value) : outcome (option jsstring) :=
  match method with
  | Some (VFunction name) =>
      if bool_decide (name = js "toString") then mret (Some (js "[object Object]"))
      else if bool_decide (name = js "valueOf") then mret None
      else not_described
  | _ => mret None
  end.

Fixpoint sequence {A} (l : list (outcome A)) : outcome (list A) :=
  match l with
  | [] => mret []
  | x :: tl => a ← x; r ← sequence tl; mret (a :: r)
  end.

(** ToString, as a template literal applies it to a substitution. *)
Fixpoint to_text (v : value) : outcome jsstring :=
  match v with
  | VNull => mret (js "null")
  | VBool b => mret (if b then js "true" else js "false")
  | VNum x => mret (toString x)
  | VStr s => mret s
  | VArr elements =>
      (* Array.prototype.join: null is written as the empty string *)
      texts ← sequence (List.map (fun e => match e with
                                            | VNull => mret []
                                            | _ => to_text e
                                            end) elements);
      mret (join_comma texts)
  | VObj props =>
      first ← primitive_from (get_property props (js "toString"));
      match first with
      | Some text => mret text
      | None =>
          second ← primitive_from (get_property props (js "valueOf"));
          match second with
          | Some text => mret text
          | None => throws TypeError
          end
      end
  | VFunction _ => not_described      (* the source text of a built-in function *)
  end.

(** [`${order.field}`] *)
Definition substitute (order : value) (fld : order_field) : outcome jsstring :=
  v ← read_field order fld;
  match v with
  | None => mret (js "undefined")
  | Some v => to_text v
  end.

(** The method found under [name] on a value that is not a Number or a
    string: an object may hold it as a property, nothing else has it. *)
Definition foreign_method (v : option value) (name : jsstring) : outcome jsstring :=
  match v with
  | Some (VObj props) =>
      match get_property props name with
      | Some (VFunction _) => not_described
      | _ => throws TypeError
      end
  | _ => throws TypeError
  end.

(** [v.toFixed(2)] *)
Definition call_toFixed (v : option value) : outcome jsstring :=
  match v with
  | Some (VNum x) => mret (toFixed x 2)
  | _ => foreign_method v (js "toFixed")
  end.

(** [s.toLowerCase()] for a string of ASCII code units; the case mappings
    of the other code units are not described here. *)
Definition toLowerCase (s : jsstring) : outcome jsstring :=
  if forallb (fun c => (c <? 128)%N) s
  then mret (List.map (fun c => if ((65 <=? c) && (c <=? 90))%N then (c + 32)%N else c) s)
  else not_described.

(** [v.toLowerCase()] *)
Definition call_toLowerCase (v : option value) : outcome jsstring :=
  match v with
  | Some (VStr s) => toLowerCase s
  | _ => foreign_method v (js "toLowerCase")
  end.

(** The substitutions of the template of a table row, in the order of the
    template; the markup between them is fixed text. *)
Record row := {
  nameCell : jsstring;
  idCell : jsstring;
  phoneCell : jsstring;
  burgerCell : jsstring;
  unitPriceCell : jsstring;
  quantityCell : jsstring;
  instructionsCell : jsstring;
  statusClass : jsstring;
  statusCell : jsstring;
  totalCell : jsstring
}.

(** [createOrderRow(order, index)] *)
Definition createOrderRow (order : value) : outcome row :=
  name ← substitute order FCustomerName;
  id ← substitute order FOrderId;
  phone ← substitute order FPhoneNumber;
  burger ← substitute order FHamburgerType;
  price ← read_field order FUnitPrice;
  priceText ← call_toFixed price;
  quantity ← substitute order FQuantity;
  instructions ← substitute order FSpecialInstructions;
  status ← read_field order FStatus;
  lower ← call_toLowerCase status;
  statusText ← substitute order FStatus;
  total ← read_field order FTotalPrice;
  totalText ← call_toFixed total;
  mret {| nameCell := name; idCell := id; phoneCell := phone; burgerCell := burger;
          unitPriceCell := priceText; quantityCell := quantity;
          instructionsCell := instructions;
          statusClass := if bool_decide (lower = js "pending")
                         then js "status-pending" else js "status-confirmed";
          statusCell := statusText; totalCell := totalText |}.

(** [this.orders.length === 0] *)
Definition has_length_zero (orders : value) : outcome bool :=
  match orders with
  | VNull => throws TypeError
  | VArr elements => mret (bool_decide (elements = []))
  | VStr s => mret (bool_decide (s = []))
  | VObj props =>
      match get_property props (js "length") with
      | Some (VNum x) => mret (strict_eqb x (of_Z 0))
      | _ => mret false
      end
  | VBool _ | VNum _ => mret false
  | VFunction _ => not_described      (* the number of parameters of a built-in *)
  end.

(** [renderOrders()]: the rows appended to the table body. *)
Definition renderOrders (orders : value) : outcome (list row) :=
  has_length_zero orders ≫= fun noOrders : bool =>
  if noOrders then mret []
  else
    match orders with
    | VArr elements => sequence (List.map createOrderRow elements)
    | VObj props =>
        match get_property props (js "forEach") with
        | Some (VFunction _) => not_described
        | _ => throws TypeError
        end
    | _ => throws TypeError
    end.

(** [updateEmptyState()]: whether the empty-state text is shown and the
    table hidden, or the other way round. *)
Definition updateEmptyState (orders : value) : outcome bool := has_length_zero orders.

(** What the page shows of the orders. *)
Record view := { tableRows : list row; emptyStateShown : bool }.

(** [this.renderOrders(); this.updateEmptyState();] as the constructor and
    [confirmOrder] run them. *)
Definition refresh (orders : value) : outcome view :=
  rows ← renderOrders orders;
  noOrders ← updateEmptyState orders;
  mret {| tableRows := rows; emptyStateShown := noOrders |}.

End Table.
Export Table.

(** *** Rows of the orders the application builds *)

(** The row of an order whose unit price is a Number. *)
Lemma row_of_order (d : order) (p : number) :
  unitPrice d = VNum p -> status d = js "Pending" ->
  createOrderRow (order_value d) =
  Some (Normal
    {| nameCell := customerName d; idCell := orderId d; phoneCell := phoneNumber d;
       burgerCell := hamburgerType d; unitPriceCell := toFixed p 2;
       quantityCell := toString (quantity d);
       instructionsCell := specialInstructions d;
       statusClass := js "status-pending"; statusCell := js "Pending";
       totalCell := toFixed (totalPrice d) 2 |}).
Proof.
  intros Hp Hs. destruct d as [name phone burger qty instr price total st date id].
  cbn [unitPrice status] in Hp, Hs. subst price st. reflexivity.
Qed.

Lemma price_fixed (Kp c : Z) :
  0 <= c -> 0 < Kp <= 16 * U -> Z.abs (100 * Kp - c * U) * 2 ^ 40 <= U ->
  toFixed (Fin Kp) 2 = cents_text c.
Proof.
  intros Hc HKp Hnear. pose proof U_pos as HU.
  assert (HUbig : 2 ^ 60 <= U) by (apply Z.leb_le; vm_compute; reflexivity).
  assert (Hn : (2 * Kp * 10 ^ 2 + U) / (2 * U) = c).
  { symmetry. apply (Z.div_unique_pos _ _ _ (200 * Kp + U - 2 * (U * c))).
    - change (2 ^ 40) with 1099511627776 in *.
      change (2 ^ 60) with 1152921504606846976 in *. lia.
    - change (10 ^ 2) with 100. ring. }
  unfold toFixed. cbv zeta.
  replace (Kp <? 0) with false by (symmetry; apply Z.ltb_ge; lia).
  rewrite Z.abs_eq by lia.
  replace (10 ^ 21 * U <=? Kp) with false.
  - change (Z.of_nat 2) with 2. rewrite Hn. change (2 =? 0) with false. cbv iota.
    cbn [app]. now apply fixed_two_layout.
  - symmetry. apply Z.leb_gt. change (10 ^ 21) with 1000000000000000000000. lia.
Qed.

(** X15: the table row of an order built from the menu shows exact
    amounts.  For a valid form with a burger of the menu and a quantity from
    1 to 10^9, the row made for the draft shows the unit price and the total
    in dollars with two decimals, exactly the menu price and the menu price
    times the quantity, the quantity as typed, the status text Pending and
    the badge class status-pending. *)
Theorem X15_row_shows_exact_amounts
    (w : world) (f : form) (burger : jsstring) (c q : Z) :
  validateForm f = true -> selectedBurger f = Some burger ->
  In (burger, c) menu_cents -> quantitySelect f = digits q -> 1 <= q <= 10 ^ 9 ->
  exists d,
    currentOrder (step w (Submit f)) = Some d /\
    createOrderRow (order_value d) =
    Some (Normal
      {| nameCell := trim (customerNameInput f);
         idCell := orderId d;
         phoneCell := trim (phoneNumberInput f);
         burgerCell := burger;
         unitPriceCell := cents_text c;
         quantityCell := digits q;
         instructionsCell :=
           if JsString.truthy (trim (specialInstructionsTextarea f))
           then trim (specialInstructionsTextarea f) else js "None";
         statusClass := js "status-pending";
         statusCell := js "Pending";
         totalCell := cents_text (c * q) |}).
Proof.
  intros Hv Hsel Hin Hqty Hq.
  rewrite (step_submit_valid w f burger Hv Hsel). eexists. split; [reflexivity|].
  destruct (menu_price_number burger c Hin) as (Kp & HKp & Hc & Hb & Hnear).
  pose proof (getBurgerPrice_menu burger c Hin) as Hprice. rewrite HKp in Hprice.
  rewrite (row_of_order _ (Fin Kp)) by (cbn [unitPrice status built_order]; auto).
  cbn [customerName phoneNumber hamburgerType quantity specialInstructions totalPrice
       orderId built_order].
  rewrite Hqty, parseInt_digits by lia. rewrite Hprice. cbn [times_quantity].
  rewrite (product_fixed Kp c q), (price_fixed Kp c) by assumption.
  rewrite toString_integer; [reflexivity|].
  assert (10 ^ 9 < 2 ^ 53) by (apply Z.ltb_lt; reflexivity). lia.
Qed.

Lemma X15_witness_three_classic_burgers :
  exists d,
    currentOrder (step (start empty_storage) (Submit three_classic_burgers)) = Some d /\
    createOrderRow (order_value d) =
    Some (Normal
      {| nameCell := trim (customerNameInput three_classic_burgers);
         idCell := orderId d;
         phoneCell := trim (phoneNumberInput three_classic_burgers);
         burgerCell := js "Classic Beef Burger";
         unitPriceCell := cents_text 1299;
         quantityCell := digits 3;
         instructionsCell :=
           if JsString.truthy (trim (specialInstructionsTextarea three_classic_burgers))
           then trim (specialInstructionsTextarea three_classic_burgers) else js "None";
         statusClass := js "status-pending";
         statusCell := js "Pending";
         totalCell := cents_text (1299 * 3) |}).
Proof.
  apply (X15_row_shows_exact_amounts (start empty_storage) three_classic_burgers
           (js "Classic Beef Burger") 1299 3).
  - vm_compute. reflexivity.
  - reflexivity.
  - left. reflexivity.
  - vm_compute. reflexivity.
  - lia.
Defined.

(** *** The table during a session *)

(** The order has a row. *)
Definition renders (v : value) : Prop := exists r, createOrderRow v = Some (Normal r).

(** An event of a session in which every submitted burger has a price that
    is a Number (every burger of the menu has, and so has every name that is
    not a property of [Object.prototype]); a reload ends the session. *)
Definition in_session (ev : event) : bool :=
  match ev with
  | Reload => false
  | Submit f =>
      match selectedBurger f with
      | Some burger => match getBurgerPrice burger with VNum _ => true | _ => false end
      | None => true
      end
  | _ => true
  end.

Lemma sequence_all {A} (f : value -> outcome A) (l : list value) :
  Forall (fun v => exists r, f v = Some (Normal r)) l ->
  exists rs, sequence (List.map f l) = Some (Normal rs) /\ length rs = length l.
Proof.
  induction 1 as [|v l [r Hr] Hl (rs & Hrs & Hlen)]; [now exists []|].
  exists (r :: rs). cbn [List.map sequence]. rewrite Hr. cbn [mbind outcome_bind].
  rewrite Hrs. cbn [mbind outcome_bind length]. split; [reflexivity | lia].
Qed.

Lemma refresh_renders (l : list value) :
  Forall renders l ->
  exists rows,
    refresh (VArr l) =
    Some (Normal {| tableRows := rows; emptyStateShown := bool_decide (l = []) |}) /\
    length rows = length l.
Proof.
  intros Hl. unfold refresh, renderOrders, updateEmptyState.
  cbn [has_length_zero mbind outcome_bind mret outcome_ret].
  destruct l as [|v l]; [now exists []|].
  rewrite bool_decide_eq_false_2 by discriminate.
  destruct (sequence_all createOrderRow (v :: l) Hl) as (rows & Hrows & Hlen).
  rewrite Hrows. exists rows. split; [reflexivity | exact Hlen].
Qed.

Definition all_render (w : world) : Prop :=
  (exists l, orders w = VArr l /\ Forall renders l) /\
  (forall d, currentOrder w = Some d -> renders (order_value d)).

Lemma step_all_render (w : world) (ev : event) :
  in_session ev = true -> all_render w -> all_render (step w ev).
Proof.
  unfold all_render. intros Hev [(l0 & Ho & Hl) Hd].
  assert (Hsame : exists l, orders w = VArr l /\ Forall renders l) by (exists l0; auto).
  destruct (step_cases w ev)
    as [->|[(f & burger & -> & Hv & Hsel & ->)|[->|[(d & l & _ & Hcur & Hord & ->)|[->|[[_ ->]|[-> _]]]]]]];
    cbn [orders currentOrder].
  - auto.
  - split; [exact Hsame|]. intros d [= <-].
    cbn [in_session] in Hev. rewrite Hsel in Hev.
    destruct (getBurgerPrice burger) as [ | |p| | | | ] eqn:Hp; try discriminate.
    eexists. apply (row_of_order _ p); cbn [unitPrice status built_order]; auto.
  - split; [exact Hsame | discriminate].
  - split; [|discriminate]. rewrite Ho in Hord. injection Hord as <-.
    exists (order_value d :: l0). split; [reflexivity|]. constructor; auto.
  - auto.
  - split; [exact Hsame|]. destruct (confirmationActive w); [discriminate | auto].
  - discriminate.
Qed.

Lemma run_all_render (evs : list event) :
  forall w, forallb in_session evs = true -> all_render w -> all_render (run w evs).
Proof.
  induction evs as [|ev evs IH]; intros w Hevs Hw; [exact Hw|].
  cbn [forallb] in Hevs. apply andb_true_iff in Hevs as [Hev Hevs].
  change (run w (ev :: evs)) with (run (step w ev) evs).
  apply IH; [exact Hevs | now apply step_all_render].
Qed.

(** X16: during a session the table can always be drawn.  Starting from a
    state whose orders all have a row and with no draft outstanding, after
    any events short of a reload, submitted with burgers whose price is a
    Number, [renderOrders] and [updateEmptyState] complete normally: there is
    one row for each order, and the empty-state text is shown exactly when
    there is no order. *)
Theorem X16_table_is_drawn_in_session (w : world) (l : list value) (evs : list event) :
  orders w = VArr l -> Forall renders l -> currentOrder w = None ->
  forallb in_session evs = true ->
  exists l' rows,
    orders (run w evs) = VArr l' /\
    refresh (orders (run w evs)) =
    Some (Normal {| tableRows := rows; emptyStateShown := bool_decide (l' = []) |}) /\
    length rows = length l'.
Proof.
  intros Ho Hl Hd Hevs.
  assert (Hw : all_render w).
  { split; [eauto|]. intros d Hd'. congruence. }
  destruct (run_all_render evs w Hevs Hw) as [(l' & Ho' & Hl') _].
  destruct (refresh_renders l' Hl') as (rows & Hrows & Hlen).
  exists l', rows. rewrite Ho'. auto.
Qed.

Lemma X16_witness_two_orders :
  exists l' rows,
    orders (run (start empty_storage)
              [Submit three_classic_burgers; ClickConfirmOrder; ClickCloseSuccessModal;
               Submit three_classic_burgers; ClickConfirmOrder]) = VArr l' /\
    refresh (orders (run (start empty_storage)
                       [Submit three_classic_burgers; ClickConfirmOrder;
                        ClickCloseSuccessModal;
                        Submit three_classic_burgers; ClickConfirmOrder])) =
    Some (Normal {| tableRows := rows; emptyStateShown := bool_decide (l' = []) |}) /\
    length rows = length l'.
Proof.
  apply (X16_table_is_drawn_in_session (start empty_storage) []
           [Submit three_classic_burgers; ClickConfirmOrder; ClickCloseSuccessModal;
            Submit three_classic_burgers; ClickConfirmOrder]).
  - vm_compute. reflexivity.
  - constructor.
  - vm_compute. reflexivity.
  - vm_compute. reflexivity.
Defined.

(** *** Stored orders that cannot be drawn *)

(** Values without a function: everything [JSON.parse] returns. *)
Fixpoint function_free (v : value) : bool :=
  match v with
  | VFunction _ => false
  | VArr elements => forallb function_free elements
  | VObj props => forallb (fun p => function_free (snd p)) props
  | VNull | VBool _ | VNum _ | VStr _ => true
  end.

Definition props_function_free (props : list (jsstring * value)) : bool :=
  forallb (fun p => function_free (snd p)) props.

Lemma set_existing_function_free (props : list (jsstring * value)) (k : jsstring) (v : value) :
  props_function_free props = true -> function_free v = true ->
  props_function_free (set_existing props k v) = true.
Proof.
  unfold props_function_free. intros Hp Hv.
  induction props as [|[k' v'] tl IH]; [reflexivity|].
  cbn [forallb snd] in Hp. apply andb_true_iff in Hp as [Hv' Htl].
  cbn [set_existing]. destruct (bool_decide (k' = k)); cbn [forallb snd].
  - now rewrite Hv, Htl.
  - now rewrite Hv', IH.
Qed.

Lemma insert_index_function_free (props : list (jsstring * value)) (i : Z)
    (k : jsstring) (v : value) :
  props_function_free props = true -> function_free v = true ->
  props_function_free (insert_index props i k v) = true.
Proof.
  unfold props_function_free. intros Hp Hv.
  induction props as [|[k' v'] tl IH]; [cbn; now rewrite Hv|].
  cbn [forallb snd] in Hp. apply andb_true_iff in Hp as [Hv' Htl].
  cbn [insert_index].
  destruct (array_index k') as [i'|]; [destruct (i' <? i)|]; cbn [forallb snd];
    rewrite ?Hv, ?Hv', ?Htl, ?IH; auto.
Qed.

Lemma define_property_function_free (props : list (jsstring * value)) (k : jsstring)
    (v : value) :
  props_function_free props = true -> function_free v = true ->
  props_function_free (define_property props k v) = true.
Proof.
  intros Hp Hv. unfold define_property.
  destruct (has_key props k); [now apply set_existing_function_free|].
  destruct (array_index k); [now apply insert_index_function_free|].
  unfold props_function_free in *. rewrite forallb_app, Hp. cbn. now rewrite Hv.
Qed.

Lemma make_object_function_free (members : list (jsstring * value)) :
  props_function_free members = true -> function_free (make_object members) = true.
Proof.
  unfold make_object. cbn [function_free]. fold (props_function_free).
  assert (H : forall acc, props_function_free acc = true ->
            props_function_free members = true ->
            props_function_free
              (fold_left (fun props m => define_property props (fst m) (snd m)) members acc)
            = true).
  { induction members as [|[k v] ms IH]; intros acc Hacc Hms; [exact Hacc|].
    unfold props_function_free in Hms. cbn [forallb snd] in Hms.
    apply andb_true_iff in Hms as [Hv Hms]. cbn [fold_left fst snd].
    apply IH; [now apply define_property_function_free | exact Hms]. }
  intros Hm. now apply H.
Qed.

Ltac split_parse H :=
  repeat match type of H with
         | context [match ?x with _ => _ end] => destruct x eqn:?; try discriminate H
         end.

Lemma parse_function_free_fuel (fuel : nat) :
  (forall s v rest, parse_value fuel s = Some (v, rest) -> function_free v = true) /\
  (forall s vs rest, parse_elements fuel s = Some (vs, rest) ->
     forallb function_free vs = true) /\
  (forall s ms rest, parse_members fuel s = Some (ms, rest) ->
     props_function_free ms = true).
Proof.
  induction fuel as [|f (IHv & IHe & IHm)]; [repeat split; discriminate|].
  repeat split.
  - intros s v rest H. cbn [parse_value] in H. unfold option_map in H.
    split_parse H; injection H as <- <-; try reflexivity.
    + cbn [function_free]. eapply IHe. eassumption.
    + apply make_object_function_free. eapply IHm. eassumption.
  - intros s vs rest H. cbn [parse_elements] in H.
    split_parse H; injection H as <- <-; cbn [forallb].
    + erewrite IHv by eassumption. erewrite IHe by eassumption. reflexivity.
    + erewrite IHv by eassumption. reflexivity.
  - intros s ms rest H. cbn [parse_members] in H.
    split_parse H; injection H as <- <-; unfold props_function_free; cbn [forallb snd].
    + erewrite IHv by eassumption.
      match goal with Hm : parse_members f _ = Some _ |- _ => apply IHm in Hm end.
      assumption.
    + erewrite IHv by eassumption. reflexivity.
Qed.

(** [JSON.parse] returns no function. *)
Lemma parse_function_free (text : jsstring) (v : value) :
  parse text = Normal v -> function_free v = true.
Proof.
  unfold parse. destruct (parse_value _ text) as [[v' rest]|] eqn:Hp; [|discriminate].
  destruct (skip_ws rest); [|discriminate]. intros [= <-].
  eapply (parse_function_free_fuel _). eassumption.
Qed.

Lemma loaded_orders_function_free (st : localStorage) :
  function_free (loaded_orders st) = true.
Proof.
  unfold loaded_orders. destruct (getItem st ORDERS_KEY) as [[text|]|e]; try reflexivity.
  destruct (JsString.truthy text); [|reflexivity].
  destruct (parse text) as [v|e] eqn:Hp; [|reflexivity].
  now apply (parse_function_free text).
Qed.

(** The evaluation completes, and when abruptly then with a TypeError. *)
Definition described {A} (o : outcome A) : Prop :=
  (exists a, o = Some (Normal a)) \/ o = Some (Throw TypeError).

Lemma described_then_throw {A B} (m : outcome A) (f : A -> outcome B) :
  described m -> (forall a, f a = Some (Throw TypeError)) ->
  m ≫= f = Some (Throw TypeError).
Proof. intros [[a ->]| ->] Hf; [apply Hf | reflexivity]. Qed.

Lemma described_bind {A B} (m : outcome A) (f : A -> outcome B) :
  described m -> (forall a, described (f a)) -> described (m ≫= f).
Proof. intros [[a ->]| ->] Hf; [apply Hf | now right]. Qed.

Lemma described_ret {A} (a : A) : described (mret a).
Proof. left. now exists a. Qed.

Lemma sequence_described {A} (l : list (outcome A)) :
  Forall described l -> described (sequence l).
Proof.
  induction 1 as [|x l Hx Hl IH]; [apply described_ret|].
  cbn [sequence]. apply described_bind; [exact Hx|]. intros a.
  apply described_bind; [exact IH|]. intros r. apply described_ret.
Qed.

Lemma own_property_function_free (props : list (jsstring * value)) (k : jsstring)
    (v : value) :
  props_function_free props = true -> own_property props k = Some v ->
  function_free v = true.
Proof.
  unfold props_function_free. induction props as [|[k' v'] tl IH]; [discriminate|].
  cbn [forallb snd own_property]. intros [Hv' Htl]%andb_true_iff.
  destruct (bool_decide (k' = k)); [now intros [= <-] | now apply IH].
Qed.

(** Under a key that [Object.prototype] does not have, an object without
    functions holds no function. *)
Lemma get_property_function_free (props : list (jsstring * value)) (k : jsstring) :
  props_function_free props = true ->
  bool_decide (k ∈ object_prototype_functions) = false ->
  bool_decide (k = js "__proto__") = false ->
  match get_property props k with
  | Some v => function_free v = true
  | None => True
  end.
Proof.
  intros Hp Hk1 Hk2. unfold get_property.
  destruct (own_property props k) as [v|] eqn:Hown.
  - now apply (own_property_function_free props k).
  - now rewrite Hk1, Hk2.
Qed.

Lemma primitive_from_plain (props : list (jsstring * value)) (k : jsstring) :
  props_function_free props = true ->
  k = js "toString" \/ k = js "valueOf" ->
  described (primitive_from (get_property props k)).
Proof.
  intros Hp Hk. unfold get_property.
  destruct (own_property props k) as [v|] eqn:Hown.
  - pose proof (own_property_function_free props k v Hp Hown) as Hv.
    destruct v; try discriminate; apply described_ret.
  - destruct Hk as [-> | ->]; apply described_ret.
Qed.

Lemma to_text_described (v : value) : function_free v = true -> described (to_text v).
Proof.
  induction v as [ | b | x | s | elements IH | props IH | name] using value_induction;
    cbn [function_free]; intros Hff; try discriminate; try apply described_ret.
  - cbn [to_text]. apply described_bind; [|intros; apply described_ret].
    apply sequence_described. rewrite forallb_forall in Hff.
    rewrite Forall_forall in IH. apply Forall_forall. intros o Ho.
    apply list_elem_of_In, in_map_iff in Ho as (e & <- & He).
    destruct e; try apply described_ret;
      apply IH; try (now apply list_elem_of_In); now apply Hff.
  - cbn [to_text]. apply described_bind; [apply primitive_from_plain; auto|].
    intros [text|]; [apply described_ret|].
    apply described_bind; [apply primitive_from_plain; auto|].
    intros [text|]; [apply described_ret | now right].
Qed.

Lemma substitute_described (v : value) (fld : order_field) :
  function_free v = true -> described (substitute v fld).
Proof.
  intros Hff. unfold substitute.
  destruct v as [ | b | x | s | elements | props | name]; try discriminate;
    try apply described_ret; try (now right).
  cbn [read_field function_free] in *. cbn [mbind outcome_bind mret outcome_ret].
  pose proof (get_property_function_free props (field_name fld) Hff) as Hget.
  destruct fld; specialize (Hget eq_refl eq_refl);
    match goal with
    | |- context [get_property props ?k] => destruct (get_property props k)
    end; try apply described_ret; now apply to_text_described.
Qed.

(** [v.toFixed(2)] and [v.toLowerCase()] on what is neither a Number nor a
    string, functions left aside, throw. *)
Lemma foreign_method_throws (v : option value) (name : jsstring) :
  match v with Some u => function_free u = true | None => True end ->
  bool_decide (name ∈ object_prototype_functions) = false ->
  bool_decide (name = js "__proto__") = false ->
  foreign_method v name = Some (Throw TypeError).
Proof.
  intros Hv Hk1 Hk2. destruct v as [[ | | | | |props| ]|]; try reflexivity.
  cbn [foreign_method function_free] in *.
  pose proof (get_property_function_free props name Hv Hk1 Hk2) as Hget.
  destruct (get_property props name) as [[ | | | | | | ]|]; try reflexivity.
  discriminate.
Qed.

(** Whether [order.unitPrice] is a Number. *)
Definition has_number_price (order : value) : bool :=
  match read_field order FUnitPrice with
  | Some (Normal (Some (VNum _))) => true
  | _ => false
  end.

Lemma row_without_price (v : value) :
  function_free v = true -> has_number_price v = false ->
  createOrderRow v = Some (Throw TypeError).
Proof.
  intros Hff Hprice. unfold createOrderRow.
  apply described_then_throw; [now apply substitute_described | intros name].
  apply described_then_throw; [now apply substitute_described | intros id].
  apply described_then_throw; [now apply substitute_described | intros phone].
  apply described_then_throw; [now apply substitute_described | intros burger].
  unfold has_number_price in Hprice.
  destruct v as [ | b | x | s | elements | props | name']; try discriminate;
    try reflexivity.
  cbn [read_field function_free] in *. cbn [mbind outcome_bind mret outcome_ret] in *.
  pose proof (get_property_function_free props (field_name FUnitPrice) Hff eq_refl eq_refl)
    as Hget.
  destruct (get_property props (field_name FUnitPrice)) as [u|] eqn:Hu; [|reflexivity].
  destruct u as [ | | | | |props'| ]; try discriminate; try reflexivity.
  cbn [call_toFixed]. rewrite foreign_method_throws; auto.
Qed.

Lemma sequence_first_failure {A} (f : value -> outcome A) (pre post : list value)
    (v : value) (e : exn) :
  Forall (fun u => exists r, f u = Some (Normal r)) pre -> f v = Some (Throw e) ->
  sequence (List.map f (pre ++ v :: post)) = Some (Throw e).
Proof.
  intros Hpre Hv. induction Hpre as [|u pre [r Hr] Hpre IH].
  - cbn [app List.map sequence]. now rewrite Hv.
  - cbn [app List.map sequence]. rewrite Hr. cbn [mbind outcome_bind].
    now rewrite IH.
Qed.

(** X17: a stored order without a Number for its unit price stops the
    first rendering.  When the stored orders hold such an order (an object
    without [unitPrice], with [null] or a string there, or something that is
    no object) and the orders before it have rows, [renderOrders] throws a
    TypeError at that order: the constructor is left before
    [updateEmptyState] runs. *)
Theorem X17_stored_order_without_price_stops_rendering
    (st : localStorage) (pre post : list value) (v : value) :
  loaded_orders st = VArr (pre ++ v :: post) ->
  Forall renders pre -> has_number_price v = false ->
  createOrderRow v = Some (Throw TypeError) /\
  renderOrders (orders (start st)) = Some (Throw TypeError) /\
  refresh (orders (start st)) = Some (Throw TypeError).
Proof.
  intros Hl Hpre Hprice.
  assert (Hff : function_free v = true).
  { pose proof (loaded_orders_function_free st) as H. rewrite Hl in H.
    cbn [function_free] in H. rewrite forallb_app in H.
    apply andb_true_iff in H as [_ H]. cbn [forallb] in H.
    now apply andb_true_iff in H as [H _]. }
  pose proof (row_without_price v Hff Hprice) as Hrow.
  assert (Hrender : renderOrders (VArr (pre ++ v :: post)) = Some (Throw TypeError)).
  { unfold renderOrders. cbn [has_length_zero mbind outcome_bind mret outcome_ret].
    rewrite bool_decide_eq_false_2 by (now destruct pre).
    now apply sequence_first_failure. }
  rewrite start_eq. cbn [orders]. rewrite Hl.
  unfold refresh. rewrite Hrender. auto.
Qed.

Definition storage_with_bare_order : localStorage :=
  {| items := {[ ORDERS_KEY := js "[{}]" ]}; quota := None; blocked := false |}.

Lemma X17_witness_bare_order :
  createOrderRow (VObj []) = Some (Throw TypeError) /\
  renderOrders (orders (start storage_with_bare_order)) = Some (Throw TypeError) /\
  refresh (orders (start storage_with_bare_order)) = Some (Throw TypeError).
Proof.
  apply (X17_stored_order_without_price_stops_rendering storage_with_bare_order
           [] [] (VObj [])).
  - vm_compute. reflexivity.
  - constructor.
  - reflexivity.
Defined.

(** ** What comes back from storage *)

(** The value that the JSON text of [v] stands for: a Number that is not
    finite has become [null], in an array a function has become [null], and
    in an object a property holding a function has gone. *)
Fixpoint json_image (v : value) : value :=
  match v with
  | VNum x => if is_finite x then VNum x else VNull
  | VArr elements =>
      VArr (List.map (fun e => match e with
                               | VFunction _ => VNull
                               | _ => json_image e
                               end) elements)
  | VObj props =>
      VObj (List.flat_map (fun p => match snd p with
                                    | VFunction _ => []
                                    | _ => [(fst p, json_image (snd p))]
                                    end) props)
  | VNull | VBool _ | VStr _ | VFunction _ => v
  end.

Definition is_function (v : value) : bool :=
  match v with VFunction _ => true | _ => false end.

Lemma serialize_image (v : value) :
  is_function v = false -> serialize (json_image v) = serialize v.
Proof.
  induction v as [ | b | x | s | elements IH | props IH | name] using value_induction;
    intros Hf; try reflexivity; try discriminate.
  - cbn [json_image]. now destruct x.
  - cbn [json_image serialize]. rewrite List.map_map.
    match goal with
    | |- Some (_ :: join_comma ?a ++ _) = Some (_ :: join_comma ?b ++ _) =>
        replace a with b; [reflexivity|]
    end.
    apply List.map_ext_in. intros e He.
    rewrite Forall_forall in IH. specialize (IH e ltac:(now apply list_elem_of_In)).
    destruct e; try reflexivity; now rewrite IH.
  - cbn [json_image serialize].
    match goal with
    | |- Some (_ :: join_comma ?a ++ _) = Some (_ :: join_comma ?b ++ _) =>
        replace a with b; [reflexivity|]
    end.
    induction props as [|[k u] tl IHtl]; [reflexivity|].
    apply Forall_cons in IH as [Hu Htl]. cbn [snd] in Hu.
    pose proof (IHtl Htl) as Heq.
    destruct u; cbn [app List.flat_map fst snd]; rewrite <- Heq;
      rewrite ?Hu by reflexivity; reflexivity.
Qed.

(** [JSON.parse(JSON.stringify(v))] is the image of [v], when that image
    is a value that JSON represents exactly (its strings are sequences of
    code units, its objects have plain keys). *)
Lemma parse_stringify_image (v : value) :
  is_function v = false -> json_exact (json_image v) = true ->
  exists text, stringify v = Some text /\ parse text = Normal (json_image v).
Proof.
  intros Hf Hex. destruct (parse_stringify _ Hex) as [Hs Hp].
  exists (json_text (json_image v)). split; [|exact Hp].
  unfold stringify in *. now rewrite <- serialize_image.
Qed.

Lemma json_image_exact (v : value) : json_exact v = true -> json_image v = v.
Proof.
  induction v as [ | b | x | s | elements IH | props IH | name] using value_induction;
    cbn [json_exact]; intros Hex; try reflexivity.
  - cbn [json_image]. apply andb_true_iff in Hex as [Hfin _]. now rewrite Hfin.
  - cbn [json_image]. f_equal. rewrite forallb_forall in Hex.
    rewrite Forall_forall in IH.
    rewrite <- (List.map_id elements) at 2. apply List.map_ext_in. intros e He.
    specialize (Hex e He). specialize (IH e ltac:(now apply list_elem_of_In) Hex).
    destruct e; try reflexivity; try exact IH. discriminate.
  - cbn [json_image]. f_equal. apply andb_true_iff in Hex as [Hex _].
    induction props as [|[k u] tl IHtl]; [reflexivity|].
    apply Forall_cons in IH as [Hu Htl]. cbn [snd] in Hu.
    cbn [forallb fst snd] in Hex. apply andb_true_iff in Hex as [Hku Hex].
    apply andb_true_iff in Hku as [_ Hue].
    cbn [List.flat_map fst snd]. rewrite (IHtl Htl Hex).
    destruct u; try discriminate; cbn [app]; rewrite ?(Hu Hue); reflexivity.
Qed.

Lemma confirm_reload_image (w : world) (d : order) (l : list value) :
  currentOrder w = Some d -> orders w = VArr l ->
  json_exact (json_image (VArr (order_value d :: l))) = true ->
  blocked (storage w) = false ->
  fits (quota (storage w))
    (<[ORDERS_KEY := json_text (json_image (VArr (order_value d :: l)))]>
       (items (storage w))) = true ->
  orders (run w [ClickConfirmOrder; Reload]) = json_image (VArr (order_value d :: l)).
Proof.
  intros Hd Ho Hex Hb Hf.
  change (run w [ClickConfirmOrder; Reload])
    with (step (step w ClickConfirmOrder) Reload).
  rewrite (step_confirm_draft w d l Hd Ho).
  destruct (parse_stringify _ Hex) as [Hser Hparse].
  unfold stringify in *. rewrite serialize_image in Hser by reflexivity. rewrite Hser.
  unfold step, handle. cbn [snd storage]. rewrite start_eq. cbn [orders].
  unfold loaded_orders, getItem.
  rewrite try_set_blocked, Hb, try_set_accepted by assumption.
  assert (Ht : JsString.truthy (json_text (json_image (VArr (order_value d :: l)))) = true)
    by reflexivity.
  now rewrite Ht, Hparse.
Qed.

(** X18: what a reload finds is the JSON image of what was saved.  When
    the write is accepted, confirming a draft and loading the page again
    gives the order list as JSON writes it: every finite Number, string and
    boolean as it was, but a total or quantity that is NaN or infinite
    replaced by [null], and a unit price that is a function left out of its
    order. *)
Theorem X18_reload_gives_the_json_image (w : world) (d : order) (l : list value) :
  currentOrder w = Some d -> orders w = VArr l ->
  json_exact (json_image (VArr (order_value d :: l))) = true ->
  blocked (storage w) = false ->
  fits (quota (storage w))
    (<[ORDERS_KEY := json_text (json_image (VArr (order_value d :: l)))]>
       (items (storage w))) = true ->
  orders (run w [ClickConfirmOrder; Reload]) = json_image (VArr (order_value d :: l)).
Proof. apply confirm_reload_image. Qed.

(** A form whose quantity is not a number: the order is valid all the
    same. *)
Definition burgers_without_quantity : form :=
  {| customerNameInput := js "Ann Lee";
     phoneNumberInput := js "(555) 123-4567";
     selectedBurger := Some (js "Classic Beef Burger");
     quantitySelect := js "";
     specialInstructionsTextarea := js "";
     now := js "2024-05-01T12:00:00.000Z" |}.

Lemma X18_witness_order_without_quantity :
  orders (run (step (start empty_storage) (Submit burgers_without_quantity))
            [ClickConfirmOrder; Reload])
  = json_image
      (VArr (order_value
               (built_order burgers_without_quantity (js "Classic Beef Burger")
                  (js "BC1001")) :: [])).
Proof.
  apply (X18_reload_gives_the_json_image
           (step (start empty_storage) (Submit burgers_without_quantity))
           (built_order burgers_without_quantity (js "Classic Beef Burger") (js "BC1001"))
           []).
  - vm_compute. reflexivity.
  - vm_compute. reflexivity.
  - vm_compute. reflexivity.
  - reflexivity.
  - reflexivity.
Defined.

Lemma row_after_reload_without_total (d : order) (p : number) :
  unitPrice d = VNum p -> is_finite p = true -> status d = js "Pending" ->
  is_finite (totalPrice d) = false ->
  createOrderRow (json_image (order_value d)) = Some (Throw TypeError).
Proof.
  intros Hp Hfin Hs Htotal.
  destruct d as [name phone burger qty instr price total st date id].
  cbn [unitPrice status totalPrice] in *. subst price st.
  unfold order_value. cbn [json_image List.flat_map fst snd app
    customerName phoneNumber hamburgerType quantity specialInstructions unitPrice
    totalPrice status orderDate orderId].
  rewrite Hfin, Htotal. destruct (is_finite qty); reflexivity.
Qed.

(** X19: an order without a finite total is drawn once and never again.
    When the total of a draft is NaN or infinite (the quantity was not a
    number), the confirmed order has its row in the session, the total cell
    reading as ToString writes the Number; saved, its total is [null], and
    the page loaded afterwards throws a TypeError while rendering, in the
    constructor. *)
Theorem X19_order_without_total_breaks_next_start
    (w : world) (d : order) (l : list value) (p : number) :
  currentOrder w = Some d -> orders w = VArr l -> Forall renders l ->
  unitPrice d = VNum p -> is_finite p = true -> status d = js "Pending" ->
  is_finite (totalPrice d) = false ->
  json_exact (json_image (VArr (order_value d :: l))) = true ->
  blocked (storage w) = false ->
  fits (quota (storage w))
    (<[ORDERS_KEY := json_text (json_image (VArr (order_value d :: l)))]>
       (items (storage w))) = true ->
  (exists r rows,
     refresh (orders (step w ClickConfirmOrder)) =
     Some (Normal {| tableRows := r :: rows; emptyStateShown := false |}) /\
     totalCell r = toString (totalPrice d) /\ length rows = length l) /\
  refresh (orders (run w [ClickConfirmOrder; Reload])) = Some (Throw TypeError).
Proof.
  intros Hd Ho Hl Hp Hfin Hs Htotal Hex Hb Hf. split.
  - rewrite (step_confirm_draft w d l Hd Ho). cbn [orders].
    pose proof (row_of_order d p Hp Hs) as Hrow.
    destruct (sequence_all createOrderRow l Hl) as (rows & Hrows & Hlen).
    eexists _, rows. unfold refresh, renderOrders, updateEmptyState.
    cbn [has_length_zero mbind outcome_bind mret outcome_ret List.map sequence].
    rewrite bool_decide_eq_false_2 by discriminate.
    rewrite Hrow. cbn [mbind outcome_bind]. rewrite Hrows.
    cbn [mbind outcome_bind mret outcome_ret].
    split; [reflexivity|]. cbn [totalCell]. split; [|exact Hlen].
    destruct (totalPrice d); [reflexivity | reflexivity | discriminate].
  - pose proof (confirm_reload_image w d l Hd Ho Hex Hb Hf) as Hreload.
    rewrite Hreload. cbn [json_image List.map].
    pose proof (row_after_reload_without_total d p Hp Hfin Hs Htotal) as Hrow.
    unfold refresh, renderOrders.
    cbn [has_length_zero mbind outcome_bind mret outcome_ret List.map sequence].
    rewrite bool_decide_eq_false_2 by discriminate.
    unfold order_value in Hrow |- *. now rewrite Hrow.
Qed.

Lemma X19_witness_order_without_quantity :
  (exists r rows,
     refresh (orders (step (step (start empty_storage) (Submit burgers_without_quantity))
                        ClickConfirmOrder)) =
     Some (Normal {| tableRows := r :: rows; emptyStateShown := false |}) /\
     totalCell r =
     toString (totalPrice (built_order burgers_without_quantity
                             (js "Classic Beef Burger") (js "BC1001"))) /\
     length rows = length (@nil value)) /\
  refresh (orders (run (step (start empty_storage) (Submit burgers_without_quantity))
                     [ClickConfirmOrder; Reload])) = Some (Throw TypeError).
Proof.
  apply (X19_order_without_total_breaks_next_start
           (step (start empty_storage) (Submit burgers_without_quantity))
           (built_order burgers_without_quantity (js "Classic Beef Burger") (js "BC1001"))
           [] (round_dec 1299 (-2))).
  - vm_compute. reflexivity.
  - vm_compute. reflexivity.
  - constructor.
  - reflexivity.
  - vm_compute. reflexivity.
  - reflexivity.
  - vm_compute. reflexivity.
  - vm_compute. reflexivity.
  - reflexivity.
  - reflexivity.
Defined.

(** ** The order list through reloads *)

Lemma digits_le_small (fuel : nat) (z : Z) : Forall (fun d => d <= 9) (digits_le fuel z).
Proof.
  revert z. induction fuel as [|f IH]; intros z; [constructor|].
  rewrite digits_le_S. destruct (Z.ltb_spec z 10).
  - repeat constructor. lia.
  - constructor; [|apply IH]. pose proof (Z.mod_pos_bound z 10). lia.
Qed.

Lemma digits_code_units (z : Z) : code_unitsb (digits z) = true.
Proof.
  unfold digits, code_unitsb. apply forallb_forall. intros c Hc.
  apply in_rev, in_map_iff in Hc as (d & <- & Hd).
  pose proof (digits_le_small (S (Z.to_nat (Z.log2 z))) z) as Hall.
  rewrite Forall_forall in Hall. specialize (Hall d ltac:(now apply list_elem_of_In)).
  apply N.ltb_lt. unfold digit_char. lia.
Qed.

Lemma code_unitsb_app (a b : jsstring) :
  code_unitsb (a ++ b) = code_unitsb a && code_unitsb b.
Proof. apply forallb_app. Qed.

Lemma code_unitsb_take_drop (n : nat) (s : jsstring) :
  code_unitsb s = true ->
  code_unitsb (take n s) = true /\ code_unitsb (drop n s) = true.
Proof.
  intros H. rewrite <- (take_drop n s) in H. unfold code_unitsb in *.
  rewrite forallb_app in H. now apply andb_true_iff in H.
Qed.

Lemma code_unitsb_take (n : nat) (s : jsstring) :
  code_unitsb s = true -> code_unitsb (take n s) = true.
Proof. intros H. apply (code_unitsb_take_drop n s H). Qed.

Lemma code_unitsb_drop (n : nat) (s : jsstring) :
  code_unitsb s = true -> code_unitsb (drop n s) = true.
Proof. intros H. apply (code_unitsb_take_drop n s H). Qed.

Lemma zeros_code_units (n : Z) : code_unitsb (zeros n) = true.
Proof.
  unfold zeros, code_unitsb. apply forallb_forall. intros c Hc.
  apply repeat_spec in Hc. now subst c.
Qed.

Lemma format_decimal_code_units (s e : Z) : code_unitsb (format_decimal s e) = true.
Proof.
  pose proof (digits_code_units s) as Hd.
  unfold format_decimal. cbv zeta.
  repeat match goal with |- context [if ?b then _ else _] => destruct b end;
    rewrite ?code_unitsb_app, ?Hd, ?zeros_code_units, ?digits_code_units,
      ?code_unitsb_take, ?code_unitsb_drop by assumption; reflexivity.
Qed.

(** The text of a Number is made of code units. *)
Lemma toString_code_units (x : number) : code_unitsb (toString x) = true.
Proof.
  destruct x as [|[|]|k]; try reflexivity. unfold toString.
  destruct (k =? 0); [reflexivity|].
  destruct (shortest (Z.abs k)) as [s e].
  rewrite code_unitsb_app, format_decimal_code_units.
  now destruct (k <? 0).
Qed.

Lemma order_id_code_units (x : number) :
  code_unitsb (js "BC" ++ padStart (toString x) 4 (ch "0")) = true.
Proof.
  unfold padStart. rewrite !code_unitsb_app, toString_code_units, andb_true_r.
  change (code_unitsb (js "BC")) with true. cbn [andb].
  unfold code_unitsb. apply forallb_forall. intros c Hc.
  apply repeat_spec in Hc. now subst c.
Qed.

(** An order is represented exactly whatever its id, when it is with some
    id made of code units. *)
Lemma built_order_exact (f : form) (burger id : jsstring) :
  json_exact (order_value (built_order f burger [])) = true ->
  code_unitsb id = true ->
  json_exact (order_value (built_order f burger id)) = true.
Proof.
  intros H Hid. unfold order_value, built_order in *.
  cbn [json_exact forallb fst snd customerName phoneNumber hamburgerType quantity
       specialInstructions unitPrice totalPrice status orderDate orderId List.map] in *.
  rewrite Hid.
  repeat match type of H with
         | (_ && _) = true => apply andb_true_iff in H as [? H]
         end.
  repeat match goal with
         | H' : (_ && _) = true |- _ => apply andb_true_iff in H' as [? ?]
         end.
  repeat (apply andb_true_iff; split); assumption.
Qed.

(** A submit whose order JSON represents exactly: the texts typed are
    strings of code units, the price is a finite Number, and so are the
    quantity and the total. *)
Definition exact_submit (ev : event) : bool :=
  match ev with
  | Submit f =>
      match selectedBurger f with
      | Some burger => json_exact (order_value (built_order f burger []))
      | None => true
      end
  | _ => true
  end.

(** The stored order list is the one in memory. *)
Definition saved (w : world) : Prop :=
  blocked (storage w) = false /\ quota (storage w) = None /\
  is_array (orders w) = true /\ json_exact (orders w) = true /\
  loaded_orders (storage w) = orders w /\
  (forall d, currentOrder w = Some d -> json_exact (order_value d) = true).

Lemma step_saved (w : world) (ev : event) :
  exact_submit ev = true -> saved w -> saved (step w ev).
Proof.
  unfold saved. intros Hev (Hb & Hq & Harr & Hex & Hload & Hd).
  destruct (step_cases w ev)
    as [->|[(f & burger & -> & Hv & Hsel & ->)|[->|[(d & l & _ & Hcur & Hord & ->)|[->|[[_ ->]|[_ ->]]]]]]];
    cbn [orders currentOrder storage].
  - auto 10.
  - rewrite try_set_blocked, try_set_quota.
    rewrite (loaded_orders_same (storage w))
      by (first [apply try_set_blocked | apply try_set_other_key, keys_differ]).
    repeat split; auto.
    intros d [= <-]. cbn [exact_submit] in Hev. rewrite Hsel in Hev.
    apply built_order_exact; [exact Hev | apply order_id_code_units].
  - repeat split; auto. discriminate.
  - rewrite try_set_blocked, try_set_quota.
    assert (Hex' : json_exact (VArr (order_value d :: l)) = true).
    { rewrite Hord in Hex. cbn [json_exact forallb] in *.
      now rewrite (Hd d Hcur), Hex. }
    repeat split; auto; [|discriminate].
    destruct (parse_stringify _ Hex') as [Hser Hparse]. rewrite Hser.
    unfold loaded_orders, getItem. rewrite try_set_blocked, Hb.
    rewrite try_set_accepted by (first [assumption | now rewrite Hq]).
    assert (Ht : JsString.truthy (json_text (VArr (order_value d :: l))) = true)
      by reflexivity.
    now rewrite Ht, Hparse.
  - auto 10.
  - repeat split; auto. destruct (confirmationActive w); [discriminate | auto].
  - rewrite start_eq. cbn [orders currentOrder storage]. rewrite Hload.
    repeat split; auto. discriminate.
Qed.

Lemma run_saved (evs : list event) :
  forall w, forallb exact_submit evs = true -> saved w -> saved (run w evs).
Proof.
  induction evs as [|ev evs IH]; intros w Hevs Hw; [exact Hw|].
  cbn [forallb] in Hevs. apply andb_true_iff in Hevs as [Hev Hevs].
  change (run w (ev :: evs)) with (run (step w ev) evs).
  apply IH; [exact Hevs | now apply step_saved].
Qed.

(** X20: a reload never changes the order list, while writes are accepted.
    With storage that takes every write, stored orders that are an array JSON
    represents exactly, and submits whose orders JSON represents exactly,
    after any sequence of events, reloads included, the stored orders read
    back as the list in memory: loading the page again shows the same
    orders, none lost, none changed. *)
Theorem X20_reload_keeps_the_orders (st : localStorage) (evs : list event) :
  blocked st = false -> quota st = None ->
  is_array (loaded_orders st) = true -> json_exact (loaded_orders st) = true ->
  forallb exact_submit evs = true ->
  loaded_orders (storage (run (start st) evs)) = orders (run (start st) evs) /\
  orders (run (start st) (evs ++ [Reload])) = orders (run (start st) evs).
Proof.
  intros Hb Hq Harr Hex Hevs.
  assert (Hstart : saved (start st)).
  { rewrite start_eq. unfold saved. cbn [orders currentOrder storage].
    repeat split; auto. discriminate. }
  destruct (run_saved evs (start st) Hevs Hstart) as (_ & _ & _ & _ & Hload & _).
  split; [exact Hload|].
  unfold run. rewrite fold_left_app. cbn [fold_left]. fold (run (start st) evs).
  rewrite step_reload, start_eq. exact Hload.
Qed.

Lemma X20_witness_two_orders :
  loaded_orders (storage (run (start empty_storage)
                            [Submit three_classic_burgers; ClickConfirmOrder; Reload;
                             Submit three_classic_burgers; ClickConfirmOrder]))
  = orders (run (start empty_storage)
              [Submit three_classic_burgers; ClickConfirmOrder; Reload;
               Submit three_classic_burgers; ClickConfirmOrder]) /\
  orders (run (start empty_storage)
            ([Submit three_classic_burgers; ClickConfirmOrder; Reload;
              Submit three_classic_burgers; ClickConfirmOrder] ++ [Reload]))
  = orders (run (start empty_storage)
              [Submit three_classic_burgers; ClickConfirmOrder; Reload;
               Submit three_classic_burgers; ClickConfirmOrder]).
Proof.
  apply (X20_reload_keeps_the_orders empty_storage
           [Submit three_classic_burgers; ClickConfirmOrder; Reload;
            Submit three_classic_burgers; ClickConfirmOrder]).
  - reflexivity.
  - reflexivity.
  - vm_compute. reflexivity.
  - vm_compute. reflexivity.
  - vm_compute. reflexivity.
Defined.

(** ** Cancelling and confirming over a storage that misbehaves *)

(** The first valid submit of a page whose counter loaded as 1000. *)
Lemma first_submit (st : localStorage) :
  loaded_counter st = of_Z 1000 ->
  step (start st) (Submit three_classic_burgers) =
  {| orders := loaded_orders st; orderCounter := of_Z 1001;
     currentOrder := Some draft_BC1001;
     confirmationActive := true; successActive := false;
     storage := try_set st COUNTER_KEY (js "1001") |}.
Proof.
  intros Hc.
  assert (Hv : validateForm three_classic_burgers = true) by (vm_compute; reflexivity).
  rewrite (step_submit_valid _ _ (js "Classic Beef Burger") Hv eq_refl), start_eq.
  cbn [orders orderCounter successActive storage]. rewrite Hc.
  change (of_Z 1001) with (of_Z (1000 + 1)).
  rewrite add_integers by (cbn; lia).
  rewrite toString_integer by (cbn; lia). reflexivity.
Qed.

(** C3, as stated, fails when the user agent refuses the write of the
    counter: the submit builds the draft BC1001 and the counter in memory is
    1001, but the error of [setItem] is swallowed, so after the dismissal
    there is still no counter in storage, and a page loaded afterwards starts
    from 1000 again: the increment is not retained by the persisted
    counter. *)
Lemma C3_counterexample_counter_not_persisted :
  currentOrder (run (start storage_without_room) [Submit three_classic_burgers])
  = Some draft_BC1001 /\
  orderCounter (run (start storage_without_room)
                  [Submit three_classic_burgers; ClickCloseModal]) = of_Z 1001 /\
  items (storage (run (start storage_without_room)
                    [Submit three_classic_burgers; ClickCloseModal])) !! COUNTER_KEY
  = None /\
  orderCounter (run (start storage_without_room)
                  [Submit three_classic_burgers; ClickCloseModal; Reload]) = of_Z 1000.
Proof.
  assert (Hc : loaded_counter storage_without_room = of_Z 1000)
    by (apply loaded_counter_absent; reflexivity).
  assert (Hrefused : try_set storage_without_room COUNTER_KEY (js "1001")
                     = storage_without_room) by reflexivity.
  change (run (start storage_without_room) [Submit three_classic_burgers])
    with (step (start storage_without_room) (Submit three_classic_burgers)).
  change (run (start storage_without_room) [Submit three_classic_burgers; ClickCloseModal])
    with (step (step (start storage_without_room) (Submit three_classic_burgers))
            ClickCloseModal).
  change (run (start storage_without_room)
            [Submit three_classic_burgers; ClickCloseModal; Reload])
    with (step (step (step (start storage_without_room) (Submit three_classic_burgers))
                  ClickCloseModal) Reload).
  rewrite (first_submit storage_without_room Hc), Hrefused.
  match goal with
  | |- context [step ?w1 ClickCloseModal] =>
      destruct (step_dismiss w1 ClickCloseModal ltac:(now left))
        as (_ & Hcounter & _ & _ & Hstorage)
  end.
  rewrite step_reload, start_eq, Hcounter, Hstorage.
  cbn [currentOrder orderCounter storage].
  split; [reflexivity|]. split; [reflexivity|]. split; [reflexivity | exact Hc].
Qed.

(** C4, as stated, fails when the stored orders are valid JSON that is not
    an array: [orders] is then the object read from storage, a valid submit
    still builds the draft BC1001, and the confirm throws at [unshift]: the
    draft is not appended and not cleared, after one confirm as after
    two. *)
Lemma C4_counterexample_orders_not_an_array :
  orders (run (start storage_with_object_for_orders) [Submit three_classic_burgers])
  = VObj [] /\
  currentOrder (run (start storage_with_object_for_orders) [Submit three_classic_burgers])
  = Some draft_BC1001 /\
  orders (run (start storage_with_object_for_orders)
            [Submit three_classic_burgers; ClickConfirmOrder]) = VObj [] /\
  currentOrder (run (start storage_with_object_for_orders)
                  [Submit three_classic_burgers; ClickConfirmOrder])
  = Some draft_BC1001 /\
  orders (run (start storage_with_object_for_orders)
            [Submit three_classic_burgers; ClickConfirmOrder; ClickConfirmOrder])
  = VObj [] /\
  currentOrder (run (start storage_with_object_for_orders)
                  [Submit three_classic_burgers; ClickConfirmOrder; ClickConfirmOrder])
  = Some draft_BC1001.
Proof.
  assert (Hc : loaded_counter storage_with_object_for_orders = of_Z 1000).
  { apply loaded_counter_absent. apply lookup_singleton_ne.
    intros H. now apply keys_differ. }
  assert (Ho : loaded_orders storage_with_object_for_orders = VObj []) by reflexivity.
  pose proof (first_submit storage_with_object_for_orders Hc) as Hsubmit.
  rewrite Ho in Hsubmit.
  assert (Hstuck : step (step (start storage_with_object_for_orders)
                           (Submit three_classic_burgers)) ClickConfirmOrder
                   = step (start storage_with_object_for_orders)
                       (Submit three_classic_burgers)).
  { apply (step_confirm_not_array _ draft_BC1001); rewrite Hsubmit;
      [reflexivity | discriminate]. }
  change (run (start storage_with_object_for_orders) [Submit three_classic_burgers])
    with (step (start storage_with_object_for_orders) (Submit three_classic_burgers)).
  change (run (start storage_with_object_for_orders)
            [Submit three_classic_burgers; ClickConfirmOrder])
    with (step (step (start storage_with_object_for_orders)
                  (Submit three_classic_burgers)) ClickConfirmOrder).
  change (run (start storage_with_object_for_orders)
            [Submit three_classic_burgers; ClickConfirmOrder; ClickConfirmOrder])
    with (step (step (step (start storage_with_object_for_orders)
                        (Submit three_classic_burgers)) ClickConfirmOrder)
            ClickConfirmOrder).
  rewrite !Hstuck, Hsubmit. cbn [orders currentOrder].
  repeat split; reflexivity.
Qed.
